(** * Zotero assistant: the library synchronisation helpers of [zotero.ts]

    A shallow embedding of the two copies of [zotero.ts] kept in the
    repository, [src/zotero.ts] (the Cloudflare worker) and
    [packages/mcp/src/zotero.ts] (the packaged server), with the properties
    their specification states.

    Layout.
    - What reads the same in both copies is embedded once: the type
      resolver, the URL unwrapper, the listings, the attachment
      operations, [createItem], [listCollections] and [listTags].  The
      packaged copy passes a [libraryType] along to pick the library; the
      store of the model stands for the library picked.
    - What differs is embedded twice, in the modules [Worker] and
      [Package]: [searchItems], [getItemFulltext], [updateItem], and
      [getLibraryStats], which only the packaged copy has.
    - The properties come last.

    Conventions.
    - A JavaScript string is a [string] of bytes, its UTF-8 encoding.
    - A value that may be [undefined] or [null] is an [option].
    - A function that may throw returns [exn + A]; an [async] function
      runs in the monad [M] of section "Remote calls", which records every
      request it sends.  [console.log] calls are left out. *)

From Stdlib Require Import String Ascii List ZArith Lia Bool DecimalString.
Import ListNotations.
Open Scope string_scope.

(* ------------------------------------------------------------------ *)
(** * Platform string functions *)
(* ------------------------------------------------------------------ *)

Module JS.

(** Truthiness of a string: the empty string is falsy. *)
Definition truthy (s : string) : bool :=
  match s with EmptyString => false | String _ _ => true end.

(** [a || b] on an optional string: [undefined], [null] and the empty
    string fall through to [b]. *)
Definition or_else (a : option string) (b : string) : string :=
  match a with
  | Some s => if truthy s then s else b
  | None => b
  end.

(** [a || null]. *)
Definition or_null (a : option string) : option string :=
  match a with
  | Some s => if truthy s then Some s else None
  | None => None
  end.

Definition is_upper (c : ascii) : bool :=
  let n := nat_of_ascii c in (65 <=? n)%nat && (n <=? 90)%nat.

Definition lower_ascii (c : ascii) : ascii :=
  if is_upper c then ascii_of_nat (nat_of_ascii c + 32) else c.

(** U+212A KELVIN SIGN, bytes E2 84 AA: the only code point outside ASCII
    whose lower case is an ASCII letter. *)
Definition is_kelvin (a b c : ascii) : bool :=
  (nat_of_ascii a =? 226)%nat && (nat_of_ascii b =? 132)%nat
  && (nat_of_ascii c =? 170)%nat.

(** [String.prototype.toLowerCase].  ASCII letters and the Kelvin sign are
    lowered; every other code point outside ASCII is left as it is (its
    lower case stays outside ASCII, which is all the callers observe: they
    compare the result with ASCII names). *)
Fixpoint toLowerCase (s : string) : string :=
  match s with
  | EmptyString => EmptyString
  | String c s1 =>
      match s1 with
      | String c2 (String c3 s3) =>
          if is_kelvin c c2 c3 then String "k" (toLowerCase s3)
          else String (lower_ascii c) (toLowerCase s1)
      | _ => String (lower_ascii c) (toLowerCase s1)
      end
  end.

(** [s.startsWith(p)]. *)
Definition startsWith (s p : string) : bool := String.prefix p s.

(** [s.includes(sub)]. *)
Fixpoint includes (s sub : string) : bool :=
  match s with
  | EmptyString => String.prefix sub EmptyString
  | String _ s' => String.prefix sub s || includes s' sub
  end.

(** [s.endsWith(p)]. *)
Fixpoint endsWith (s p : string) : bool :=
  String.eqb s p ||
  match s with
  | EmptyString => false
  | String _ s' => endsWith s' p
  end.

(** [s.split(sep)] for a non-empty separator: [skip] counts the bytes of a
    separator that is being stepped over, [cur] is the piece read so far. *)
Fixpoint split_aux (sep s : string) (skip : nat) (cur : string) : list string :=
  match s with
  | EmptyString => [cur]
  | String c s' =>
      match skip with
      | S k => split_aux sep s' k cur
      | O =>
          if String.prefix sep s
          then cur :: split_aux sep s' (String.length sep - 1) EmptyString
          else split_aux sep s' 0 (cur ++ String c EmptyString)
      end
  end.

Definition split (s sep : string) : list string := split_aux sep s 0 EmptyString.

(** [arr.pop()] of a freshly split string: its last piece. *)
Definition pop (l : list string) : string := last l EmptyString.

(** ASCII white space and line terminators ([\s] restricted to ASCII). *)
Definition is_space (c : ascii) : bool :=
  let n := nat_of_ascii c in
  (n =? 32)%nat || ((9 <=? n)%nat && (n <=? 13)%nat).

Fixpoint trimStart (s : string) : string :=
  match s with
  | EmptyString => EmptyString
  | String c s' => if is_space c then trimStart s' else s
  end.

Fixpoint trimEnd (s : string) : string :=
  match s with
  | EmptyString => EmptyString
  | String c s' =>
      match trimEnd s' with
      | EmptyString => if is_space c then EmptyString else String c EmptyString
      | t => String c t
      end
  end.

(** [s.trim()], on ASCII white space. *)
Definition trim (s : string) : string := trimEnd (trimStart s).

(** [s.slice(0, n)]. *)
Fixpoint take (n : nat) (s : string) : string :=
  match n, s with
  | S k, String c s' => String c (take k s')
  | _, _ => EmptyString
  end.

(** [s.replace(/re/g, "")] for a one-character class: drop the bytes in it. *)
Fixpoint remove_chars (drop : ascii -> bool) (s : string) : string :=
  match s with
  | EmptyString => EmptyString
  | String c s' =>
      if drop c then remove_chars drop s' else String c (remove_chars drop s')
  end.

End JS.

(** ** White space of [String.prototype.trim] *)

(** [trim] removes the code points of [WhiteSpace] and [LineTerminator]:
    U+0009 to U+000D, U+0020, U+00A0, U+1680, U+2000 to U+200A, U+2028,
    U+2029, U+202F, U+205F, U+3000 and U+FEFF, here in UTF-8. *)
Module Space.

(** The number of bytes of the white space code point [s] starts with, or
    zero. *)
Definition ws_len (s : string) : nat :=
  match s with
  | EmptyString => 0
  | String c r =>
      let n := nat_of_ascii c in
      if JS.is_space c then 1
      else
        match r with
        | String c2 r2 =>
            let n2 := nat_of_ascii c2 in
            if (n =? 194)%nat then (if (n2 =? 160)%nat then 2 else 0)
            else
              match r2 with
              | String c3 _ =>
                  let n3 := nat_of_ascii c3 in
                  if ((n =? 225)%nat && (n2 =? 154)%nat && (n3 =? 128)%nat)
                     || ((n =? 226)%nat && (n2 =? 128)%nat
                         && (((128 <=? n3)%nat && (n3 <=? 138)%nat)
                             || (n3 =? 168)%nat || (n3 =? 169)%nat
                             || (n3 =? 175)%nat))
                     || ((n =? 226)%nat && (n2 =? 129)%nat && (n3 =? 159)%nat)
                     || ((n =? 227)%nat && (n2 =? 128)%nat && (n3 =? 128)%nat)
                     || ((n =? 239)%nat && (n2 =? 187)%nat && (n3 =? 191)%nat)
                  then 3 else 0
              | EmptyString => 0
              end
        | EmptyString => 0
        end
  end.

(** [skip] counts the bytes still to drop of a code point being removed. *)
Fixpoint trimStart_aux (s : string) (skip : nat) : string :=
  match s with
  | EmptyString => EmptyString
  | String _ s' =>
      match skip with
      | S k => trimStart_aux s' k
      | O =>
          match ws_len s with
          | O => s
          | S k => trimStart_aux s' k
          end
      end
  end.

Definition trimStart (s : string) : string := trimStart_aux s 0.

(** Is [s] white space from end to end? *)
Fixpoint all_space_aux (s : string) (skip : nat) : bool :=
  match s with
  | EmptyString => true
  | String _ s' =>
      match skip with
      | S k => all_space_aux s' k
      | O =>
          match ws_len s with
          | O => false
          | S k => all_space_aux s' k
          end
      end
  end.

Definition all_space (s : string) : bool := all_space_aux s 0.

Fixpoint trimEnd (s : string) : string :=
  if all_space s then EmptyString
  else
    match s with
    | EmptyString => EmptyString
    | String c s' => String c (trimEnd s')
    end.

(** [s.trim()]. *)
Definition trim (s : string) : string := trimEnd (trimStart s).

End Space.

(* ------------------------------------------------------------------ *)
(** * Item type mapping *)
(* ------------------------------------------------------------------ *)

(** The own properties of the object literal [ITEM_TYPE_MAP], in source
    order. *)
Definition ITEM_TYPE_MAP : list (string * string) :=
  [ ("article", "journalArticle");
    ("journal", "journalArticle");
    ("book", "book");
    ("chapter", "bookSection");
    ("conference", "conferencePaper");
    ("thesis", "thesis");
    ("report", "report");
    ("webpage", "webpage");
    ("blog", "blogPost");
    ("news", "newspaperArticle");
    ("magazine", "magazineArticle");
    ("document", "document");
    ("legal", "statute");
    ("case", "case");
    ("patent", "patent");
    ("video", "videoRecording");
    ("podcast", "podcast");
    ("presentation", "presentation") ].

(** [getItemTypes]: [Object.keys(ITEM_TYPE_MAP)]. *)
Definition getItemTypes : list string := map fst ITEM_TYPE_MAP.

(** The names every object literal inherits from [Object.prototype]; each
    is bound to a function, or for [__proto__] to the prototype object. *)
Definition OBJECT_PROTOTYPE : list string :=
  [ "constructor"; "__defineGetter__"; "__defineSetter__"; "hasOwnProperty";
    "__lookupGetter__"; "__lookupSetter__"; "isPrototypeOf";
    "propertyIsEnumerable"; "toString"; "valueOf"; "__proto__";
    "toLocaleString" ].

(** What a property read on [ITEM_TYPE_MAP] can give: one of its strings,
    or the member of [Object.prototype] of that name. *)
Inductive propval : Type :=
| Str (s : string)
| Inherited (name : string).

Fixpoint own_property (m : list (string * string)) (k : string) : option string :=
  match m with
  | [] => None
  | (k', v) :: m' => if String.eqb k' k then Some v else own_property m' k
  end.

Definition mem_string (k : string) (l : list string) : bool :=
  existsb (String.eqb k) l.

(** [ITEM_TYPE_MAP[k]]: the own property, else the inherited one, else
    [undefined]. *)
Definition get_property (k : string) : option propval :=
  match own_property ITEM_TYPE_MAP k with
  | Some v => Some (Str v)
  | None => if mem_string k OBJECT_PROTOTYPE then Some (Inherited k) else None
  end.

Definition propval_truthy (v : propval) : bool :=
  match v with
  | Str s => JS.truthy s
  | Inherited _ => true
  end.

(** [resolveItemType]: [ITEM_TYPE_MAP[simple.toLowerCase()] || simple]. *)
Definition resolveItemType (simple : string) : propval :=
  match get_property (JS.toLowerCase simple) with
  | Some v => if propval_truthy v then v else Str simple
  | None => Str simple
  end.

(** A friendly name is a key of the table; a name is known when its lower
    case is a friendly name. *)
Definition friendly (k : string) : Prop := In k getItemTypes.

Definition known (x : string) : Prop := friendly (JS.toLowerCase x).

(* ------------------------------------------------------------------ *)
(** * Exceptions *)
(* ------------------------------------------------------------------ *)

(** What a [catch (err)] clause can be handed.  The handlers of
    [zotero.ts] read [err.message] and nothing else. *)
Inductive exnKind : Type :=
| TypeError                       (* bad URL, property of undefined, ... *)
| URIError                        (* decodeURIComponent *)
| SyntaxError                     (* a body that is not JSON *)
| NetworkError                    (* the request never got an answer *)
| TimeoutError                    (* AbortSignal.timeout fired *)
| ErrorResponse (status : Z).     (* the store answered with this status *)

Record exn : Type := mkExn { exn_kind : exnKind; message : string }.

(* ------------------------------------------------------------------ *)
(** * URL unwrapping *)
(* ------------------------------------------------------------------ *)

Module URI.

Definition hex_val (c : ascii) : option nat :=
  let n := nat_of_ascii c in
  if (48 <=? n)%nat && (n <=? 57)%nat then Some (n - 48)%nat
  else if (65 <=? n)%nat && (n <=? 70)%nat then Some (n - 55)%nat
  else if (97 <=? n)%nat && (n <=? 102)%nat then Some (n - 87)%nat
  else None.

(** The input of [decodeURIComponent] cut into literal bytes and [%XX]
    escapes; [Bad] is a [%] that two hexadecimal digits do not follow. *)
Inductive token : Type :=
| Lit (c : ascii)
| Pct (byte : nat)
| Bad.

Fixpoint tokenize (s : string) (skip : nat) : list token :=
  match s with
  | EmptyString => []
  | String c s' =>
      match skip with
      | S k => tokenize s' k
      | O =>
          if Ascii.eqb c "%" then
            match s' with
            | String h1 (String h2 _) =>
                match hex_val h1, hex_val h2 with
                | Some a, Some b => Pct (16 * a + b) :: tokenize s' 2
                | _, _ => Bad :: tokenize s' 0
                end
            | _ => Bad :: tokenize s' 0
            end
          else Lit c :: tokenize s' 0
      end
  end.

Definition between (lo b hi : nat) : bool := (lo <=? b)%nat && (b <=? hi)%nat.

Definition bytes (l : list nat) (rest : string) : string :=
  fold_right (fun b acc => String (ascii_of_nat b) acc) rest l.

(** The [Decode] operation of ECMAScript with an empty reserved set: an
    escape below 0x80 is that byte; an escape from 0x80 on must open a
    well-formed UTF-8 sequence whose other bytes are escapes too (no
    overlong form, no surrogate, nothing above U+10FFFF).  [None] is the
    thrown [URIError]. *)
Fixpoint decode (ts : list token) : option string :=
  match ts with
  | [] => Some EmptyString
  | Lit c :: r => option_map (String c) (decode r)
  | Bad :: _ => None
  | Pct b :: r =>
      if (b <? 128)%nat then option_map (bytes [b]) (decode r)
      else if between 194 b 223 then
        match r with
        | Pct b2 :: r2 =>
            if between 128 b2 191 then option_map (bytes [b; b2]) (decode r2)
            else None
        | _ => None
        end
      else if between 224 b 239 then
        match r with
        | Pct b2 :: Pct b3 :: r3 =>
            if between (if (b =? 224)%nat then 160 else 128) b2
                       (if (b =? 237)%nat then 159 else 191)
               && between 128 b3 191
            then option_map (bytes [b; b2; b3]) (decode r3)
            else None
        | _ => None
        end
      else if between 240 b 244 then
        match r with
        | Pct b2 :: Pct b3 :: Pct b4 :: r4 =>
            if between (if (b =? 240)%nat then 144 else 128) b2
                       (if (b =? 244)%nat then 143 else 191)
               && between 128 b3 191 && between 128 b4 191
            then option_map (bytes [b; b2; b3; b4]) (decode r4)
            else None
        | _ => None
        end
      else None
  end.

Definition URI_malformed : exn := mkExn URIError "URI malformed".

(** [decodeURIComponent]. *)
Definition decodeURIComponent (s : string) : exn + string :=
  match decode (tokenize s 0) with
  | Some r => inr r
  | None => inl URI_malformed
  end.

End URI.

(** A parsed URL, as far as [unwrapUrl] reads it: [parsed.pathname] and the
    name/value pairs of [parsed.searchParams], already form-decoded by the
    parser. *)
Record URL : Type := mkURL {
  pathname : string;
  searchParams : list (string * string)
}.

(** [searchParams.get(name)]: the first value under that name. *)
Fixpoint searchParams_get (ps : list (string * string)) (name : string)
  : option string :=
  match ps with
  | [] => None
  | (k, v) :: ps' => if String.eqb k name then Some v else searchParams_get ps' name
  end.

Module Wrapper.

(** Case folding of a regular expression with the [i] flag and no [u]
    flag: ASCII letters only. *)
Fixpoint fold_case (s : string) : string :=
  match s with
  | EmptyString => EmptyString
  | String c s' => String (JS.lower_ascii c) (fold_case s')
  end.

(** Does a line terminator (LF, CR, U+2028, U+2029) start here? *)
Definition line_terminator (s : string) : bool :=
  match s with
  | String c s1 =>
      let n := nat_of_ascii c in
      (n =? 10)%nat || (n =? 13)%nat ||
      match s1 with
      | String c2 (String c3 _) =>
          (n =? 226)%nat && (nat_of_ascii c2 =? 128)%nat
          && ((nat_of_ascii c3 =? 168)%nat || (nat_of_ascii c3 =? 169)%nat)
      | _ => false
      end
  | EmptyString => false
  end.

(** The longest prefix [.*] can match. *)
Fixpoint dot_run (s : string) : string :=
  match s with
  | EmptyString => EmptyString
  | String c s' => if line_terminator s then EmptyString else String c (dot_run s')
  end.

Fixpoint drop (n : nat) (s : string) : string :=
  match n, s with
  | S k, String _ s' => drop k s'
  | _, _ => s
  end.

(** [/a.*b/] for literal [a] and [b]. *)
Fixpoint then_later (a b s : string) : bool :=
  match s with
  | EmptyString => false
  | String _ s' =>
      (String.prefix a s && JS.includes (dot_run (drop (String.length a) s)) b)
      || then_later a b s'
  end.

(** [WRAPPER_PATTERNS.test(path)]:
    [/pdfrenderer|pdf\.svc|htmltopdf|html2pdf|render.*pdf|pdf.*render|webshot|screenshot|snapshot|proxy\.php|fetch\.php/i]. *)
Definition WRAPPER_PATTERNS_test (path : string) : bool :=
  let p := fold_case path in
  JS.includes p "pdfrenderer" || JS.includes p "pdf.svc"
  || JS.includes p "htmltopdf" || JS.includes p "html2pdf"
  || then_later "render" "pdf" p || then_later "pdf" "render" p
  || JS.includes p "webshot" || JS.includes p "screenshot"
  || JS.includes p "snapshot" || JS.includes p "proxy.php"
  || JS.includes p "fetch.php".

End Wrapper.

Definition URL_PARAM_NAMES : list string :=
  ["url"; "source"; "target"; "uri"; "link"; "src"].

(** [path.replace(/^\/|\/$/g, "")]: one leading slash goes, then one
    trailing slash of what is left. *)
Definition strip_trailing_slash (s : string) : string :=
  if JS.endsWith s "/" then JS.take (String.length s - 1) s else s.

Definition strip_slashes (path : string) : string :=
  match path with
  | String "/" rest => strip_trailing_slash rest
  | _ => strip_trailing_slash path
  end.

(** [parsed.pathname.replace(/^\/|\/$/g, "").split("/")]. *)
Definition segments (path : string) : list string :=
  JS.split (strip_slashes path) "/".

Definition is_http (decoded : string) : bool :=
  JS.startsWith decoded "http://" || JS.startsWith decoded "https://".

Section Unwrap.

(** [new URL(raw)] of the platform; [None] when it throws. *)
Variable new_URL : string -> option URL.

(** The [for (const param of URL_PARAM_NAMES)] loop of [unwrapUrl]. *)
Fixpoint unwrap_scan (raw : string) (parsed : URL) (isWrapper : bool)
         (params : list string) : exn + string :=
  match params with
  | [] => inr raw
  | param :: rest =>
      match searchParams_get (searchParams parsed) param with
      | None => unwrap_scan raw parsed isWrapper rest
      | Some candidate =>
          if negb (JS.truthy candidate) then unwrap_scan raw parsed isWrapper rest
          else
            match URI.decodeURIComponent candidate with
            | inl e => inl e
            | inr decoded =>
                if is_http decoded then
                  if isWrapper then inr decoded
                  else if (2 <=? List.length (segments (pathname parsed)))%nat
                       then inr decoded
                       else unwrap_scan raw parsed isWrapper rest
                else unwrap_scan raw parsed isWrapper rest
            end
      end
  end.

(** [unwrapUrl]. *)
Definition unwrapUrl (raw : string) : exn + string :=
  match new_URL raw with
  | None => inr raw
  | Some parsed =>
      unwrap_scan raw parsed
                  (Wrapper.WRAPPER_PATTERNS_test (pathname parsed))
                  URL_PARAM_NAMES
  end.

End Unwrap.

(* ------------------------------------------------------------------ *)
(** * The platform's URL parser on plain http(s) URLs *)
(* ------------------------------------------------------------------ *)

(** [unwrapUrl] is stated for every parser.  To run it, [PlainURL.parse]
    gives what [new URL] gives on the URLs it accepts:
    [http://] or [https://], a host of lower-case letters and dots, a path
    of letters, digits and [/ _ ~ . -] without [.] or [..] segments, and an
    optional query of letters, digits and [% = & . _ ~ : / + -] whose
    escapes stay inside ASCII.  On these the parser normalises nothing, so
    the path is read off as it stands and the query is form-decoded.  Every
    other string is outside the table ([None]), addresses that [new URL]
    accepts among them (a port, an upper-case host, a fragment): the table
    stands for [new URL] on the closed instances below, which are all
    inside it, and nowhere else. *)
Module PlainURL.

Fixpoint all_chars (p : ascii -> bool) (s : string) : bool :=
  match s with
  | EmptyString => true
  | String c s' => p c && all_chars p s'
  end.

(** The prefix before the first byte satisfying [stop], and the rest. *)
Fixpoint span (stop : ascii -> bool) (s : string) : string * string :=
  match s with
  | EmptyString => (EmptyString, EmptyString)
  | String c s' =>
      if stop c then (EmptyString, s)
      else let (a, b) := span stop s' in (String c a, b)
  end.

Definition is_lower (c : ascii) : bool :=
  let n := nat_of_ascii c in (97 <=? n)%nat && (n <=? 122)%nat.

Definition is_digit (c : ascii) : bool :=
  let n := nat_of_ascii c in (48 <=? n)%nat && (n <=? 57)%nat.

Definition is_alnum (c : ascii) : bool :=
  is_lower c || JS.is_upper c || is_digit c.

Definition one_of (set : string) (c : ascii) : bool :=
  JS.includes set (String c EmptyString).

Definition valid_host (h : string) : bool :=
  forallb (fun label => JS.truthy label && all_chars is_lower label)
          (JS.split h ".").

Definition valid_path (p : string) : bool :=
  all_chars (fun c => is_alnum c || one_of "/_~.-" c) p
  && forallb (fun seg => negb (String.eqb seg "." || String.eqb seg ".."))
             (JS.split p "/").

Definition valid_query (q : string) : bool :=
  all_chars (fun c => is_alnum c || one_of "%=&._~:/+-" c) q.

Definition plus_to_space (s : string) : string :=
  (fix go s := match s with
               | EmptyString => EmptyString
               | String c s' => String (if Ascii.eqb c "+" then " "%char else c) (go s')
               end) s.

(** Percent-decoding of the URL standard: an escape that is not two
    hexadecimal digits stays a literal [%]. *)
Fixpoint percent_decode (ts : list URI.token) : string :=
  match ts with
  | [] => EmptyString
  | URI.Lit c :: r => String c (percent_decode r)
  | URI.Pct b :: r => String (ascii_of_nat b) (percent_decode r)
  | URI.Bad :: r => String "%" (percent_decode r)
  end.

Definition form_decode (s : string) : string :=
  percent_decode (URI.tokenize (plus_to_space s) 0).

Definition is_ascii_string (s : string) : bool :=
  all_chars (fun c => (nat_of_ascii c <? 128)%nat) s.

(** [application/x-www-form-urlencoded] parsing of the query. *)
Definition form_pair (piece : string) : string * string :=
  let (name, rest) := span (fun c => Ascii.eqb c "=") piece in
  (form_decode name,
   form_decode (match rest with String _ v => v | EmptyString => EmptyString end)).

Definition form_parse (q : string) : list (string * string) :=
  map form_pair (filter JS.truthy (JS.split q "&")).

Definition after_scheme (raw : string) : option string :=
  if String.prefix "http://" raw then Some (Wrapper.drop 7 raw)
  else if String.prefix "https://" raw then Some (Wrapper.drop 8 raw)
  else None.

Definition parse (raw : string) : option URL :=
  match after_scheme raw with
  | None => None
  | Some rest =>
      let (host, tail) :=
        span (fun c => Ascii.eqb c "/" || Ascii.eqb c "?") rest in
      let (path, q) := span (fun c => Ascii.eqb c "?") tail in
      let query := match q with String _ q' => q' | EmptyString => EmptyString end in
      let params := form_parse query in
      if valid_host host && valid_path path && valid_query query
         && forallb (fun kv => is_ascii_string (fst kv) && is_ascii_string (snd kv))
                    params
      then Some (mkURL (if JS.truthy path then path else "/") params)
      else None
  end.

End PlainURL.

(* ------------------------------------------------------------------ *)
(** * What the store sends and receives *)
(* ------------------------------------------------------------------ *)

(** An entry of an item's [tags] array as the store returns it: an object
    [{tag, type?}], or a bare string. *)
Inductive storeTag : Type :=
| TagObj (tag : string) (type : option Z)
| TagStr (s : string).

(** The value of [t.tag || t]: the tag's name, or the entry itself when
    its [tag] is empty. *)
Inductive tagVal : Type :=
| TVName (s : string)
| TVEntry (t : storeTag).

Record creator : Type := mkCreator {
  c_name : option string;
  c_firstName : option string;
  c_lastName : option string
}.

(** The properties of an item's [data] object that [zotero.ts] reads. *)
Record itemData : Type := mkData {
  d_key : option string;
  d_itemType : option string;
  d_title : option string;
  d_creators : option (list creator);
  d_date : option string;
  d_tags : option (list storeTag);
  d_url : option string;
  d_contentType : option string;
  d_filename : option string;
  d_collections : option (list string);
  d_dateModified : option string
}.

(** An element of [response.raw]: its own properties ([r_top], among them
    [key]), [version] and the nested [data] object. *)
Record rawItem : Type := mkRaw {
  r_top : itemData;
  r_version : option Z;
  r_data : option itemData
}.

(** [raw.key]. *)
Definition r_key (r : rawItem) : option string := d_key (r_top r).

(** [raw.data?.f]. *)
Definition data_field {A} (f : itemData -> option A) (r : rawItem) : option A :=
  match r_data r with
  | Some d => f d
  | None => None
  end.

(** [raw.data || raw]: an object is truthy, so [data] wins when present. *)
Definition data_or_self (r : rawItem) : itemData :=
  match r_data r with
  | Some d => d
  | None => r_top r
  end.

(** A read of several items: [response.raw] and the [Total-Results]
    header. *)
Record multiResp : Type := mkMulti {
  m_raw : option (list rawItem);
  m_total_results : option string
}.

(** The fulltext record of the store. *)
Record ftData : Type := mkFt {
  content : option string;
  indexedPages : option Z;
  totalPages : option Z;
  indexedChars : option Z;
  totalChars : option Z
}.

(** The answer to a direct [fetch] of [.../fulltext]: its status and what
    [resp.json()] gives. *)
Record ftHttp : Type := mkFtHttp {
  ft_status : Z;
  ft_json : exn + ftData
}.

(** [response.ok]: a status from 200 to 299. *)
Definition http_ok (status : Z) : bool := ((200 <=? status) && (status <=? 299))%Z.

(** The answer to a [fetch] of a page or file. *)
Record httpResponse : Type := mkHttp {
  h_status : Z;
  h_statusText : string;
  h_content_type : option string;
  h_content_disposition : option string;
  h_url : string;
  h_redirected : bool;
  h_body : exn + string            (* arrayBuffer() or text() *)
}.

(** A write of items: [getEntityByIndex(0)] (which may throw, or give
    nothing) and the serialised [raw]. *)
Record postResp : Type := mkPost {
  entity0 : exn + option string;   (* the key of the created item *)
  post_json : string
}.

(** What the upload of a file returns, as [attachPdfFromUrl] and
    [attachSnapshot] read it. *)
Record uploadResp : Type := mkUpload {
  up_response : option (option Z * option bool);   (* .response: status, ok *)
  up_status : option Z;
  up_ok : option bool;
  up_json : string                                 (* the serialised body *)
}.

Record rawCollection : Type := mkColl {
  coll_key : option string;
  coll_data : option (option string * option string)   (* name, parentCollection *)
}.

Record rawTagCount : Type := mkTagCount {
  tc_tag : option string;
  tc_numItems : option Z               (* meta?.numItems *)
}.

(** A new creator of [createItem]. *)
Inductive newCreator : Type :=
| Person (firstName lastName : string)
| Organization (name : string).

(** A value held by an item template. *)
Inductive tval : Type :=
| TString (s : string)
| TCreators (l : list newCreator)
| TTags (l : list string)
| TCollections (l : list string)
| TOther.

Definition template : Type := list (string * tval).

(** [k in template]. *)
Definition has (t : template) (k : string) : bool :=
  existsb (fun kv => String.eqb (fst kv) k) t.

(** [template[k] = v]. *)
Fixpoint set (t : template) (k : string) (v : tval) : template :=
  match t with
  | [] => [(k, v)]
  | (k', v') :: t' => if String.eqb k' k then (k, v) :: t' else (k', v') :: set t' k v
  end.

(** The metadata record of an attachment. *)
Record attachmentTemplate : Type := mkAttachment {
  at_parentItem : string;
  at_title : string;
  at_contentType : string;
  at_filename : string
}.

Inductive postBody : Type :=
| NewItem (t : template)
| NewAttachment (a : attachmentTemplate).

(** The fields an update sets. *)
Record patchData : Type := mkPatch {
  p_title : option string;
  p_abstractNote : option string;
  p_date : option string;
  p_extra : option string;
  p_tags : option (list tagVal);          (* each sent as [{tag: v}] *)
  p_collections : option (list string)
}.

(** What a PATCH is sent with.  The client's [patch] takes the body
    first and request options second.  The packaged copy calls
    [.version(v).patch(p)]: the body is the changed fields.  The
    worker's copy calls [.patch(version, data)]: the body is the version
    it read, and the item's [data] with the changed fields written over
    it is handed over as the options. *)
Inductive patchBody : Type :=
| Partial (p : patchData)
| VersionAsBody (version : option Z) (base : option itemData) (p : patchData).

(** The query of a listing. *)
Record listParams : Type := mkList {
  q_sort : option string;
  q_direction : option string;
  q_limit : option Z;
  q_start : option Z;
  q_q : option string;
  q_qmode : option string;
  q_tag : option string;
  q_itemType : option propval
}.

(** Every request [zotero.ts] sends. *)
Inductive request : Type :=
| GetTemplate (itemType : propval)
| GetItem (key : string)
| GetChildren (key : string)
| FetchFulltext (key : option string)    (* fetch(".../items/key/fulltext") *)
| PostItems (body : postBody)
| UploadFile (key filename contentType body : string)
| PatchItem (key : string) (version : option Z) (body : patchBody)
                                        (* version: If-Unmodified-Since-Version *)
| Fetch (url : string)
| GetTopItems (collection : option string) (params : listParams)
| GetCollections
| GetTags (limit start : Z).

(** The store and the web as [zotero.ts] meets them: the answer to each
    request, which may depend on every request sent before it. *)
Record remote : Type := mkRemote {
  template_get : list request -> propval -> exn + template;
  item_get : list request -> string -> exn + option rawItem;
  children_get : list request -> string -> exn + multiResp;
  fulltext_fetch : list request -> option string -> exn + ftHttp;
  items_post : list request -> postBody -> exn + postResp;
  file_post : list request -> string -> string -> exn + option uploadResp;
  item_patch : list request -> string -> option Z -> patchBody -> exn + unit;
  fetch : list request -> string -> exn + httpResponse;
  top_items_get : list request -> option string -> listParams -> exn + multiResp;
  collections_get : list request -> exn + option (list rawCollection);
  tags_get : list request -> Z -> Z -> exn + option (list rawTagCount)
}.

(* ------------------------------------------------------------------ *)
(** * Remote calls *)
(* ------------------------------------------------------------------ *)

(** An [async] function: from the requests sent so far to its outcome (a
    thrown exception or a value) and the requests sent by its end. *)
Definition M (A : Type) : Type := list request -> (exn + A) * list request.

Definition ret {A} (a : A) : M A := fun h => (inr a, h).

Definition throw {A} (e : exn) : M A := fun h => (inl e, h).

Definition bind {A B} (m : M A) (k : A -> M B) : M B :=
  fun h =>
    match m h with
    | (inl e, h') => (inl e, h')
    | (inr a, h') => k a h'
    end.

(** [try { m } catch (err) { handler err }]. *)
Definition try_catch {A} (m : M A) (handler : exn -> M A) : M A :=
  fun h =>
    match m h with
    | (inl e, h') => handler e h'
    | (inr a, h') => (inr a, h')
    end.

(** Send [rq] and await the answer. *)
Definition call {A} (rq : request) (answer : list request -> exn + A) : M A :=
  fun h => (answer h, (h ++ [rq])%list).

(** A synchronous computation that may throw. *)
Definition lift {A} (r : exn + A) : M A := fun h => (r, h).

Declare Scope remote_scope.
Delimit Scope remote_scope with remote.
Notation "x <- m ;; k" := (bind m (fun x => k))
  (at level 61, m at next level, right associativity) : remote_scope.
Notation "m ;;; k" := (bind m (fun _ => k))
  (at level 61, right associativity) : remote_scope.

(** The requests an operation sends when it starts from [h]. *)
Definition sent {A} (m : M A) (h : list request) : list request := snd (m h).

Definition outcome {A} (m : M A) (h : list request) : exn + A := fst (m h).

(** Calling what is [undefined]. *)
Definition not_a_function (callee : string) : exn :=
  mkExn TypeError (callee ++ " is not a function").

(** Reading a property of [undefined]. *)
Definition undefined_property (name : string) : exn :=
  mkExn TypeError ("Cannot read properties of undefined (reading '" ++ name ++ "')").

(* ------------------------------------------------------------------ *)
(** * Search and browse *)
(* ------------------------------------------------------------------ *)

Record ItemSummary : Type := mkSummary {
  s_key : option string;
  s_title : string;
  s_itemType : option string;
  s_creators : option string;
  s_date : option string;
  s_tags : list tagVal;
  s_url : option string
}.

(** [t.tag || t]. *)
Definition tag_or_self (t : storeTag) : tagVal :=
  match t with
  | TagObj name _ => if JS.truthy name then TVName name else TVEntry t
  | TagStr s => TVName s
  end.

(** [c.name ? c.name : `${c.firstName || ""} ${c.lastName || ""}`.trim()]. *)
Definition creator_label (c : creator) : string :=
  match JS.or_null (c_name c) with
  | Some n => n
  | None =>
      Space.trim (JS.or_else (c_firstName c) "" ++ " " ++ JS.or_else (c_lastName c) "")
  end.

Definition or_nil {A} (l : option (list A)) : list A :=
  match l with Some l => l | None => [] end.

(** [formatItemSummary]. *)
Definition formatItemSummary (raw : rawItem) : ItemSummary :=
  let d := data_or_self raw in
  let creators :=
    String.concat "; " (filter JS.truthy (map creator_label (or_nil (d_creators d)))) in
  {| s_key := match JS.or_null (r_key raw) with
              | Some k => Some k
              | None => d_key d
              end;
     s_title := JS.or_else (d_title d) "(untitled)";
     s_itemType := d_itemType d;
     s_creators := JS.or_null (Some creators);
     s_date := JS.or_null (d_date d);
     s_tags := map tag_or_self (or_nil (d_tags d));
     s_url := JS.or_null (d_url d) |}.

Definition opt_string_neqb (a : option string) (b : string) : bool :=
  match a with
  | Some s => negb (String.eqb s b)
  | None => true
  end.

(** [r.data?.itemType !== "attachment" && r.data?.itemType !== "note"]. *)
Definition not_child (r : rawItem) : bool :=
  opt_string_neqb (data_field d_itemType r) "attachment"
  && opt_string_neqb (data_field d_itemType r) "note".

(** [(response.raw || []).filter(...).map(formatItemSummary)]. *)
Definition listed (resp : multiResp) : list ItemSummary :=
  map formatItemSummary (filter not_child (or_nil (m_raw resp))).

(** A JavaScript number, as far as the listings need it. *)
Inductive jsnum : Type :=
| Num (z : Z)
| NaN.

Fixpoint digits (s : string) (acc : option Z) : option Z :=
  match s with
  | EmptyString => acc
  | String c s' =>
      if PlainURL.is_digit c
      then digits s' (Some (10 * match acc with Some a => a | None => 0 end
                            + Z.of_nat (nat_of_ascii c - 48))%Z)
      else acc
  end.

(** [parseInt(s, 10)]: leading white space, a sign, the longest run of
    digits.  The value is exact; JavaScript rounds it to a double, which
    differs beyond 2^53. *)
Definition parseInt (s : string) : jsnum :=
  let s1 := JS.trimStart s in
  let (neg, body) :=
    match s1 with
    | String "-" r => (true, r)
    | String "+" r => (false, r)
    | _ => (false, s1)
    end in
  match digits body None with
  | Some z => Num (if neg then - z else z)%Z
  | None => NaN
  end.

Record listing : Type := mkListing {
  items : list ItemSummary;
  totalResults : jsnum;
  l_offset : Z;
  l_limit : Z
}.

(** The result of a read operation: the data, or [{error}]. *)
Inductive read (A : Type) : Type :=
| Got (a : A)
| Failed (error : string).
Arguments Got {A} a.
Arguments Failed {A} error.

Definition default {A} (a : option A) (d : A) : A :=
  match a with Some x => x | None => d end.

(** [totalResults ? parseInt(totalResults, 10) : items.length], with
    [totalResults = header || null]. *)
Definition total_of (resp : multiResp) (its : list ItemSummary) : jsnum :=
  match JS.or_null (m_total_results resp) with
  | Some t => parseInt t
  | None => Num (Z.of_nat (List.length its))
  end.

Record SearchParams : Type := mkSearch {
  sp_query : option string;
  sp_qmode : option string;
  sp_tag : option (string + list string);
  sp_itemType : option string;
  sp_collectionId : option string;
  sp_sort : option string;
  sp_direction : option string;
  sp_limit : option Z;
  sp_offset : option Z
}.

Record PageParams : Type := mkPage {
  pg_sort : option string;
  pg_direction : option string;
  pg_limit : option Z;
  pg_offset : option Z
}.

Section Listings.

Variable R : remote.

Local Open Scope remote_scope.

(** [if (tag) reqParams.tag = Array.isArray(tag) ? tag.join(" || ") : tag]. *)
Definition tag_param (tag : option (string + list string)) : option string :=
  match tag with
  | Some (inl s) => JS.or_null (Some s)
  | Some (inr l) => Some (String.concat " || " l)
  | None => None
  end.

(** [searchItems]; [with_qmode] tells the packaged copy, which also sends
    [qmode] (default ["titleCreatorYear"]) with a query, from the worker
    copy, which does not. *)
Definition searchItems_gen (with_qmode : bool) (params : SearchParams)
  : M (read listing) :=
  let sort := default (sp_sort params) "dateModified" in
  let direction := default (sp_direction params) "desc" in
  let limit := default (sp_limit params) 25%Z in
  let offset := default (sp_offset params) 0%Z in
  let query := JS.or_null (sp_query params) in
  let reqParams :=
    {| q_sort := Some sort; q_direction := Some direction;
       q_limit := Some limit; q_start := Some offset;
       q_q := query;
       q_qmode := match query with
                  | Some _ =>
                      if with_qmode
                      then Some (default (sp_qmode params) "titleCreatorYear")
                      else None
                  | None => None
                  end;
       q_tag := tag_param (sp_tag params);
       q_itemType := option_map resolveItemType (JS.or_null (sp_itemType params)) |} in
  try_catch
    (response <- call (GetTopItems (JS.or_null (sp_collectionId params)) reqParams)
                      (fun h => top_items_get R h (JS.or_null (sp_collectionId params)) reqParams) ;;
     let its := listed response in
     ret (Got {| items := its; totalResults := total_of response its;
                 l_offset := offset; l_limit := limit |}))
    (fun err => ret (Failed (message err))).

(** [getCollectionItems]. *)
Definition getCollectionItems (collectionId : string) (params : PageParams)
  : M (read listing) :=
  let sort := default (pg_sort params) "dateModified" in
  let direction := default (pg_direction params) "desc" in
  let limit := default (pg_limit params) 25%Z in
  let offset := default (pg_offset params) 0%Z in
  let reqParams :=
    {| q_sort := Some sort; q_direction := Some direction;
       q_limit := Some limit; q_start := Some offset;
       q_q := None; q_qmode := None; q_tag := None; q_itemType := None |} in
  try_catch
    (response <- call (GetTopItems (Some collectionId) reqParams)
                      (fun h => top_items_get R h (Some collectionId) reqParams) ;;
     let its := listed response in
     ret (Got {| items := its; totalResults := total_of response its;
                 l_offset := offset; l_limit := limit |}))
    (fun err => ret (Failed (message err))).

(** [getRecentItems]. *)
Definition getRecentItems (limit : option Z) (sort : option string)
  : M (read (list ItemSummary)) :=
  let reqParams :=
    {| q_sort := Some (default sort "dateAdded"); q_direction := Some "desc";
       q_limit := Some (default limit 10%Z); q_start := None;
       q_q := None; q_qmode := None; q_tag := None; q_itemType := None |} in
  try_catch
    (response <- call (GetTopItems None reqParams)
                      (fun h => top_items_get R h None reqParams) ;;
     ret (Got (listed response)))
    (fun err => ret (Failed (message err))).

End Listings.


(* ------------------------------------------------------------------ *)
(** * Attachments *)
(* ------------------------------------------------------------------ *)

(** The object [attachPdfFromUrl] and [attachSnapshot] return. *)
Record attachResult : Type := mkAttach {
  a_success : bool;
  a_error : option string;
  a_attachment_key : option string;
  a_filename : option string;
  a_title : option string;
  a_size_bytes : option nat
}.

Definition attach_failed (error : string) (key : option string) : attachResult :=
  {| a_success := false; a_error := Some error; a_attachment_key := key;
     a_filename := None; a_title := None; a_size_bytes := None |}.

(** [`${z}`] for an integer. *)
Definition string_of_Z (z : Z) : string := NilZero.string_of_int (Z.to_int z).

(** [`${n}`] for a number that may be [undefined]. *)
Definition show_status (s : option Z) : string :=
  match s with
  | Some z => string_of_Z z
  | None => "undefined"
  end.

Definition dquote : string := String (ascii_of_nat 34) EmptyString.

(** [uploadResp?.response?.status || uploadResp?.status]: zero is falsy. *)
Definition uploadStatus (u : option uploadResp) : option Z :=
  match u with
  | None => None
  | Some u =>
      match up_response u with
      | Some (Some st, _) => if (st =? 0)%Z then up_status u else Some st
      | _ => up_status u
      end
  end.

(** [uploadResp?.response?.ok ?? uploadResp?.ok]. *)
Definition uploadOk (u : option uploadResp) : option bool :=
  match u with
  | None => None
  | Some u =>
      match up_response u with
      | Some (_, Some ok) => Some ok
      | _ => up_ok u
      end
  end.

(** [JSON.stringify(uploadResp?.raw || uploadResp?.getData?.() || "unknown")]. *)
Definition uploadBody (u : option uploadResp) : string :=
  match u with
  | Some u => up_json u
  | None => dquote ++ "unknown" ++ dquote
  end.

Definition is_quote (c : ascii) : bool :=
  (nat_of_ascii c =? 39)%nat || (nat_of_ascii c =? 34)%nat.

(** The file name of a downloaded PDF when the caller gave none. *)
Definition derived_pdf_name (cd : option string) (pdfUrl : string) : string :=
  let cd := JS.or_else cd "" in
  if JS.includes cd "filename="
  then JS.trim (JS.remove_chars is_quote (JS.pop (JS.split cd "filename=")))
  else
    let name := hd EmptyString (JS.split (JS.pop (JS.split pdfUrl "/")) "?") in
    if JS.endsWith name ".pdf" then name else "attachment.pdf".

Fixpoint find (pat s : string) : option nat :=
  match s with
  | EmptyString => if String.prefix pat EmptyString then Some 0 else None
  | String _ s' => if String.prefix pat s then Some 0 else option_map S (find pat s')
  end.

(** The group of [html.match(/<title[^>]*>([\s\S]*?)<\/title>/i)]: after
    the first [<title], past the next [>], up to the next [</title>]. *)
Definition match_title (html : string) : option string :=
  match find "<title" (Wrapper.fold_case html) with
  | None => None
  | Some i =>
      let after := Wrapper.drop (i + 6) html in
      match find ">" after with
      | None => None
      | Some j =>
          let body := Wrapper.drop (j + 1) after in
          match find "</title>" (Wrapper.fold_case body) with
          | None => None
          | Some k => Some (JS.take k body)
          end
      end
  end.

(** The class [[^\w\s\-.]], on bytes: everything but letters, digits,
    [_], ASCII white space, [-] and [.]. *)
Definition unsafe_char (c : ascii) : bool :=
  negb (PlainURL.is_alnum c || PlainURL.one_of "_-." c || JS.is_space c).

(** [title.replace(/[^\w\s\-.]/g, "").slice(0, 80).trim() || "snapshot"]. *)
Definition safeName (title : string) : string :=
  JS.or_else (Some (JS.trim (JS.take 80 (JS.remove_chars unsafe_char title))))
             "snapshot".

Section Attachments.

Variable new_URL : string -> option URL.
Variable R : remote.

Local Open Scope remote_scope.

(** The two phases both attachment operations end with: create the
    attachment item, then upload the file under its key. *)
Definition register_and_upload (a : attachmentTemplate) (buffer : string)
           (done : string -> attachResult) : M attachResult :=
  createResp <- call (PostItems (NewAttachment a))
                     (fun h => items_post R h (NewAttachment a)) ;;
  attachmentItem <- lift (entity0 createResp) ;;
  match attachmentItem with
  | None =>
      ret (attach_failed
             ("Failed to create attachment item. API response: " ++ post_json createResp)
             None)
  | Some key =>
      uploadResp <- call (UploadFile key (at_filename a) (at_contentType a) buffer)
                         (fun h => file_post R h key (at_filename a)) ;;
      match uploadOk uploadResp with
      | Some false =>
          ret (attach_failed
                 ("Attachment item created (" ++ key
                  ++ ") but file upload failed. Status: "
                  ++ show_status (uploadStatus uploadResp)
                  ++ ". Response: " ++ uploadBody uploadResp)
                 (Some key))
      | _ => ret (done key)
      end
  end.

(** [attachPdfFromUrl]. *)
Definition attachPdfFromUrl (parentItemKey pdfUrl : string)
           (filename : option string) : M attachResult :=
  pdfUrl <- lift (unwrapUrl new_URL pdfUrl) ;;
  try_catch
    (response <- call (Fetch pdfUrl) (fun h => fetch R h pdfUrl) ;;
     if negb (http_ok (h_status response)) then
       ret (attach_failed
              ("Failed to download PDF: HTTP " ++ string_of_Z (h_status response)
               ++ " " ++ h_statusText response)
              None)
     else
       buffer <- lift (h_body response) ;;
       if (String.length buffer =? 0)%nat then
         ret (attach_failed "Downloaded PDF is empty (0 bytes)" None)
       else
         let filename :=
           match JS.or_null filename with
           | Some f => f
           | None => derived_pdf_name (h_content_disposition response) pdfUrl
           end in
         register_and_upload
           {| at_parentItem := parentItemKey; at_title := filename;
              at_contentType := "application/pdf"; at_filename := filename |}
           buffer
           (fun key =>
              {| a_success := true; a_error := None;
                 a_attachment_key := Some key; a_filename := Some filename;
                 a_title := None; a_size_bytes := Some (String.length buffer) |}))
    (fun err => ret (attach_failed ("Failed to attach PDF: " ++ message err) None)).

(** [attachSnapshot]. *)
Definition attachSnapshot (parentItemKey url : string) (title : option string)
  : M attachResult :=
  url <- lift (unwrapUrl new_URL url) ;;
  try_catch
    (response <- call (Fetch url) (fun h => fetch R h url) ;;
     if negb (http_ok (h_status response)) then
       ret (attach_failed
              ("Failed to fetch page: HTTP " ++ string_of_Z (h_status response)
               ++ " " ++ h_statusText response)
              None)
     else
       html <- lift (h_body response) ;;
       if negb (JS.truthy html) then
         ret (attach_failed "Fetched page is empty (0 bytes)" None)
       else
         let title :=
           match JS.or_null title with
           | Some t => t
           | None =>
               match match_title html with
               | Some t => JS.trim t
               | None => url
               end
           end in
         let filename := safeName title ++ ".html" in
         register_and_upload
           {| at_parentItem := parentItemKey; at_title := title;
              at_contentType := "text/html"; at_filename := filename |}
           html
           (fun key =>
              {| a_success := true; a_error := None;
                 a_attachment_key := Some key; a_filename := Some filename;
                 a_title := Some title; a_size_bytes := Some (String.length html) |}))
    (fun err => ret (attach_failed ("Failed to attach snapshot: " ++ message err) None)).

End Attachments.

(* ------------------------------------------------------------------ *)
(** * Create item *)
(* ------------------------------------------------------------------ *)

Record CreateItemParams : Type := mkCreate {
  cp_title : string;
  cp_itemType : option string;
  cp_authors : option (list string);
  cp_date : option string;
  cp_url : option string;
  cp_abstract : option string;
  cp_publication : option string;
  cp_volume : option string;
  cp_issue : option string;
  cp_pages : option string;
  cp_doi : option string;
  cp_tags : option (list string);
  cp_collectionId : option string;
  cp_pdfUrl : option string;
  cp_snapshotUrl : option string;
  cp_extra : option string
}.

(** The object [createItem] returns. *)
Record createResult : Type := mkCreated {
  success : bool;
  cr_item_key : option string;
  cr_message : option string;
  cr_error : option string;
  pdf_attachment : option attachResult;
  snapshot_attachment : option attachResult
}.

Definition create_failed (error : string) : createResult :=
  {| success := false; cr_item_key := None; cr_message := None;
     cr_error := Some error; pdf_attachment := None; snapshot_attachment := None |}.

(** [`${v}`] for what [resolveItemType] returned. *)
Definition show_propval (v : propval) : string :=
  match v with
  | Str s => s
  | Inherited name =>
      if String.eqb name "__proto__" then "[object Object]"
      else if String.eqb name "constructor" then "function Object() { [native code] }"
      else "function " ++ name ++ "() { [native code] }"
  end.

(** [s.split(/\s+/)]. *)
Fixpoint split_ws (s : string) (cur : string) : list string :=
  match s with
  | EmptyString => [cur]
  | String c s' =>
      if JS.is_space c then
        match s' with
        | String c2 _ => if JS.is_space c2 then split_ws s' cur else cur :: split_ws s' EmptyString
        | EmptyString => [cur; EmptyString]
        end
      else split_ws s' (cur ++ String c EmptyString)
  end.

(** One author name: two words or more are first names and a last name,
    anything else is a single-field name. *)
Definition author (name : string) : newCreator :=
  let parts := split_ws (JS.trim name) EmptyString in
  if (2 <=? List.length parts)%nat
  then Person (String.concat " " (removelast parts)) (last parts EmptyString)
  else Organization name.

(** [if (v && k in template) template[k] = v]. *)
Definition set_if_declared (t : template) (k : string) (v : option string) : template :=
  match JS.or_null v with
  | Some s => if has t k then set t k (TString s) else t
  | None => t
  end.

(** The "Fill template" block of [createItem]. *)
Definition fill (t : template) (p : CreateItemParams) : template :=
  let t := set t "title" (TString (cp_title p)) in
  let t := match JS.or_null (cp_date p) with
           | Some d => set t "date" (TString d)
           | None => t
           end in
  let t := set_if_declared t "url" (cp_url p) in
  let t := set_if_declared t "abstractNote" (cp_abstract p) in
  let t := set_if_declared t "extra" (cp_extra p) in
  let t := match JS.or_null (cp_publication p) with
           | Some pub =>
               if has t "publicationTitle" then set t "publicationTitle" (TString pub)
               else if has t "blogTitle" then set t "blogTitle" (TString pub)
               else if has t "websiteTitle" then set t "websiteTitle" (TString pub)
               else t
           | None => t
           end in
  let t := set_if_declared t "volume" (cp_volume p) in
  let t := set_if_declared t "issue" (cp_issue p) in
  let t := set_if_declared t "pages" (cp_pages p) in
  let t := set_if_declared t "DOI" (cp_doi p) in
  let authors := or_nil (cp_authors p) in
  let t := if (0 <? List.length authors)%nat && has t "creators"
           then set t "creators" (TCreators (map author authors))
           else t in
  let tags := or_nil (cp_tags p) in
  let t := if (0 <? List.length tags)%nat then set t "tags" (TTags tags) else t in
  match JS.or_null (cp_collectionId p) with
  | Some c => set t "collections" (TCollections [c])
  | None => t
  end.

Section Create.

Variable new_URL : string -> option URL.
Variable R : remote.

Local Open Scope remote_scope.

(** [getItemTemplate]. *)
Definition getItemTemplate (itemType : propval) : M template :=
  call (GetTemplate itemType) (fun h => template_get R h itemType).

(** [createItem]. *)
Definition createItem (params : CreateItemParams) : M createResult :=
  let title := cp_title params in
  let zoteroType := resolveItemType (default (cp_itemType params) "webpage") in
  acquired <- try_catch
                (t <- getItemTemplate zoteroType ;; ret (inr t))
                (fun err =>
                   ret (inl (create_failed
                               ("Invalid item type '" ++ show_propval zoteroType
                                ++ "': " ++ message err)))) ;;
  match acquired with
  | inl failure => ret failure
  | inr t =>
      let t := fill t params in
      try_catch
        (response <- call (PostItems (NewItem t)) (fun h => items_post R h (NewItem t)) ;;
         successful <- lift (entity0 response) ;;
         match successful with
         | None =>
             ret (create_failed ("Failed to create item: " ++ post_json response))
         | Some itemKey =>
             let result :=
               {| success := true; cr_item_key := Some itemKey;
                  cr_message := Some ("Created " ++ show_propval zoteroType ++ ": " ++ title);
                  cr_error := None; pdf_attachment := None;
                  snapshot_attachment := None |} in
             match JS.or_null (cp_pdfUrl params) with
             | Some pdfUrl =>
                 att <- attachPdfFromUrl new_URL R itemKey pdfUrl None ;;
                 ret {| success := success result; cr_item_key := cr_item_key result;
                        cr_message := cr_message result; cr_error := cr_error result;
                        pdf_attachment := Some att;
                        snapshot_attachment := snapshot_attachment result |}
             | None =>
                 match JS.or_null (cp_snapshotUrl params) with
                 | Some snapshotUrl =>
                     att <- attachSnapshot new_URL R itemKey snapshotUrl None ;;
                     ret {| success := success result; cr_item_key := cr_item_key result;
                            cr_message := cr_message result; cr_error := cr_error result;
                            pdf_attachment := pdf_attachment result;
                            snapshot_attachment := Some att |}
                 | None => ret result
                 end
             end
         end)
        (fun err => ret (create_failed (message err)))
  end.

End Create.

(* ------------------------------------------------------------------ *)
(** * Collections and tags *)
(* ------------------------------------------------------------------ *)

Record collection : Type := mkCollection {
  col_key : option string;
  col_name : option string;
  col_parent : option string
}.

Record tagPage : Type := mkTagPage {
  tags : list (option string * Z);       (* tag, numItems *)
  tg_offset : Z;
  tg_limit : Z
}.

(** [arr.map(f)] for an [f] that may throw. *)
Fixpoint traverse {A B} (f : A -> exn + B) (l : list A) : exn + list B :=
  match l with
  | [] => inr []
  | a :: l' =>
      match f a with
      | inl e => inl e
      | inr b =>
          match traverse f l' with
          | inl e => inl e
          | inr bs => inr (b :: bs)
          end
      end
  end.

(** [{key: c.key, name: c.data.name, parent: c.data.parentCollection || null}]. *)
Definition collection_of (c : rawCollection) : exn + collection :=
  match coll_data c with
  | None => inl (undefined_property "name")
  | Some (name, parent) =>
      inr {| col_key := coll_key c; col_name := name; col_parent := JS.or_null parent |}
  end.

Section CollectionsAndTags.

Variable R : remote.

Local Open Scope remote_scope.

(** [listCollections]: no [try]; whatever fails is thrown to the caller. *)
Definition listCollections : M (list collection) :=
  raw <- call GetCollections (fun h => collections_get R h) ;;
  match raw with
  | None => throw (undefined_property "map")
  | Some raw => lift (traverse collection_of raw)
  end.

(** [listTags]. *)
Definition listTags (limit offset : option Z) : M (read tagPage) :=
  let limit := default limit 100%Z in
  let offset := default offset 0%Z in
  try_catch
    (raw <- call (GetTags limit offset) (fun h => tags_get R h limit offset) ;;
     ret (Got {| tags := map (fun t =>
                                (tc_tag t,
                                 match tc_numItems t with
                                 | Some n => n
                                 | None => 0%Z
                                 end))
                             (or_nil raw);
                 tg_offset := offset; tg_limit := limit |}))
    (fun err => ret (Failed (message err))).

End CollectionsAndTags.

(* ------------------------------------------------------------------ *)
(** * Update item: what both copies share *)
(* ------------------------------------------------------------------ *)

Record UpdateChanges : Type := mkChanges {
  ch_title : option string;
  ch_abstract : option string;
  ch_date : option string;
  ch_extra : option string;
  ch_tags : option (list string);
  ch_add_tags : option (list string);
  ch_remove_tags : option (list string);
  ch_collections : option (list string);
  ch_add_collections : option (list string);        (* packaged copy only *)
  ch_remove_collections : option (list string)      (* packaged copy only *)
}.

(** The object a write operation returns. *)
Record writeResult : Type := mkWrite {
  w_success : bool;
  w_item_key : option string;
  w_message : option string;
  w_error : option string
}.

(** [(tags || []).map((t) => t.tag || t)]. *)
Definition existingTags (tags : option (list storeTag)) : list tagVal :=
  map tag_or_self (or_nil tags).

(** [updated.includes(t)] for a string [t]. *)
Definition includes_name (updated : list tagVal) (t : string) : bool :=
  existsb (fun v => match v with
                    | TVName s => String.eqb s t
                    | TVEntry _ => false
                    end) updated.

(** [for (const t of add) if (!updated.includes(t)) updated.push(t)]. *)
Fixpoint add_each (updated : list tagVal) (add : list string) : list tagVal :=
  match add with
  | [] => updated
  | t :: add' =>
      add_each (if includes_name updated t then updated
                else (updated ++ [TVName t])%list) add'
  end.

(** [updated.filter((t) => !remove.includes(t))]. *)
Definition remove_each (updated : list tagVal) (remove : list string) : list tagVal :=
  filter (fun v => negb (match v with
                         | TVName s => mem_string s remove
                         | TVEntry _ => false
                         end)) updated.

(** The add and remove steps on the current tags. *)
Definition reconcile_tags (current : list tagVal) (add remove : option (list string))
  : list tagVal :=
  let updated := current in
  let updated := match add with
                 | Some a => add_each updated a
                 | None => updated
                 end in
  match remove with
  | Some r => remove_each updated r
  | None => updated
  end.

(** [changes.add || changes.remove]: an array, even an empty one, is
    truthy. *)
Definition either_given (add remove : option (list string)) : bool :=
  match add, remove with
  | None, None => false
  | _, _ => true
  end.

(** The same steps on collection keys. *)
Fixpoint add_each_key (updated : list string) (add : list string) : list string :=
  match add with
  | [] => updated
  | c :: add' =>
      add_each_key (if mem_string c updated then updated
                    else (updated ++ [c])%list) add'
  end.

Definition reconcile_keys (current : list string) (add remove : option (list string))
  : list string :=
  let updated := match add with
                 | Some a => add_each_key current a
                 | None => current
                 end in
  match remove with
  | Some r => filter (fun c => negb (mem_string c r)) updated
  | None => updated
  end.

Definition updated_ok (itemKey : string) : writeResult :=
  {| w_success := true; w_item_key := Some itemKey;
     w_message := Some ("Item " ++ itemKey ++ " updated"); w_error := None |}.

Definition write_failed (error : string) : writeResult :=
  {| w_success := false; w_item_key := None; w_message := None;
     w_error := Some error |}.
(* ------------------------------------------------------------------ *)
(** * Fulltext resolution *)
(* ------------------------------------------------------------------ *)

Record checked : Type := mkChecked {
  ck_key : option string;
  ck_filename : option string;
  ck_contentType : option string
}.

(** The object [getItemFulltext] returns when it does not fail. *)
Record fulltext : Type := mkFulltext {
  item_key : string;
  attachment_key : option string;
  attachment_filename : option string;
  ft_content : option string;            (* [None] is [content: null] *)
  ft_pages : option Z * option Z;        (* indexedPages, totalPages *)
  ft_chars : option Z * option Z;        (* indexedChars, totalChars *)
  ft_source : option string;
  ft_contentType : option string;
  ft_filename : option string;
  attachments_checked : option (list checked);
  ft_message : option string
}.

(** [ftData?.content], when truthy. *)
Definition found (d : option ftData) : option (ftData * string) :=
  match d with
  | Some d =>
      match JS.or_null (content d) with
      | Some c => Some (d, c)
      | None => None
      end
  | None => None
  end.

(** [c.data?.itemType === "attachment" && c.data?.contentType]. *)
Definition is_attachment (c : rawItem) : bool :=
  match data_field d_itemType c with
  | Some t => String.eqb t "attachment"
  | None => false
  end
  && match JS.or_null (data_field d_contentType c) with
     | Some _ => true
     | None => false
     end.

(** [a.data?.contentType?.includes("pdf")]. *)
Definition is_pdf (a : rawItem) : bool :=
  match data_field d_contentType a with
  | Some ct => JS.includes ct "pdf"
  | None => false
  end.

(** [a.data?.filename || a.data?.title]. *)
Definition att_filename (a : rawItem) : option string :=
  match JS.or_null (data_field d_filename a) with
  | Some f => Some f
  | None => data_field d_title a
  end.

(* ------------------------------------------------------------------ *)
(** * [src/zotero.ts]: the worker copy *)
(* ------------------------------------------------------------------ *)

Module Worker.

Section Fulltext.

Variable R : remote.

Local Open Scope remote_scope.

Definition no_fulltext_message : string :=
  "No full-text content available for this item.".

(** [zot.items(key).fulltext().get()] and [getData?.() || raw].  The
    client has no method [fulltext]: [zot.items(key).fulltext] is
    [undefined], and calling it throws a [TypeError] before any request is
    made. *)
Definition fulltext_of (key : option string) : M (option ftData) :=
  throw (not_a_function "zot.items(...).fulltext").

(** The [for (const att of attachments)] loop; [None] when it runs to
    its end. *)
Fixpoint probe (itemKey : string) (attachments : list rawItem)
  : M (option fulltext) :=
  match attachments with
  | [] => ret None
  | att :: rest =>
      r <- try_catch
             (ftData <- fulltext_of (r_key att) ;;
              ret (option_map
                     (fun dc =>
                        {| item_key := itemKey;
                           attachment_key := r_key att;
                           attachment_filename := None;
                           ft_content := Some (snd dc);
                           ft_pages := (None, None);
                           ft_chars := (None, None);
                           ft_source := Some "child_attachment_fulltext";
                           ft_contentType := None;
                           ft_filename := None;
                           attachments_checked := None;
                           ft_message := None |})
                     (found ftData)))
             (fun _ => ret None) ;;
      match r with
      | Some res => ret (Some res)
      | None => probe itemKey rest
      end
  end.

(** [getItemFulltext]. *)
Definition getItemFulltext (itemKey : string) : M (read fulltext) :=
  try_catch
    (direct <- try_catch
                 (ftData <- fulltext_of (Some itemKey) ;; ret (found ftData))
                 (fun _ => ret None) ;;
     match direct with
     | Some dc =>
         ret (Got {| item_key := itemKey;
                     attachment_key := None;
                     attachment_filename := None;
                     ft_content := Some (snd dc);
                     ft_pages := (None, None);
                     ft_chars := (None, None);
                     ft_source := Some "fulltext_api";
                     ft_contentType := None;
                     ft_filename := None;
                     attachments_checked := None;
                     ft_message := None |})
     | None =>
         childrenResp <- call (GetChildren itemKey)
                              (fun h => children_get R h itemKey) ;;
         let attachments := filter is_attachment (or_nil (m_raw childrenResp)) in
         r <- probe itemKey attachments ;;
         match r with
         | Some res => ret (Got res)
         | None =>
             ret (Got {| item_key := itemKey;
                         attachment_key := None;
                         attachment_filename := None;
                         ft_content := None;
                         ft_pages := (None, None);
                         ft_chars := (None, None);
                         ft_source := None;
                         ft_contentType := None;
                         ft_filename := None;
                         attachments_checked := None;
                         ft_message := Some no_fulltext_message |})
         end
     end)
    (fun err => ret (Failed (message err))).

End Fulltext.


Section Search.

Variable R : remote.

(** [searchItems]. *)
Definition searchItems (params : SearchParams) : M (read listing) :=
  searchItems_gen R false params.

End Search.

Section Update.

Variable R : remote.

Local Open Scope remote_scope.

(** The fields [updateItem] writes over the copy of [raw.data]. *)
Definition changed_fields (data : option itemData) (changes : UpdateChanges)
  : patchData :=
  {| p_title := ch_title changes;
     p_abstractNote := ch_abstract changes;
     p_date := ch_date changes;
     p_extra := ch_extra changes;
     p_tags :=
       match ch_tags changes with
       | Some ts => Some (map TVName ts)
       | None =>
           let existing :=
             existingTags (match data with Some d => d_tags d | None => None end) in
           let updated :=
             reconcile_tags existing (ch_add_tags changes) (ch_remove_tags changes) in
           if either_given (ch_add_tags changes) (ch_remove_tags changes)
           then Some updated
           else None
       end;
     p_collections := ch_collections changes |}.

(** [updateItem].  [zot.items(itemKey).patch(version, data)] hands the
    version to the client as the body of the PATCH and [data] as its
    options: no version precondition is set. *)
Definition updateItem (itemKey : string) (changes : UpdateChanges)
  : M writeResult :=
  try_catch
    (raw <- call (GetItem itemKey) (fun h => item_get R h itemKey) ;;
     match raw with
     | None => throw (undefined_property "version")
     | Some raw =>
         let version := r_version raw in
         let body :=
           VersionAsBody version (r_data raw)
                         (changed_fields (r_data raw) changes) in
         call (PatchItem itemKey None body)
              (fun h => item_patch R h itemKey None body) ;;;
         ret (updated_ok itemKey)
     end)
    (fun err => ret (write_failed (message err))).

End Update.

End Worker.

(* ------------------------------------------------------------------ *)
(** * [packages/mcp/src/zotero.ts]: the packaged copy *)
(* ------------------------------------------------------------------ *)

Module Package.

Section Fulltext.

Variable R : remote.

Local Open Scope remote_scope.

Definition no_attachments_message : string :=
  "This item has no attachments. Full-text is only available for items with PDF or text attachments.".

Definition not_indexed_message : string :=
  "No full-text content available. PDFs must be indexed by Zotero desktop before full-text is accessible via the API. "
  ++ "Try: 1) Open Zotero desktop, 2) Right-click the item → 'Reindex Item', 3) Sync your library, then try again.".

Definition pdf_not_indexed_message : string :=
  "PDF has not been indexed by Zotero. Full-text indexing happens in Zotero desktop and must sync to the cloud. "
  ++ "Try: 1) Open Zotero desktop, 2) Right-click the PDF → 'Reindex Item', 3) Sync your library.".

(** The inner [fetchFulltext]: [null] for a 404, for any other status
    that is not ok, and for whatever is thrown. *)
Definition fetchFulltext (key : option string) : M (option ftData) :=
  try_catch
    (resp <- call (FetchFulltext key) (fun h => fulltext_fetch R h key) ;;
     if (ft_status resp =? 404)%Z then ret None
     else if negb (http_ok (ft_status resp)) then ret None
     else data <- lift (ft_json resp) ;; ret (Some data))
    (fun _ => ret None).

Definition hit (itemKey : string) (att : option rawItem) (source : string)
           (dc : ftData * string) : fulltext :=
  {| item_key := itemKey;
     attachment_key := match att with Some a => r_key a | None => None end;
     attachment_filename := match att with Some a => att_filename a | None => None end;
     ft_content := Some (snd dc);
     ft_pages := (indexedPages (fst dc), totalPages (fst dc));
     ft_chars := (indexedChars (fst dc), totalChars (fst dc));
     ft_source := Some source;
     ft_contentType := None;
     ft_filename := None;
     attachments_checked := None;
     ft_message := None |}.

(** The [for (const att of orderedAttachments)] loop; [None] when it
    runs to its end. *)
Fixpoint probe (itemKey : string) (ordered : list rawItem) : M (option fulltext) :=
  match ordered with
  | [] => ret None
  | att :: rest =>
      ftData <- fetchFulltext (r_key att) ;;
      match found ftData with
      | Some dc => ret (Some (hit itemKey (Some att) "child_attachment_fulltext" dc))
      | None => probe itemKey rest
      end
  end.

(** [[...pdfAttachments, ...otherAttachments]]. *)
Definition orderedAttachments (attachments : list rawItem) : list rawItem :=
  (filter is_pdf attachments ++ filter (fun a => negb (is_pdf a)) attachments)%list.

Definition absent (itemKey : string) (msg : string) : fulltext :=
  {| item_key := itemKey;
     attachment_key := None;
     attachment_filename := None;
     ft_content := None;
     ft_pages := (None, None);
     ft_chars := (None, None);
     ft_source := None;
     ft_contentType := None;
     ft_filename := None;
     attachments_checked := None;
     ft_message := Some msg |}.

(** The result when every attachment has been probed in vain. *)
Definition none_indexed (itemKey : string) (attachments : list rawItem) : fulltext :=
{| item_key := itemKey;
   attachment_key := None;
   attachment_filename := None;
   ft_content := None;
   ft_pages := (None, None);
   ft_chars := (None, None);
   ft_source := None;
   ft_contentType := None;
   ft_filename := None;
   attachments_checked :=
     Some (map (fun a =>
                  {| ck_key := r_key a;
                     ck_filename := att_filename a;
                     ck_contentType := data_field d_contentType a |})
               attachments);
   ft_message := Some not_indexed_message |}.

(** [getItemFulltext]. *)
Definition getItemFulltext (itemKey : string) : M (read fulltext) :=
  try_catch
    (itemResp <- call (GetItem itemKey) (fun h => item_get R h itemKey) ;;
     let itemData := option_map data_or_self itemResp in
     let itemType := match itemData with Some d => d_itemType d | None => None end in
     if match itemType with Some t => String.eqb t "attachment" | None => false end
     then
       let contentType :=
         JS.or_else (match itemData with Some d => d_contentType d | None => None end) "" in
       let filename :=
         JS.or_else (match itemData with Some d => d_filename d | None => None end)
           (JS.or_else (match itemData with Some d => d_title d | None => None end)
                       "unknown") in
       ftData <- fetchFulltext (Some itemKey) ;;
       match found ftData with
       | Some dc => ret (Got (hit itemKey None "fulltext_api" dc))
       | None =>
           ret (Got {| item_key := itemKey;
                       attachment_key := None;
                       attachment_filename := None;
                       ft_content := None;
                       ft_pages := (None, None);
                       ft_chars := (None, None);
                       ft_source := None;
                       ft_contentType := Some contentType;
                       ft_filename := Some filename;
                       attachments_checked := None;
                       ft_message :=
                         Some (if JS.includes contentType "pdf"
                               then pdf_not_indexed_message
                               else "Attachment type '" ++ contentType
                                    ++ "' does not support full-text extraction.") |})
       end
     else
       childrenResp <- call (GetChildren itemKey) (fun h => children_get R h itemKey) ;;
       let attachments := filter is_attachment (or_nil (m_raw childrenResp)) in
       match attachments with
       | [] => ret (Got (absent itemKey no_attachments_message))
       | _ =>
           r <- probe itemKey (orderedAttachments attachments) ;;
           match r with
           | Some res => ret (Got res)
           | None => ret (Got (none_indexed itemKey attachments))
           end
       end)
    (fun err => ret (Failed ("Failed to get fulltext: " ++ message err))).

End Fulltext.

Section Search.

Variable R : remote.

(** [searchItems]. *)
Definition searchItems (params : SearchParams) : M (read listing) :=
  searchItems_gen R true params.

End Search.

(** The object [getLibraryStats] returns when it does not fail. *)
Record stats : Type := mkStats {
  total_items : jsnum;
  total_collections : nat;
  total_tags : nat;
  collections : list (option string * option string);     (* key, name *)
  top_tags : list (option string * Z);
  last_modified_item : option (string * option string)    (* title, date *)
}.

(** [tags.sort((a, b) => b.numItems - a.numItems)]: a stable sort, most
    used first. *)
Fixpoint insert_tag (x : option string * Z) (l : list (option string * Z))
  : list (option string * Z) :=
  match l with
  | [] => [x]
  | y :: l' => if (snd y <=? snd x)%Z then x :: y :: l' else y :: insert_tag x l'
  end.

Definition sort_tags (l : list (option string * Z)) : list (option string * Z) :=
  fold_right insert_tag [] l.

Section Stats.

Variable R : remote.

Local Open Scope remote_scope.

(** One member of a [Promise.all]: it runs to its end whether or not the
    others fail. *)
Definition settled {A} (m : M A) : M (exn + A) :=
  fun h => let (r, h') := m h in (inr r, h').

Definition stats_query : listParams :=
  {| q_sort := Some "dateModified"; q_direction := Some "desc";
     q_limit := Some 1%Z; q_start := None;
     q_q := None; q_qmode := None; q_tag := None; q_itemType := None |}.

(** [getLibraryStats].  The three queries are sent one after the other
    and awaited together; when several are rejected, [Promise.all]
    rejects with the one that fails first in time, taken here to be the
    first in the array. *)
Definition getLibraryStats : M (read stats) :=
  try_catch
    (r1 <- settled (call (GetTopItems None stats_query)
                         (fun h => top_items_get R h None stats_query)) ;;
     r2 <- settled (listCollections R) ;;
     r3 <- settled (listTags R (Some 25%Z) (Some 0%Z)) ;;
     itemsResp <- lift r1 ;;
     collectionsResult <- lift r2 ;;
     tagsResult <- lift r3 ;;
     let totalItems := parseInt (JS.or_else (m_total_results itemsResp) "0") in
     let lastModified :=
       match or_nil (m_raw itemsResp) with
       | recentItem :: _ =>
           Some (JS.or_else (data_field d_title recentItem) "(untitled)",
                 JS.or_null (data_field d_dateModified recentItem))
       | [] => None
       end in
     let topTags :=
       firstn 15 (sort_tags (match tagsResult with
                             | Got page => tags page
                             | Failed _ => []
                             end)) in
     ret (Got {| total_items := totalItems;
                 total_collections := List.length collectionsResult;
                 total_tags := List.length topTags;
                 collections := map (fun c => (col_key c, col_name c)) collectionsResult;
                 top_tags := topTags;
                 last_modified_item := lastModified |}))
    (fun err => ret (Failed (message err))).

End Stats.

Section Update.

Variable R : remote.

(** What the client's [version] throws when it is handed [undefined]:
    an item read without a version is never patched. *)
Variable version_missing : exn.

Local Open Scope remote_scope.

(** [currentData.f] where [currentData] may be [undefined]. *)
Definition current {A} (currentData : option itemData) (name : string)
           (f : itemData -> A) : exn + A :=
  match currentData with
  | Some d => inr (f d)
  | None => inl (undefined_property name)
  end.

(** The "partial object with only the changed fields". *)
Definition build_patch (currentData : option itemData) (changes : UpdateChanges)
  : exn + patchData :=
  match
    match ch_tags changes with
    | Some ts => inr (Some (map TVName ts))
    | None =>
        if either_given (ch_add_tags changes) (ch_remove_tags changes) then
          match current currentData "tags" d_tags with
          | inl e => inl e
          | inr ts =>
              inr (Some (reconcile_tags (existingTags ts)
                                        (ch_add_tags changes) (ch_remove_tags changes)))
          end
        else inr None
    end
  with
  | inl e => inl e
  | inr tags =>
      match
        match ch_collections changes with
        | Some cs => inr (Some cs)
        | None =>
            if either_given (ch_add_collections changes) (ch_remove_collections changes)
            then
              match current currentData "collections" d_collections with
              | inl e => inl e
              | inr cs =>
                  inr (Some (reconcile_keys (or_nil cs)
                                            (ch_add_collections changes)
                                            (ch_remove_collections changes)))
              end
            else inr None
        end
      with
      | inl e => inl e
      | inr colls =>
          inr {| p_title := ch_title changes;
                 p_abstractNote := ch_abstract changes;
                 p_date := ch_date changes;
                 p_extra := ch_extra changes;
                 p_tags := tags;
                 p_collections := colls |}
      end
  end.

(** [updateItem]. *)
Definition updateItem (itemKey : string) (changes : UpdateChanges)
  : M writeResult :=
  try_catch
    (raw <- call (GetItem itemKey) (fun h => item_get R h itemKey) ;;
     match raw with
     | None => throw (undefined_property "version")
     | Some raw =>
         patch <- lift (build_patch (r_data raw) changes) ;;
         match r_version raw with
         | None => throw version_missing
         | Some version =>
             call (PatchItem itemKey (Some version) (Partial patch))
                  (fun h => item_patch R h itemKey (Some version) (Partial patch)) ;;;
             ret (updated_ok itemKey)
         end
     end)
    (fun err => ret (write_failed (message err))).

End Update.

End Package.

(* ------------------------------------------------------------------ *)
(** * The properties, stated *)
(* ------------------------------------------------------------------ *)

(** ** URL unwrapping *)

(** The path segments that are not empty. *)
Definition nonempty_segments (path : string) : list string :=
  filter JS.truthy (JS.split path "/").

(** "Without a wrapper signature a candidate is accepted only when the
    original path has at least two non-empty segments." *)
Definition accepts_only_two_nonempty_segments : Prop :=
  forall (new_URL : string -> option URL) (raw decoded : string) (parsed : URL),
    new_URL raw = Some parsed ->
    Wrapper.WRAPPER_PATTERNS_test (pathname parsed) = false ->
    unwrapUrl new_URL raw = inr decoded ->
    decoded <> raw ->
    (2 <= List.length (nonempty_segments (pathname parsed)))%nat.

(** What the loop of [unwrapUrl] does with one decoded candidate: it is
    accepted when it is an absolute http(s) URL and either the path has a
    wrapper signature or, one leading and one trailing slash apart, the
    path still holds a slash. *)
Definition qualifies (parsed : URL) (decoded : string) : bool :=
  is_http decoded
  && (Wrapper.WRAPPER_PATTERNS_test (pathname parsed)
      || JS.includes (strip_slashes (pathname parsed)) "/").

(** A parameter name the loop passes over: no such parameter, an empty
    value, or a value that decodes to something that does not qualify. *)
Definition passed_over (parsed : URL) (param : string) : Prop :=
  match searchParams_get (searchParams parsed) param with
  | None => True
  | Some candidate =>
      candidate = EmptyString \/
      exists decoded,
        URI.decodeURIComponent candidate = inr decoded /\
        qualifies parsed decoded = false
  end.

(** ** Listings *)

(** Every item the store lists carries its [data] object, as the store's
    item format has it. *)
Definition store_items_carry_data (R : remote) : Prop :=
  forall h collection params resp,
    top_items_get R h collection params = inr resp ->
    Forall (fun r => r_data r <> None) (or_nil (m_raw resp)).

Definition is_child_type (t : option string) : Prop :=
  t = Some "attachment" \/ t = Some "note".

(** ** Stores to run the operations against *)

Definition fetch_failed : exn := mkExn NetworkError "fetch failed".

(** Nothing answers. *)
Definition offline : remote :=
  {| template_get := fun _ _ => inl fetch_failed;
     item_get := fun _ _ => inl fetch_failed;
     children_get := fun _ _ => inl fetch_failed;
     fulltext_fetch := fun _ _ => inl fetch_failed;
     items_post := fun _ _ => inl fetch_failed;
     file_post := fun _ _ _ => inl fetch_failed;
     item_patch := fun _ _ _ _ => inl fetch_failed;
     fetch := fun _ _ => inl fetch_failed;
     top_items_get := fun _ _ _ => inl fetch_failed;
     collections_get := fun _ => inl fetch_failed;
     tags_get := fun _ _ _ => inl fetch_failed |}.

Definition no_data : itemData :=
  {| d_key := None; d_itemType := None; d_title := None; d_creators := None;
     d_date := None; d_tags := None; d_url := None; d_contentType := None;
     d_filename := None; d_collections := None; d_dateModified := None |}.

(** An item as the store returns it: [{key, version, data: {key, itemType,
    title, contentType, tags}}]. *)
Definition stored (key itemType title : string) (contentType : option string)
           (tags : list string) : rawItem :=
  let top := {| d_key := Some key; d_itemType := None; d_title := None;
                d_creators := None; d_date := None; d_tags := None;
                d_url := None; d_contentType := None; d_filename := None;
                d_collections := None; d_dateModified := None |} in
  {| r_top := top;
     r_version := Some 7%Z;
     r_data := Some {| d_key := Some key; d_itemType := Some itemType;
                       d_title := Some title; d_creators := Some [];
                       d_date := None;
                       d_tags := Some (map (fun t => TagObj t None) tags);
                       d_url := None; d_contentType := contentType;
                       d_filename := None; d_collections := Some [];
                       d_dateModified := None |} |}.

(** A library whose top level holds an article, a standalone note and a
    standalone attachment, and says so in [Total-Results]. *)
Definition library_of_three : multiResp :=
  {| m_raw := Some [ stored "AAAA1111" "journalArticle" "A paper" None ["x"];
                     stored "BBBB2222" "note" "" None [];
                     stored "CCCC3333" "attachment" "scan.pdf"
                            (Some "application/pdf") [] ];
     m_total_results := Some "3" |}.

Definition listing_store : remote :=
  {| template_get := template_get offline;
     item_get := item_get offline;
     children_get := children_get offline;
     fulltext_fetch := fulltext_fetch offline;
     items_post := items_post offline;
     file_post := file_post offline;
     item_patch := item_patch offline;
     fetch := fetch offline;
     top_items_get := fun _ _ _ => inr library_of_three;
     collections_get := collections_get offline;
     tags_get := tags_get offline |}.

Definition no_search : SearchParams :=
  {| sp_query := None; sp_qmode := None; sp_tag := None; sp_itemType := None;
     sp_collectionId := None; sp_sort := None; sp_direction := None;
     sp_limit := None; sp_offset := None |}.

(** The claim as it is stated, with no condition on the store: no listing
    ever shows an attachment or a note. *)
Definition listings_never_show_children : Prop :=
  forall (R : remote) (h : list request),
    (forall params l,
        outcome (Worker.searchItems R params) h = inr (Got l) ->
        forall s, In s (items l) -> ~ is_child_type (s_itemType s))
    /\ (forall collectionId params l,
           outcome (getCollectionItems R collectionId params) h = inr (Got l) ->
           forall s, In s (items l) -> ~ is_child_type (s_itemType s))
    /\ (forall limit sort l,
           outcome (getRecentItems R limit sort) h = inr (Got l) ->
           forall s, In s l -> ~ is_child_type (s_itemType s)).

(** A note listed without a [data] object: its properties sit on the
    item itself. *)
Definition bare_note : rawItem :=
  {| r_top := {| d_key := Some "NOTE0002"; d_itemType := Some "note";
                 d_title := None; d_creators := None; d_date := None;
                 d_tags := None; d_url := None; d_contentType := None;
                 d_filename := None; d_collections := None;
                 d_dateModified := None |};
     r_version := Some 3%Z;
     r_data := None |}.

(** A store whose listings hold that note and nothing else. *)
Definition bare_store : remote :=
  {| template_get := template_get offline;
     item_get := item_get offline;
     children_get := children_get offline;
     fulltext_fetch := fulltext_fetch offline;
     items_post := items_post offline;
     file_post := file_post offline;
     item_patch := item_patch offline;
     fetch := fetch offline;
     top_items_get := fun _ _ _ =>
       inr {| m_raw := Some [bare_note]; m_total_results := Some "1" |};
     collections_get := collections_get offline;
     tags_get := tags_get offline |}.

(** ** Item updates *)

(** What the store answers to a write whose version precondition is
    stale, as the client throws it. *)
Definition precondition_failed : exn :=
  mkExn (ErrorResponse 412) "412: Precondition Failed".


(** A store holding one item, tagged [x], which answers every patch with
    [answer]. *)
Definition holding_store (answer : exn + unit) : remote :=
  {| template_get := template_get offline;
     item_get := fun _ _ =>
       inr (Some (stored "AAAA1111" "journalArticle" "A paper" None ["x"]));
     children_get := children_get offline;
     fulltext_fetch := fulltext_fetch offline;
     items_post := items_post offline;
     file_post := file_post offline;
     item_patch := fun _ _ _ _ => answer;
     fetch := fetch offline;
     top_items_get := top_items_get offline;
     collections_get := collections_get offline;
     tags_get := tags_get offline |}.

(** The same store when every patch fails with [failure]. *)
Definition refusing_store (failure : exn) : remote := holding_store (inl failure).


(** ** Fulltext resolution *)

Definition indexed (text : string) : ftData :=
  {| content := Some text; indexedPages := Some 2%Z; totalPages := Some 2%Z;
     indexedChars := None; totalChars := None |}.

(** The children of the article [AAAA1111], in the store's order: a
    snapshot, a note, a PDF.  Both attachments are indexed. *)
Definition children_of_article : list rawItem :=
  [ stored "HTML0001" "attachment" "Snapshot" (Some "text/html") [];
    stored "NOTE0001" "note" "" None [];
    stored "PDFF0001" "attachment" "paper.pdf" (Some "application/pdf") [] ].

Definition indexed_text (key : option string) : option ftData :=
  match key with
  | Some k =>
      if String.eqb k "HTML0001" then Some (indexed "page text")
      else if String.eqb k "PDFF0001" then Some (indexed "paper text")
      else None
  | None => None
  end.

Definition fulltext_store : remote :=
  {| template_get := template_get offline;
     item_get := fun _ _ =>
       inr (Some (stored "AAAA1111" "journalArticle" "A paper" None ["x"]));
     children_get := fun _ _ =>
       inr {| m_raw := Some children_of_article; m_total_results := Some "3" |};
     fulltext_fetch := fun _ key =>
       match indexed_text key with
       | Some d => inr {| ft_status := 200; ft_json := inr d |}
       | None => inr {| ft_status := 404; ft_json := inl (mkExn SyntaxError "Unexpected end of JSON input") |}
       end;
     items_post := items_post offline;
     file_post := file_post offline;
     item_patch := item_patch offline;
     fetch := fetch offline;
     top_items_get := top_items_get offline;
     collections_get := collections_get offline;
     tags_get := tags_get offline |}.

(** The request that probes one attachment in the packaged copy. *)
Definition probe_of (a : rawItem) : request := FetchFulltext (r_key a).

(** ** Attachments and item creation *)

Definition paper_response : httpResponse :=
  {| h_status := 200; h_statusText := "OK";
     h_content_type := Some "application/pdf";
     h_content_disposition := None;
     h_url := "https://site.com/files/paper.pdf";
     h_redirected := false;
     h_body := inr "%PDF-1.4 paper" |}.

Definition page_response : httpResponse :=
  {| h_status := 200; h_statusText := "OK";
     h_content_type := Some "text/html";
     h_content_disposition := None;
     h_url := "https://site.com/post";
     h_redirected := false;
     h_body := inr "<html><head><title>A page</title></head><body>hi</body></html>" |}.

Definition upload_timeout : exn :=
  mkExn TimeoutError "The operation was aborted due to timeout".

(** The web serves the paper and the page; the store creates every item
    it is sent, under the key [NEWK0001]; every upload times out. *)
Definition upload_timeout_store : remote :=
  {| template_get := fun _ _ =>
       inr [("itemType", TString "webpage"); ("title", TString "");
            ("creators", TCreators []); ("url", TString "");
            ("tags", TTags []); ("collections", TCollections [])];
     item_get := item_get offline;
     children_get := children_get offline;
     fulltext_fetch := fulltext_fetch offline;
     items_post := fun _ _ =>
       inr {| entity0 := inr (Some "NEWK0001"); post_json := "{}" |};
     file_post := fun _ _ _ => inl upload_timeout;
     item_patch := item_patch offline;
     fetch := fun _ url =>
       inr (if JS.endsWith url ".pdf" then paper_response else page_response);
     top_items_get := top_items_get offline;
     collections_get := collections_get offline;
     tags_get := tags_get offline |}.

(** A [save_item] call for a page whose PDF sits behind a rendering
    proxy. *)
Definition save_with_proxied_pdf : CreateItemParams :=
  {| cp_title := "Half price";
     cp_itemType := None; cp_authors := None; cp_date := None;
     cp_url := Some "https://site.com/post";
     cp_abstract := None; cp_publication := None; cp_volume := None;
     cp_issue := None; cp_pages := None; cp_doi := None;
     cp_tags := Some ["x"]; cp_collectionId := None;
     cp_pdfUrl :=
       Some "https://proxy.example.com/pdfrenderer?url=https%3A%2F%2Fsite.com%2F50%25off.pdf";
     cp_snapshotUrl := None; cp_extra := None |}.

(** The one attachment [createItem] is asked for: [pdfUrl], else
    [snapshotUrl]. *)
Definition requested_attachment (p : CreateItemParams) : option string :=
  match JS.or_null (cp_pdfUrl p) with
  | Some u => Some u
  | None => JS.or_null (cp_snapshotUrl p)
  end.

(** ** Library statistics *)

(** The items and the collections are served, the tag list is not. *)
Definition tags_down_store : remote :=
  {| template_get := template_get offline;
     item_get := item_get offline;
     children_get := children_get offline;
     fulltext_fetch := fulltext_fetch offline;
     items_post := items_post offline;
     file_post := file_post offline;
     item_patch := item_patch offline;
     fetch := fetch offline;
     top_items_get := fun _ _ _ => inr library_of_three;
     collections_get := fun _ =>
       inr (Some [ {| coll_key := Some "COLL0001";
                      coll_data := Some (Some "Papers", None) |} ]);
     tags_get := fun _ _ _ => inl fetch_failed |}.

(** Add [y] and remove [x] in one update. *)
Definition swap_x_for_y : UpdateChanges :=
  {| ch_title := None; ch_abstract := None; ch_date := None; ch_extra := None;
     ch_tags := None; ch_add_tags := Some ["y"]; ch_remove_tags := Some ["x"];
     ch_collections := None; ch_add_collections := None;
     ch_remove_collections := None |}.


(* ------------------------------------------------------------------ *)
(** * Further operations of [zotero.ts] *)
(* ------------------------------------------------------------------ *)

From Stdlib Require Import Sorted Permutation.

(** ** Template fields *)

(** [template[k]]. *)
Fixpoint field (t : template) (k : string) : option tval :=
  match t with
  | [] => None
  | (k', v) :: t' => if String.eqb k' k then Some v else field t' k
  end.

(** [Object.keys(template)]. *)
Definition keys (t : template) : list string := map fst t.

(** The fields [createItem] sets whatever the template declares. *)
Definition ALWAYS_SET : list string := ["title"; "date"; "tags"; "collections"].

(** Every field the "Fill template" block of [createItem] can write. *)
Definition FILLED : list string :=
  [ "title"; "date"; "url"; "abstractNote"; "extra"; "publicationTitle";
    "blogTitle"; "websiteTitle"; "volume"; "issue"; "pages"; "DOI";
    "creators"; "tags"; "collections" ].

(** [s.length]: the UTF-16 code units of [s], one for every code point and
    one more for those of four bytes. *)
Fixpoint utf16_length (s : string) : nat :=
  match s with
  | EmptyString => 0
  | String c s' =>
      let n := nat_of_ascii c in
      ((if (128 <=? n)%nat && (n <=? 191)%nat then 0 else 1)
       + (if (240 <=? n)%nat then 1 else 0)
       + utf16_length s')%nat
  end.

(** ** Create collection *)

(** The object sent to create a collection. *)
Record newCollection : Type := mkNewCollection {
  nc_name : string;
  nc_parentCollection : option string
}.

(** The one request [createCollection] sends:
    [zot.collections().post([data])]. *)
Inductive collectionRequest : Type :=
| PostCollections (data : newCollection).

(** The object [createCollection] returns. *)
Record collectionResult : Type := mkCollectionResult {
  cc_success : bool;
  cc_collection_key : option string;
  cc_name : option string;
  cc_parent : option string;
  cc_message : option string;
  cc_error : option string
}.

Definition collection_failed (error : string) : collectionResult :=
  {| cc_success := false; cc_collection_key := None; cc_name := None;
     cc_parent := None; cc_message := None; cc_error := Some error |}.

(** [createCollection], the same in both copies.  [post] is the store's
    answer to the request, given the requests sent before; the function
    maps the requests sent so far to its result and the requests sent by
    its end. *)
Definition createCollection
           (post : list collectionRequest -> newCollection -> exn + postResp)
           (name : string) (parentCollectionId : option string)
           (h : list collectionRequest)
  : collectionResult * list collectionRequest :=
  if negb (JS.truthy name) || negb (JS.truthy (Space.trim name)) then
    (collection_failed "Collection name is required", h)
  else
    let data := {| nc_name := Space.trim name;
                   nc_parentCollection := JS.or_null parentCollectionId |} in
    let sent_now := (h ++ [PostCollections data])%list in
    match post h data with
    | inl err =>
        (collection_failed ("Failed to create collection: " ++ message err), sent_now)
    | inr response =>
        match entity0 response with
        | inl err =>
            (collection_failed ("Failed to create collection: " ++ message err),
             sent_now)
        | inr None =>
            (collection_failed
               ("Failed to create collection. API response: " ++ post_json response),
             sent_now)
        | inr (Some key) =>
            ({| cc_success := true;
                cc_collection_key := Some key;
                cc_name := Some (nc_name data);
                cc_parent := JS.or_null parentCollectionId;
                cc_message := Some ("Created collection: " ++ nc_name data);
                cc_error := None |},
             sent_now)
        end
    end.

(** ** Notes and attachment content *)

(** The object [getAttachmentContent] returns. *)
Record attachmentContent : Type := mkContent {
  ac_error : option string;
  ac_item_key : option string;
  ac_filename : option string;
  ac_contentType : option string;
  ac_size_bytes : option nat;
  ac_content : option string;          (* [None] is [content: null] or none *)
  ac_message : option string
}.

(** [`${v}`] for a string that may be [undefined]. *)
Definition show_opt (v : option string) : string :=
  match v with Some s => s | None => "undefined" end.

(** The content types returned as text. *)
Definition is_textual (contentType : string) : bool :=
  JS.includes contentType "html" || JS.includes contentType "text"
  || JS.includes contentType "xml" || JS.includes contentType "json".

Section NotesAndContent.

Variable R : remote.

Local Open Scope remote_scope.

(** [createNote]. *)
Definition createNote (parentItemKey content : string) (tags : list string)
  : M writeResult :=
  try_catch
    (t <- getItemTemplate R (Str "note") ;;
     let t := set t "parentItem" (TString parentItemKey) in
     let t := set t "note" (TString content) in
     let t := if (0 <? List.length tags)%nat then set t "tags" (TTags tags) else t in
     response <- call (PostItems (NewItem t)) (fun h => items_post R h (NewItem t)) ;;
     created <- lift (entity0 response) ;;
     match created with
     | None => ret (write_failed "Failed to create note")
     | Some key =>
         ret {| w_success := true; w_item_key := Some key;
                w_message := Some ("Note created on item " ++ parentItemKey);
                w_error := None |}
     end)
    (fun err => ret (write_failed (message err))).

(** The address of an attachment's file; [group] tells a group library
    from a user library. *)
Definition file_url (group : bool) (libraryId itemKey : string) : string :=
  "https://api.zotero.org/" ++ (if group then "groups" else "users") ++ "/"
  ++ libraryId ++ "/items/" ++ itemKey ++ "/file".

(** [getAttachmentContent], of the packaged copy. *)
Definition getAttachmentContent (group : bool) (libraryId itemKey : string)
  : M attachmentContent :=
  let failed error key filename contentType :=
    {| ac_error := Some error; ac_item_key := key; ac_filename := filename;
       ac_contentType := contentType; ac_size_bytes := None;
       ac_content := None; ac_message := None |} in
  try_catch
    (itemResp <- call (GetItem itemKey) (fun h => item_get R h itemKey) ;;
     match option_map data_or_self itemResp with
     | None => throw (undefined_property "itemType")
     | Some data =>
         if opt_string_neqb (d_itemType data) "attachment" then
           ret (failed ("Item " ++ itemKey ++ " is not an attachment (type: "
                        ++ show_opt (d_itemType data)
                        ++ "). Use get_item to find child attachment keys.")
                       None None None)
         else
           let contentType := JS.or_else (d_contentType data) "" in
           let filename :=
             JS.or_else (d_filename data) (JS.or_else (d_title data) "unknown") in
           let url := file_url group libraryId itemKey in
           fileResp <- call (Fetch url) (fun h => fetch R h url) ;;
           if negb (http_ok (h_status fileResp)) then
             ret (failed ("Failed to download attachment: HTTP "
                          ++ string_of_Z (h_status fileResp) ++ " "
                          ++ h_statusText fileResp)
                         (Some itemKey) (Some filename) (Some contentType))
           else
             body <- lift (h_body fileResp) ;;
             if is_textual contentType then
               ret {| ac_error := None; ac_item_key := Some itemKey;
                      ac_filename := Some filename;
                      ac_contentType := Some contentType;
                      ac_size_bytes := Some (utf16_length body);
                      ac_content := Some body; ac_message := None |}
             else
               ret {| ac_error := None; ac_item_key := Some itemKey;
                      ac_filename := Some filename;
                      ac_contentType := Some contentType;
                      ac_size_bytes := Some (String.length body);
                      ac_content := None;
                      ac_message :=
                        Some ("Binary file (" ++ contentType
                              ++ "). Use get_item_fulltext to retrieve extracted text content if available.") |}
     end)
    (fun err => ret (failed ("Failed to get attachment content: " ++ message err)
                            None None None)).

End NotesAndContent.

(* ------------------------------------------------------------------ *)
(** * [packages/deploy/src/index.ts]: the worker's request handler *)
(* ------------------------------------------------------------------ *)

Module Deploy.

(** What the handler reads of a request: the path and query of its URL
    and its [Authorization] header. *)
Record incoming : Type := mkIncoming {
  in_pathname : string;
  in_search : string;
  in_authorization : option string
}.

(** What the handler answers: the health document, a 401 (with or
    without a [WWW-Authenticate] header), or the answer of the MCP
    handler to a request for [path] and [search]. *)
Inductive answer : Type :=
| Health
| Unauthorized (challenge : bool)
| Served (path search : string).

(** [pathname.match(...)] for the pattern that reads: [/mcp/t/] at the
    start, one byte or more other than [/] (the token), then, up to the
    end, nothing or a [/] followed by any bytes but line terminators (the
    rest). *)
Definition token_match (path : string) : option (string * option string) :=
  if String.prefix "/mcp/t/" path then
    let (token, tail) :=
      PlainURL.span (fun c => Ascii.eqb c "/") (Wrapper.drop 7 path) in
    if negb (JS.truthy token) then None
    else
      match tail with
      | EmptyString => Some (token, None)
      | String _ after =>
          if String.eqb (Wrapper.dot_run after) after
          then Some (token, Some tail)
          else None
      end
  else None.

(** [!env.BEARER_TOKEN || given !== expected(env.BEARER_TOKEN)]. *)
Definition refused (BEARER_TOKEN : option string) (given : string)
           (expected : string -> string) : bool :=
  match JS.or_null BEARER_TOKEN with
  | None => true
  | Some token => negb (String.eqb given (expected token))
  end.

(** The [fetch] handler.  The path of a parsed URL is normalised already,
    so that parsing [rewrittenPath] against the origin gives it back. *)
Definition handle (BEARER_TOKEN : option string) (request : incoming) : answer :=
  let path := in_pathname request in
  if String.eqb path "/" then Health
  else
    match token_match path with
    | Some (urlToken, rest) =>
        if refused BEARER_TOKEN urlToken (fun token => token)
        then Unauthorized false
        else Served ("/mcp" ++ JS.or_else rest "") (in_search request)
    | None =>
        if JS.startsWith path "/mcp" then
          match JS.or_null (in_authorization request) with
          | None => Unauthorized true
          | Some auth =>
              if refused BEARER_TOKEN auth (fun token => "Bearer " ++ token)
              then Unauthorized true
              else Served path (in_search request)
          end
        else Served path (in_search request)
    end.

End Deploy.


(** ** Further properties, stated *)

(** The download did not give a file: the request failed, the status is
    not 2xx, the body could not be read, or it is empty. *)
Definition no_file (answer : exn + httpResponse) : Prop :=
  match answer with
  | inl _ => True
  | inr response =>
      http_ok (h_status response) = false
      \/ match h_body response with
         | inl _ => True
         | inr body => body = EmptyString
         end
  end.

(** Every file sent in [added] goes under a key the store handed out for
    an attachment item of [parent], registered in [added] with the same
    file name and content type. *)
Definition uploads_follow_registration (R : remote) (parent : string)
           (added : list request) : Prop :=
  forall key filename contentType body,
    In (UploadFile key filename contentType body) added ->
    exists before a createResp,
      items_post R before (NewAttachment a) = inr createResp
      /\ entity0 createResp = inr (Some key)
      /\ In (PostItems (NewAttachment a)) added
      /\ at_parentItem a = parent
      /\ at_filename a = filename
      /\ at_contentType a = contentType.

(** The web serves the paper and the page, the store creates every item
    it is sent under the key [NEWK0001], and uploads go through. *)
Definition archive_store : remote :=
  {| template_get := template_get upload_timeout_store;
     item_get := item_get offline;
     children_get := children_get offline;
     fulltext_fetch := fulltext_fetch offline;
     items_post := items_post upload_timeout_store;
     file_post := fun _ _ _ =>
       inr (Some {| up_response := Some (Some 204%Z, Some true);
                    up_status := None; up_ok := None; up_json := "{}" |});
     item_patch := item_patch offline;
     fetch := fetch upload_timeout_store;
     top_items_get := top_items_get offline;
     collections_get := collections_get offline;
     tags_get := tags_get offline |}.

(** The web answers every download with [404 Not Found]. *)
Definition missing_file_store : remote :=
  {| template_get := template_get upload_timeout_store;
     item_get := item_get offline;
     children_get := children_get offline;
     fulltext_fetch := fulltext_fetch offline;
     items_post := items_post upload_timeout_store;
     file_post := file_post archive_store;
     item_patch := item_patch offline;
     fetch := fun _ url =>
       inr {| h_status := 404; h_statusText := "Not Found";
              h_content_type := Some "text/html";
              h_content_disposition := None; h_url := url;
              h_redirected := false; h_body := inr "gone" |};
     top_items_get := top_items_get offline;
     collections_get := collections_get offline;
     tags_get := tags_get offline |}.

(** [later] has the fields of [earlier], and beyond them only fields
    named in [allowed]. *)
Definition extends_by (allowed : list string) (earlier later : template) : Prop :=
  (forall k, In k (keys earlier) -> In k (keys later))
  /\ (forall k, In k (keys later) -> In k (keys earlier) \/ In k allowed).

(** A [save_item] call for a paper with its PDF and, as a second choice,
    a snapshot of its page. *)
Definition save_paper : CreateItemParams :=
  {| cp_title := "A paper";
     cp_itemType := None; cp_authors := Some ["Jane Doe"]; cp_date := None;
     cp_url := Some "https://site.com/post";
     cp_abstract := None; cp_publication := None; cp_volume := None;
     cp_issue := None; cp_pages := None; cp_doi := Some "10.1234/x";
     cp_tags := Some ["x"]; cp_collectionId := None;
     cp_pdfUrl := Some "https://site.com/files/paper.pdf";
     cp_snapshotUrl := Some "https://site.com/post"; cp_extra := None |}.

(** The same call for a type the store does not know. *)
Definition save_bogus : CreateItemParams :=
  {| cp_title := "Should fail";
     cp_itemType := Some "totallyBogusType"; cp_authors := None; cp_date := None;
     cp_url := None; cp_abstract := None; cp_publication := None;
     cp_volume := None; cp_issue := None; cp_pages := None; cp_doi := None;
     cp_tags := None; cp_collectionId := None; cp_pdfUrl := None;
     cp_snapshotUrl := None; cp_extra := None |}.

(** The template of a web page, as [upload_timeout_store] serves it. *)
Definition webpage_template : template :=
  [("itemType", TString "webpage"); ("title", TString "");
   ("creators", TCreators []); ("url", TString "");
   ("tags", TTags []); ("collections", TCollections [])].

(** The order of [top_tags]: a tag is used at least as much as those
    after it. *)
Definition most_used_first (a b : option string * Z) : Prop := (snd b <= snd a)%Z.

(** A store of one collection and three tags, used once, five times and
    three times. *)
Definition tagged_store : remote :=
  {| template_get := template_get offline;
     item_get := item_get offline;
     children_get := children_get offline;
     fulltext_fetch := fulltext_fetch offline;
     items_post := items_post offline;
     file_post := file_post offline;
     item_patch := item_patch offline;
     fetch := fetch offline;
     top_items_get := fun _ _ _ => inr library_of_three;
     collections_get := fun _ =>
       inr (Some [ {| coll_key := Some "COLL0001";
                      coll_data := Some (Some "Papers", None) |} ]);
     tags_get := fun _ _ _ =>
       inr (Some [ {| tc_tag := Some "a"; tc_numItems := Some 1%Z |};
                   {| tc_tag := Some "b"; tc_numItems := Some 5%Z |};
                   {| tc_tag := Some "c"; tc_numItems := Some 3%Z |} ]) |}.


(** Every byte of [s] is an ASCII character: its bytes are then its
    UTF-16 code units, one for one. *)
Definition ascii_only (s : string) : bool :=
  PlainURL.all_chars (fun c => (nat_of_ascii c <? 128)%nat) s.

(** ** Reconciliation, as a specification *)

(** Is [t] one of [names]? *)
Definition among (names : list string) (t : string) : bool :=
  if in_dec string_dec t names then true else false.

(** [l] without repetitions, each name where [l] has it first. *)
Fixpoint first_seen (l : list string) : list string :=
  match l with
  | [] => []
  | t :: l' => t :: filter (fun u => negb (String.eqb u t)) (first_seen l')
  end.

(** The current names in their order; after them the names of [add] the
    item did not carry, each once and where [add] has it first; and from
    all of these the names of [remove] struck out. *)
Definition reconciled (current add remove : list string) : list string :=
  filter (fun t => negb (among remove t))
         (current ++ first_seen (filter (fun t => negb (among current t)) add)).

(** The entry [t] of an item's [tags] carries the name [n]: it is the
    bare string [n], or an object whose [tag] is [n], not empty. *)
Definition tag_named (t : storeTag) (n : string) : Prop :=
  t = TagStr n \/ (n <> EmptyString /\ exists type, t = TagObj n type).

(** ** Fulltext, as a specification *)

(** The text the store holds for [key] when asked after the requests
    [h]: the [content] of an answer with a status from 200 to 299 and a
    JSON body, when it is not empty. *)
Definition text_held (R : remote) (h : list request) (key : option string)
  : option string :=
  match fulltext_fetch R h key with
  | inl _ => None
  | inr answer =>
      if ((200 <=? ft_status answer) && (ft_status answer <=? 299))%Z then
        match ft_json answer with
        | inl _ => None
        | inr data =>
            match content data with
            | Some (String c text) => Some (String c text)
            | _ => None
            end
        end
      else None
  end.

(** The children that are attachments with a content type, those whose
    content type names [pdf] before the others, each group in the order
    of the store. *)
Definition pdfs_first (children : list rawItem) : list rawItem :=
  let attachments := filter is_attachment children in
  (filter is_pdf attachments ++ filter (fun a => negb (is_pdf a)) attachments)%list.

(** Add [COLL0002], then [COLL0001], then [COLL0002] again. *)
Definition file_twice : UpdateChanges :=
  {| ch_title := None; ch_abstract := None; ch_date := None; ch_extra := None;
     ch_tags := None; ch_add_tags := None; ch_remove_tags := None;
     ch_collections := None;
     ch_add_collections := Some ["COLL0002"; "COLL0001"; "COLL0002"];
     ch_remove_collections := None |}.

(** Add [z], then [y], then [z] again, and remove [w]. *)
Definition add_z_y_z : UpdateChanges :=
  {| ch_title := None; ch_abstract := None; ch_date := None; ch_extra := None;
     ch_tags := None; ch_add_tags := Some ["z"; "y"; "z"];
     ch_remove_tags := Some ["w"];
     ch_collections := None; ch_add_collections := None;
     ch_remove_collections := None |}.

(** Asked one after the other, after the requests [h], none of [probed]
    holds text. *)
Definition none_held (R : remote) (h : list request) (probed : list rawItem) : Prop :=
  forall before a after,
    probed = (before ++ a :: after)%list ->
    text_held R (h ++ map probe_of before)%list (r_key a) = None.

(* ------------------------------------------------------------------ *)
(** * Type resolver *)
(* ------------------------------------------------------------------ *)

Lemma own_property_None (m : list (string * string)) (k : string) :
  ~ In k (map fst m) -> own_property m k = None.
Proof.
  induction m as [| [k' v] m IH]; simpl; intros Hk; [reflexivity |].
  destruct (String.eqb_spec k' k) as [-> | ne].
  - exfalso. apply Hk. now left.
  - apply IH. intros Hin. apply Hk. now right.
Qed.

(** Every friendly name resolves to a canonical name that resolves to
    itself. *)
Lemma resolve_idempotent (k : string) :
  friendly k ->
  exists v, resolveItemType k = Str v /\ resolveItemType v = Str v.
Proof.
  unfold friendly, getItemTypes. simpl. intros H.
  repeat (destruct H as [<- | H]; [eexists; split; reflexivity |]).
  contradiction.
Qed.

(** Two spellings with the same lower case, a friendly name, resolve
    alike. *)
Lemma resolve_case_insensitive (s t : string) :
  JS.toLowerCase s = JS.toLowerCase t ->
  known s ->
  resolveItemType s = resolveItemType t.
Proof.
  unfold known, friendly, getItemTypes, resolveItemType. intros <-. simpl.
  intros H.
  repeat (destruct H as [<- | H]; [reflexivity |]).
  contradiction.
Qed.

(** A name that is neither known nor, in lower case, a member of
    [Object.prototype] passes through unchanged. *)
Lemma resolve_unknown (x : string) :
  ~ known x ->
  mem_string (JS.toLowerCase x) OBJECT_PROTOTYPE = false ->
  resolveItemType x = Str x.
Proof.
  intros Hk Hp. unfold resolveItemType, get_property.
  rewrite own_property_None by exact Hk.
  now rewrite Hp.
Qed.

(** C9 — [resolveItemType] is case-insensitive and idempotent on the friendly
    names, but it is not the identity on every unknown name: ["constructor"]
    is no friendly name, and a read of [ITEM_TYPE_MAP["constructor"]] finds
    the function every object inherits; that function is truthy, so it is
    returned in place of the name. *)
Theorem resolveItemType_constructor :
  ~ known "constructor"
  /\ resolveItemType "constructor" = Inherited "constructor"
  /\ resolveItemType "constructor" <> Str "constructor"
  /\ resolveItemType "Article" = resolveItemType "article"
  /\ resolveItemType "article" = Str "journalArticle"
  /\ resolveItemType "journalArticle" = Str "journalArticle".
Proof.
  split; [| repeat split; try reflexivity; discriminate].
  unfold known, friendly, getItemTypes. simpl. intros H.
  repeat (destruct H as [H | H]; [discriminate H |]).
  exact H.
Qed.

(* ------------------------------------------------------------------ *)
(** * URL unwrapper *)
(* ------------------------------------------------------------------ *)

Lemma split_aux_nonempty (sep s : string) (skip : nat) (cur : string) :
  (1 <= List.length (JS.split_aux sep s skip cur))%nat.
Proof.
  revert skip cur. induction s as [| c s IH]; intros skip cur;
    cbn [JS.split_aux List.length]; [lia |].
  destruct skip; [| apply IH].
  destruct (String.prefix sep (String c s)); cbn [List.length]; [lia | apply IH].
Qed.

(** Splitting on a slash gives two pieces or more exactly when there is a
    slash. *)
Lemma split_slash (s cur : string) :
  (2 <=? List.length (JS.split_aux "/" s 0 cur))%nat = JS.includes s "/".
Proof.
  revert cur. induction s as [| c s IH]; intros cur; [reflexivity |].
  cbn [JS.split_aux JS.includes].
  destruct (String.prefix "/" (String c s)) eqn:E.
  - cbn [orb List.length]. apply Nat.leb_le.
    pose proof (split_aux_nonempty "/" s 0 EmptyString) as Hn.
    cbn in Hn |- *. lia.
  - cbn [orb]. apply IH.
Qed.

Lemma segments_two (path : string) :
  (2 <=? List.length (segments path))%nat = JS.includes (strip_slashes path) "/".
Proof. unfold segments, JS.split. apply split_slash. Qed.

Section UnwrapFacts.

Variable new_URL : string -> option URL.

(** A string the parser rejects comes back unchanged. *)
Lemma unwrapUrl_unparseable (raw : string) :
  new_URL raw = None -> unwrapUrl new_URL raw = inr raw.
Proof. intros H. unfold unwrapUrl. now rewrite H. Qed.

Lemma scan_passed_over (raw : string) (parsed : URL) (before rest : list string) :
  Forall (passed_over parsed) before ->
  unwrap_scan raw parsed (Wrapper.WRAPPER_PATTERNS_test (pathname parsed))
              (before ++ rest)
  = unwrap_scan raw parsed (Wrapper.WRAPPER_PATTERNS_test (pathname parsed)) rest.
Proof.
  induction 1 as [| p before Hp _ IH]; [reflexivity |].
  cbn [app unwrap_scan]. unfold passed_over in Hp.
  destruct (searchParams_get (searchParams parsed) p) as [c |]; [| exact IH].
  destruct Hp as [-> | (d & Hd & Hq)]; [exact IH |].
  destruct (negb (JS.truthy c)); [exact IH |].
  rewrite Hd. unfold qualifies in Hq. rewrite <- segments_two in Hq.
  destruct (is_http d); [| exact IH].
  destruct (Wrapper.WRAPPER_PATTERNS_test (pathname parsed)); [discriminate Hq |].
  cbn [andb orb] in Hq. rewrite Hq. exact IH.
Qed.

(** C6 — for a parseable URL the candidate parameters are tried in the order
    [url, source, target, uri, link, src]: the first one that is present,
    not empty and decodes to an absolute http(s) URL is returned when the
    path has a wrapper signature or, stripped of one leading and one
    trailing slash, still contains a slash (empty segments count), the
    names before it having been passed over; when every name is passed
    over the input comes back unchanged. *)
Theorem unwrapUrl_scan_order (raw : string) (parsed : URL) :
  new_URL raw = Some parsed ->
  (forall before param after candidate decoded,
      URL_PARAM_NAMES = (before ++ param :: after)%list ->
      Forall (passed_over parsed) before ->
      searchParams_get (searchParams parsed) param = Some candidate ->
      candidate <> EmptyString ->
      URI.decodeURIComponent candidate = inr decoded ->
      qualifies parsed decoded = true ->
      unwrapUrl new_URL raw = inr decoded)
  /\ (Forall (passed_over parsed) URL_PARAM_NAMES ->
      unwrapUrl new_URL raw = inr raw).
Proof.
  intros Hparse. unfold unwrapUrl. rewrite Hparse. split.
  - intros before param after c d Hnames Hbefore Hget Hc Hd Hq.
    rewrite Hnames, scan_passed_over by exact Hbefore.
    cbn [unwrap_scan]. rewrite Hget.
    destruct c as [| a c]; [contradiction Hc; reflexivity |].
    cbn [JS.truthy negb]. rewrite Hd.
    unfold qualifies in Hq. rewrite <- segments_two in Hq.
    destruct (is_http d); [| discriminate Hq].
    destruct (Wrapper.WRAPPER_PATTERNS_test (pathname parsed)); [reflexivity |].
    cbn [andb orb] in Hq. now rewrite Hq.
  - intros Hall.
    rewrite <- (app_nil_r URL_PARAM_NAMES), scan_passed_over by exact Hall.
    reflexivity.
Qed.

End UnwrapFacts.

(** C6, at work: [link] is reached after [url] (a relative value) has been
    passed over, ahead of [src], which comes later in the list. *)
Lemma unwrapUrl_scan_order_witness :
  PlainURL.parse "http://x.com/a/b?src=http://y.com/z&url=/rel&link=https://q.org"
  = Some (mkURL "/a/b" [("src", "http://y.com/z"); ("url", "/rel");
                        ("link", "https://q.org")])
  /\ unwrapUrl PlainURL.parse
       "http://x.com/a/b?src=http://y.com/z&url=/rel&link=https://q.org"
     = inr "https://q.org".
Proof.
  split; [reflexivity |].
  apply (proj1 (unwrapUrl_scan_order
                  PlainURL.parse
                  "http://x.com/a/b?src=http://y.com/z&url=/rel&link=https://q.org"
                  (mkURL "/a/b" [("src", "http://y.com/z"); ("url", "/rel");
                                 ("link", "https://q.org")])
                  eq_refl)
               ["url"; "source"; "target"; "uri"] "link" ["src"]
               "https://q.org" "https://q.org").
  - reflexivity.
  - apply Forall_cons; [right; exists "/rel"; split; reflexivity |].
    repeat (apply Forall_cons; [exact I |]). apply Forall_nil.
  - reflexivity.
  - discriminate.
  - reflexivity.
  - reflexivity.
Defined.

(** C6 as first stated fails: [/a//] has one non-empty segment and no wrapper
    signature, yet the [url] parameter is accepted, because the empty
    segment after [a] is counted. *)
Lemma unwrapUrl_counts_empty_segments : ~ accepts_only_two_nonempty_segments.
Proof.
  intros claim.
  specialize (claim PlainURL.parse "http://x.com/a//?url=http://y.com/z"
                    "http://y.com/z" (mkURL "/a//" [("url", "http://y.com/z")])
                    eq_refl eq_refl eq_refl).
  cbn in claim. assert (H : (2 <= 1)%nat) by (apply claim; discriminate). lia.
Qed.

(** When every candidate decodes, [unwrapUrl] returns a string. *)
Lemma unwrap_scan_total (raw : string) (parsed : URL) (isWrapper : bool)
      (params : list string) :
  (forall param candidate,
      In param params ->
      searchParams_get (searchParams parsed) param = Some candidate ->
      exists decoded, URI.decodeURIComponent candidate = inr decoded) ->
  exists r, unwrap_scan raw parsed isWrapper params = inr r.
Proof.
  induction params as [| param rest IH]; intros Hdec; [eexists; reflexivity |].
  assert (Hrest : exists r, unwrap_scan raw parsed isWrapper rest = inr r).
  { apply IH. intros p c Hp. apply Hdec. now right. }
  cbn [unwrap_scan].
  destruct (searchParams_get (searchParams parsed) param) as [c |] eqn:E;
    [| exact Hrest].
  destruct (negb (JS.truthy c)); [exact Hrest |].
  destruct (Hdec param c (or_introl eq_refl) E) as (d & ->).
  destruct (is_http d); [| exact Hrest].
  destruct isWrapper; [eexists; reflexivity |].
  destruct (2 <=? _)%nat; [eexists; reflexivity | exact Hrest].
Qed.

Lemma unwrapUrl_total_when_decodable (new_URL : string -> option URL) (raw : string) :
  (forall parsed param candidate,
      new_URL raw = Some parsed ->
      In param URL_PARAM_NAMES ->
      searchParams_get (searchParams parsed) param = Some candidate ->
      exists decoded, URI.decodeURIComponent candidate = inr decoded) ->
  exists r, unwrapUrl new_URL raw = inr r.
Proof.
  intros Hdec. unfold unwrapUrl.
  destruct (new_URL raw) as [parsed |] eqn:E; [| eexists; reflexivity].
  apply unwrap_scan_total. intros p c. now apply Hdec.
Qed.

(** C7 — [unwrapUrl] does not always return: the [url] parameter of this
    wrapper URL form-decodes to [https://site.com/50%off.pdf], and
    [decodeURIComponent], applied to it a second time, throws on [%of];
    nothing in [unwrapUrl] catches that. *)
Theorem unwrapUrl_throws :
  PlainURL.parse
    "https://proxy.example.com/pdfrenderer?url=https%3A%2F%2Fsite.com%2F50%25off.pdf"
  = Some (mkURL "/pdfrenderer" [("url", "https://site.com/50%off.pdf")])
  /\ unwrapUrl PlainURL.parse
       "https://proxy.example.com/pdfrenderer?url=https%3A%2F%2Fsite.com%2F50%25off.pdf"
     = inl URI.URI_malformed.
Proof. split; reflexivity. Qed.

(* ------------------------------------------------------------------ *)
(** * Listings *)
(* ------------------------------------------------------------------ *)

Lemma listed_no_children (resp : multiResp) :
  Forall (fun r => r_data r <> None) (or_nil (m_raw resp)) ->
  forall s, In s (listed resp) -> ~ is_child_type (s_itemType s).
Proof.
  intros Hdata s Hin. unfold listed in Hin.
  apply in_map_iff in Hin as (r & <- & Hr).
  apply filter_In in Hr as [Hr Hkeep].
  rewrite Forall_forall in Hdata. specialize (Hdata r Hr).
  unfold not_child, data_field in Hkeep.
  unfold formatItemSummary, data_or_self. cbn [s_itemType].
  destruct (r_data r) as [d |]; [| contradiction Hdata; reflexivity].
  apply andb_prop in Hkeep as [Ha Hn].
  intros [E | E]; rewrite E in Ha, Hn; discriminate.
Qed.

(** With a [Total-Results] header the reported total is that header. *)
Lemma total_of_header (resp : multiResp) (its : list ItemSummary) (t : string) :
  m_total_results resp = Some t -> t <> EmptyString ->
  total_of resp its = parseInt t.
Proof.
  intros H Ht. unfold total_of. rewrite H.
  destruct t; [contradiction Ht; reflexivity | reflexivity].
Qed.

Lemma searchItems_gen_listed (R : remote) (q : bool) (params : SearchParams)
      (h : list request) (l : listing) :
  outcome (searchItems_gen R q params) h = inr (Got l) ->
  exists collection query resp,
    top_items_get R h collection query = inr resp
    /\ items l = listed resp
    /\ totalResults l = total_of resp (listed resp).
Proof.
  unfold outcome, searchItems_gen, try_catch, bind, call, ret. cbn.
  match goal with
  | |- context [top_items_get R h ?c ?p] =>
      destruct (top_items_get R h c p) as [e | resp] eqn:E
  end; cbn; intros H; inversion H; subst.
  do 3 eexists. split; [exact E | split; reflexivity].
Qed.

(** C10 — when every listed store item carries its [data] object, no summary
    returned by [searchItems] (either copy), [getCollectionItems] or
    [getRecentItems] has item type [attachment] or [note]; the reported
    [totalResults] is the [Total-Results] header when there is one; and it
    can exceed the number of items returned. *)
Theorem listings_exclude_children (R : remote) :
  store_items_carry_data R ->
  (forall h params l,
      outcome (Worker.searchItems R params) h = inr (Got l)
      \/ outcome (Package.searchItems R params) h = inr (Got l) ->
      (forall s, In s (items l) -> ~ is_child_type (s_itemType s))
      /\ exists collection query resp,
          top_items_get R h collection query = inr resp
          /\ totalResults l = total_of resp (items l))
  /\ (forall h collectionId params l,
         outcome (getCollectionItems R collectionId params) h = inr (Got l) ->
         (forall s, In s (items l) -> ~ is_child_type (s_itemType s))
         /\ exists collection query resp,
             top_items_get R h collection query = inr resp
             /\ totalResults l = total_of resp (items l))
  /\ (forall h limit sort l,
         outcome (getRecentItems R limit sort) h = inr (Got l) ->
         forall s, In s l -> ~ is_child_type (s_itemType s))
  /\ (forall resp its t,
         m_total_results resp = Some t -> t <> EmptyString ->
         total_of resp its = parseInt t)
  /\ exists l,
      outcome (Package.searchItems listing_store no_search) [] = inr (Got l)
      /\ totalResults l = Num 3
      /\ List.length (items l) = 1%nat.
Proof.
  intros Hstore.
  split; [| split; [| split; [| split]]].
  - intros h params l H. split.
    + destruct H as [H | H];
        apply searchItems_gen_listed in H as (c & q & resp & E & Hi & _);
        rewrite Hi; apply listed_no_children; exact (Hstore _ _ _ _ E).
    + destruct H as [H | H];
        apply searchItems_gen_listed in H as (c & q & resp & E & Hi & Ht);
        exists c, q, resp; (split; [exact E | now rewrite Hi]).
  - intros h collectionId params l.
    unfold outcome, getCollectionItems, try_catch, bind, call, ret. cbn.
    match goal with
    | |- context [top_items_get R h ?c ?p] =>
        destruct (top_items_get R h c p) as [e | resp] eqn:E
    end; cbn; intros H; inversion H; subst. cbn [items totalResults]. split.
    + apply listed_no_children. exact (Hstore _ _ _ _ E).
    + do 3 eexists. split; [exact E | reflexivity].
  - intros h limit sort l.
    unfold outcome, getRecentItems, try_catch, bind, call, ret. cbn.
    match goal with
    | |- context [top_items_get R h ?c ?p] =>
        destruct (top_items_get R h c p) as [e | resp] eqn:E
    end; cbn; intros H; inversion H; subst.
    apply listed_no_children. exact (Hstore _ _ _ _ E).
  - intros resp its t. apply total_of_header.
  - eexists. split; [reflexivity | split; reflexivity].
Qed.

Lemma listing_store_carries_data : store_items_carry_data listing_store.
Proof.
  intros h c q resp H. inversion H; subst. cbn.
  repeat (apply Forall_cons; [discriminate |]). apply Forall_nil.
Defined.

(** C10, at work on a library that lists a note and an attachment beside an
    article. *)
Lemma listings_exclude_children_witness :
  store_items_carry_data listing_store
  /\ forall l,
      outcome (Package.searchItems listing_store no_search) [] = inr (Got l) ->
      forall s, In s (items l) -> ~ is_child_type (s_itemType s).
Proof.
  split; [exact listing_store_carries_data |].
  intros l H.
  exact (proj1 (proj1 (listings_exclude_children listing_store
                                                 listing_store_carries_data)
                      [] no_search l (or_intror H))).
Defined.

(** C10 as first stated fails.  The filter reads [r.data?.itemType], the
    summary reads [raw.data || raw]: a note listed without a [data] object
    passes the filter and is shown with item type [note]. *)
Lemma listings_show_bare_children : ~ listings_never_show_children.
Proof.
  intros claim.
  destruct (claim bare_store []) as (Hsearch & _ & _).
  apply (Hsearch no_search
                 {| items := listed {| m_raw := Some [bare_note];
                                       m_total_results := Some "1" |};
                    totalResults := Num 1; l_offset := 0%Z; l_limit := 25%Z |}
                 eq_refl
                 (formatItemSummary bare_note)).
  - now left.
  - right. reflexivity.
Qed.

(* ------------------------------------------------------------------ *)
(** * Name lists *)
(* ------------------------------------------------------------------ *)

Lemma mem_string_In (k : string) (l : list string) :
  mem_string k l = true <-> In k l.
Proof.
  unfold mem_string. rewrite existsb_exists. split.
  - intros (x & Hx & E). apply String.eqb_eq in E. now subst.
  - intros H. exists k. split; [exact H | apply String.eqb_refl].
Qed.

Lemma includes_name_In (updated : list tagVal) (t : string) :
  includes_name updated t = true <-> In (TVName t) updated.
Proof.
  unfold includes_name. rewrite existsb_exists. split.
  - intros ([s | e] & Hx & E); [| discriminate E].
    apply String.eqb_eq in E. now subst.
  - intros H. exists (TVName t). split; [exact H | apply String.eqb_refl].
Qed.

(* ------------------------------------------------------------------ *)
(** * Change reconciler: the patch *)
(* ------------------------------------------------------------------ *)

Lemma Worker_updateItem_run (R : remote) (key : string) (changes : UpdateChanges)
      (h : list request) :
  Worker.updateItem R key changes h =
  match item_get R h key with
  | inl e => (inr (write_failed (message e)), (h ++ [GetItem key])%list)
  | inr None =>
      (inr (write_failed (message (undefined_property "version"))),
       (h ++ [GetItem key])%list)
  | inr (Some raw) =>
      let body :=
        VersionAsBody (r_version raw) (r_data raw)
                      (Worker.changed_fields (r_data raw) changes) in
      (inr (match item_patch R (h ++ [GetItem key])%list key None body with
            | inl e => write_failed (message e)
            | inr _ => updated_ok key
            end),
       ((h ++ [GetItem key]) ++ [PatchItem key None body])%list)
  end.
Proof.
  unfold Worker.updateItem, try_catch, bind, call, ret, throw.
  destruct (item_get R h key) as [e | [raw |]]; try reflexivity.
  cbn. destruct (item_patch R _ key _ _); reflexivity.
Qed.

Lemma Package_updateItem_run (R : remote) (version_missing : exn) (key : string)
      (changes : UpdateChanges) (h : list request) :
  Package.updateItem R version_missing key changes h =
  match item_get R h key with
  | inl e => (inr (write_failed (message e)), (h ++ [GetItem key])%list)
  | inr None =>
      (inr (write_failed (message (undefined_property "version"))),
       (h ++ [GetItem key])%list)
  | inr (Some raw) =>
      match Package.build_patch (r_data raw) changes with
      | inl e => (inr (write_failed (message e)), (h ++ [GetItem key])%list)
      | inr patch =>
          match r_version raw with
          | None =>
              (inr (write_failed (message version_missing)),
               (h ++ [GetItem key])%list)
          | Some version =>
              (inr (match item_patch R (h ++ [GetItem key])%list key (Some version)
                                     (Partial patch) with
                    | inl e => write_failed (message e)
                    | inr _ => updated_ok key
                    end),
               ((h ++ [GetItem key])
                  ++ [PatchItem key (Some version) (Partial patch)])%list)
          end
      end
  end.
Proof.
  unfold Package.updateItem, try_catch, bind, call, ret, throw, lift.
  destruct (item_get R h key) as [e | [raw |]]; try reflexivity.
  cbn. destruct (Package.build_patch (r_data raw) changes) as [e | patch];
    [reflexivity |].
  destruct (r_version raw) as [version |]; [| reflexivity].
  destruct (item_patch R _ key _ _); reflexivity.
Qed.

(** C2 — the worker's copy does not patch under the version it read.  The
    item is read at version 7 and the store refuses stale writes with
    412.  The packaged copy sends the changed fields under the
    precondition 7, and the refusal comes back with the store's words,
    which are not those of a failed connection.  The worker's copy calls
    [patch(version, data)]: the version goes out as the body of the PATCH,
    the item's data as the options of the call, and no precondition is
    set, so the store is never asked to compare versions. *)
Theorem Worker_patch_without_precondition (version_missing : exn) :
  r_version (stored "AAAA1111" "journalArticle" "A paper" None ["x"]) = Some 7%Z
  /\ sent (Worker.updateItem (refusing_store precondition_failed)
                             "AAAA1111" swap_x_for_y) []
     = [GetItem "AAAA1111";
        PatchItem "AAAA1111" None
          (VersionAsBody
             (Some 7%Z)
             (r_data (stored "AAAA1111" "journalArticle" "A paper" None ["x"]))
             {| p_title := None; p_abstractNote := None; p_date := None;
                p_extra := None; p_tags := Some [TVName "y"];
                p_collections := None |})]
  /\ sent (Package.updateItem (refusing_store precondition_failed) version_missing
                              "AAAA1111" swap_x_for_y) []
     = [GetItem "AAAA1111";
        PatchItem "AAAA1111" (Some 7%Z)
          (Partial {| p_title := None; p_abstractNote := None; p_date := None;
                      p_extra := None; p_tags := Some [TVName "y"];
                      p_collections := None |})]
  /\ outcome (Package.updateItem (refusing_store precondition_failed) version_missing
                                 "AAAA1111" swap_x_for_y) []
     = inr (write_failed "412: Precondition Failed")
  /\ outcome (Package.updateItem (refusing_store fetch_failed) version_missing
                                 "AAAA1111" swap_x_for_y) []
     = inr (write_failed "fetch failed").
Proof.
  split; [reflexivity |]. split; [reflexivity |]. split; [reflexivity |].
  split; reflexivity.
Qed.


(* ------------------------------------------------------------------ *)
(** * Fulltext resolver *)
(* ------------------------------------------------------------------ *)


Lemma Package_fulltext_parent_run (R : remote) (itemKey : string)
      (h : list request) (raw : rawItem) (children : multiResp) :
  item_get R h itemKey = inr (Some raw) ->
  d_itemType (data_or_self raw) <> Some "attachment" ->
  children_get R (h ++ [GetItem itemKey])%list itemKey = inr children ->
  let attachments := filter is_attachment (or_nil (m_raw children)) in
  let asked := ((h ++ [GetItem itemKey]) ++ [GetChildren itemKey])%list in
  Package.getItemFulltext R itemKey h =
    match attachments with
    | [] => (inr (Got (Package.absent itemKey Package.no_attachments_message)), asked)
    | _ =>
        match Package.probe R itemKey (Package.orderedAttachments attachments) asked with
        | (inl e, h') => (inr (Failed ("Failed to get fulltext: " ++ message e)), h')
        | (inr (Some found_in), h') => (inr (Got found_in), h')
        | (inr None, h') => (inr (Got (Package.none_indexed itemKey attachments)), h')
        end
    end.
Proof.
  intros Hitem Htype Hchildren attachments asked.
  assert (Hparent :
    match d_itemType (data_or_self raw) with
    | Some t => String.eqb t "attachment"
    | None => false
    end = false).
  { destruct (d_itemType (data_or_self raw)) as [t |]; [| reflexivity].
    destruct (String.eqb_spec t "attachment") as [-> | _];
      [contradiction Htype; reflexivity | reflexivity]. }
  unfold Package.getItemFulltext, try_catch, bind, call. cbv beta.
  rewrite Hitem. cbn [option_map]. rewrite Hparent, Hchildren.
  fold attachments asked.
  destruct attachments as [| a atts]; [reflexivity |].
  destruct (Package.probe R itemKey _ asked) as [[e | [res |]] h']; reflexivity.
Qed.

(** C1 — the worker's copy never finds the text.  The article's children
    are a snapshot and a PDF, both indexed.  The packaged copy probes the
    PDF first and returns its text.  The worker's copy asks the client
    for [fulltext()], which the client does not have: every attempt
    throws before a request is made and is swallowed, so the children are
    read, nothing is probed, and the answer is [content: null] with the
    message that no text is available. *)
Theorem Worker_fulltext_never_found :
  map is_pdf (filter is_attachment children_of_article) = [false; true]
  /\ sent (Package.getItemFulltext fulltext_store "AAAA1111") []
     = [GetItem "AAAA1111"; GetChildren "AAAA1111"; FetchFulltext (Some "PDFF0001")]
  /\ (exists res,
         outcome (Package.getItemFulltext fulltext_store "AAAA1111") [] = inr (Got res)
         /\ attachment_key res = Some "PDFF0001"
         /\ ft_content res = Some "paper text")
  /\ sent (Worker.getItemFulltext fulltext_store "AAAA1111") []
     = [GetChildren "AAAA1111"]
  /\ (exists res,
         outcome (Worker.getItemFulltext fulltext_store "AAAA1111") [] = inr (Got res)
         /\ attachment_key res = None
         /\ ft_content res = None
         /\ ft_message res = Some "No full-text content available for this item.").
Proof.
  split; [reflexivity |]. split; [reflexivity |].
  split; [eexists; split; [reflexivity | split; reflexivity] |].
  split; [reflexivity |].
  eexists; split; [reflexivity | split; [reflexivity | split; reflexivity]].
Qed.

(* ------------------------------------------------------------------ *)
(** * Attachment uploader *)
(* ------------------------------------------------------------------ *)

Lemma register_and_upload_run (R : remote) (a : attachmentTemplate)
      (buffer : string) (done : string -> attachResult) (h : list request) :
  let registered := (h ++ [PostItems (NewAttachment a)])%list in
  register_and_upload R a buffer done h =
  match items_post R h (NewAttachment a) with
  | inl e => (inl e, registered)
  | inr createResp =>
      match entity0 createResp with
      | inl e => (inl e, registered)
      | inr None =>
          (inr (attach_failed
                  ("Failed to create attachment item. API response: "
                   ++ post_json createResp) None),
           registered)
      | inr (Some key) =>
          let uploaded :=
            (registered ++ [UploadFile key (at_filename a) (at_contentType a) buffer])%list in
          match file_post R registered key (at_filename a) with
          | inl e => (inl e, uploaded)
          | inr uploadResp =>
              (inr (match uploadOk uploadResp with
                    | Some false =>
                        attach_failed
                          ("Attachment item created (" ++ key
                           ++ ") but file upload failed. Status: "
                           ++ show_status (uploadStatus uploadResp)
                           ++ ". Response: " ++ uploadBody uploadResp)
                          (Some key)
                    | _ => done key
                    end),
               uploaded)
          end
      end
  end.
Proof.
  unfold register_and_upload, bind, call, lift, ret. cbv beta zeta.
  destruct (items_post R h (NewAttachment a)) as [e | createResp]; [reflexivity |].
  destruct (entity0 createResp) as [e | [key |]]; try reflexivity.
  destruct (file_post R _ key (at_filename a)) as [e | uploadResp]; [reflexivity |].
  destruct (uploadOk uploadResp) as [[|] |]; reflexivity.
Qed.

(** No file is uploaded for an attachment that was not registered: when
    the store creates no attachment item, the registration is the last
    request sent. *)
Lemma unregistered_never_uploaded (R : remote) (a : attachmentTemplate)
      (buffer : string) (done : string -> attachResult) (h : list request) :
  (forall createResp key,
      items_post R h (NewAttachment a) = inr createResp ->
      entity0 createResp <> inr (Some key)) ->
  sent (register_and_upload R a buffer done) h
  = (h ++ [PostItems (NewAttachment a)])%list.
Proof.
  intros Hnone. unfold sent. rewrite register_and_upload_run. cbv zeta.
  destruct (items_post R h (NewAttachment a)) as [e | createResp] eqn:E;
    [reflexivity |].
  destruct (entity0 createResp) as [e | [key |]] eqn:E0; try reflexivity.
  exfalso. exact (Hnone createResp key eq_refl E0).
Qed.

(** Both attachment operations upload a file only under a key that the
    store has just handed out for the attachment item. *)
Lemma upload_follows_registration (R : remote) (a : attachmentTemplate)
      (buffer : string) (done : string -> attachResult) (h : list request) :
  exists added,
    sent (register_and_upload R a buffer done) h = (h ++ added)%list
    /\ forall key f c b,
        In (UploadFile key f c b) added ->
        exists createResp,
          items_post R h (NewAttachment a) = inr createResp
          /\ entity0 createResp = inr (Some key).
Proof.
  unfold sent. rewrite register_and_upload_run. cbv zeta.
  destruct (items_post R h (NewAttachment a)) as [e | createResp] eqn:E.
  - exists [PostItems (NewAttachment a)]. split; [reflexivity |].
    intros key f c b [H | []]. discriminate H.
  - destruct (entity0 createResp) as [e | [key |]] eqn:E0.
    + exists [PostItems (NewAttachment a)]. split; [reflexivity |].
      intros key f c b [H | []]. discriminate H.
    + exists [PostItems (NewAttachment a);
              UploadFile key (at_filename a) (at_contentType a) buffer].
      split.
      * destruct (file_post R _ key (at_filename a)); cbn [snd];
          now rewrite <- app_assoc.
      * intros key' f c b [H | [H | []]]; [discriminate H |].
        inversion H; subst. exists createResp. now split.
    + exists [PostItems (NewAttachment a)]. split; [reflexivity |].
      intros key f c b [H | []]. discriminate H.
Qed.

(** An upload that answers [ok: false] gives a failure that carries the
    key of the registered attachment. *)
Lemma refused_upload_keeps_key (R : remote) (a : attachmentTemplate)
      (buffer : string) (done : string -> attachResult) (h : list request)
      (createResp : postResp) (key : string) (uploadResp : option uploadResp) :
  items_post R h (NewAttachment a) = inr createResp ->
  entity0 createResp = inr (Some key) ->
  file_post R (h ++ [PostItems (NewAttachment a)])%list key (at_filename a)
  = inr uploadResp ->
  uploadOk uploadResp = Some false ->
  exists res,
    outcome (register_and_upload R a buffer done) h = inr res
    /\ a_success res = false
    /\ a_attachment_key res = Some key.
Proof.
  intros Hpost Hentity Hupload Hok. unfold outcome.
  rewrite register_and_upload_run. cbv zeta.
  rewrite Hpost, Hentity, Hupload, Hok. eexists. repeat split.
Qed.

(** C4 — an upload that fails by throwing loses the key.  Both operations
    register the attachment (the store answers with the key [NEWK0001])
    and send the file; the upload times out, and the failure returned
    carries no [attachment_key]. *)
Theorem thrown_upload_loses_key :
  (exists error,
      attachPdfFromUrl PlainURL.parse upload_timeout_store "AAAA1111"
                       "https://site.com/files/paper.pdf" None []
      = (inr (attach_failed error None),
         [Fetch "https://site.com/files/paper.pdf";
          PostItems (NewAttachment
                       {| at_parentItem := "AAAA1111"; at_title := "paper.pdf";
                          at_contentType := "application/pdf";
                          at_filename := "paper.pdf" |});
          UploadFile "NEWK0001" "paper.pdf" "application/pdf" "%PDF-1.4 paper"]))
  /\ (exists error,
         attachSnapshot PlainURL.parse upload_timeout_store "AAAA1111"
                        "https://site.com/post" None []
         = (inr (attach_failed error None),
            [Fetch "https://site.com/post";
             PostItems (NewAttachment
                          {| at_parentItem := "AAAA1111"; at_title := "A page";
                             at_contentType := "text/html";
                             at_filename := "A page.html" |});
             UploadFile "NEWK0001" "A page.html" "text/html"
                        "<html><head><title>A page</title></head><body>hi</body></html>"]))
  /\ a_attachment_key (attach_failed "" None) = None.
Proof. split; [| split]; [eexists; reflexivity | eexists; reflexivity | reflexivity]. Qed.

(* ------------------------------------------------------------------ *)
(** * Item writer *)
(* ------------------------------------------------------------------ *)

(** What is inside [try { } catch (err) { return ... }] never throws. *)
Lemma try_catch_total {A} (m : M A) (f : exn -> A) (h : list request) :
  exists a, outcome (try_catch m (fun e => ret (f e))) h = inr a.
Proof.
  unfold outcome, try_catch, ret.
  destruct (m h) as [[e | a] h']; eexists; reflexivity.
Qed.

(** An attachment operation whose URL unwraps returns a result. *)
Lemma attachPdfFromUrl_total (new_URL : string -> option URL) (R : remote)
      (parent url : string) (filename : option string) (h : list request) (u : string) :
  unwrapUrl new_URL url = inr u ->
  exists res, outcome (attachPdfFromUrl new_URL R parent url filename) h = inr res.
Proof.
  intros Hu. unfold attachPdfFromUrl, outcome.
  unfold bind at 1, lift at 1. rewrite Hu.
  apply (try_catch_total _ (fun err => attach_failed ("Failed to attach PDF: " ++ message err) None)).
Qed.

Lemma attachSnapshot_total (new_URL : string -> option URL) (R : remote)
      (parent url : string) (title : option string) (h : list request) (u : string) :
  unwrapUrl new_URL url = inr u ->
  exists res, outcome (attachSnapshot new_URL R parent url title) h = inr res.
Proof.
  intros Hu. unfold attachSnapshot, outcome.
  unfold bind at 1, lift at 1. rewrite Hu.
  apply (try_catch_total _ (fun err => attach_failed ("Failed to attach snapshot: " ++ message err) None)).
Qed.

(** Once the item is created, and provided the URL of the requested
    attachment unwraps, [createItem] reports success with the new key,
    whatever becomes of the attachment, whose own result is nested. *)
Lemma createItem_partial_success (new_URL : string -> option URL) (R : remote)
      (params : CreateItemParams) (h : list request)
      (t : template) (response : postResp) (itemKey : string) :
  let zoteroType := resolveItemType (default (cp_itemType params) "webpage") in
  let asked := (h ++ [GetTemplate zoteroType])%list in
  template_get R h zoteroType = inr t ->
  items_post R asked (NewItem (fill t params)) = inr response ->
  entity0 response = inr (Some itemKey) ->
  (forall url, requested_attachment params = Some url ->
               exists u, unwrapUrl new_URL url = inr u) ->
  exists res,
    outcome (createItem new_URL R params) h = inr res
    /\ success res = true
    /\ cr_item_key res = Some itemKey
    /\ (forall url, JS.or_null (cp_pdfUrl params) = Some url ->
                    pdf_attachment res <> None)
    /\ (JS.or_null (cp_pdfUrl params) = None ->
        forall url, JS.or_null (cp_snapshotUrl params) = Some url ->
                    snapshot_attachment res <> None).
Proof.
  intros zoteroType asked Ht Hpost Hentity Hunwrap.
  unfold outcome, createItem, getItemTemplate.
  fold zoteroType.
  unfold try_catch at 1, bind at 1 2, call at 1, ret at 1. cbv beta.
  rewrite Ht. cbv beta iota.
  unfold try_catch, bind at 1 2, call at 1, lift at 1. cbv beta.
  fold asked. rewrite Hpost, Hentity. cbv beta iota.
  unfold requested_attachment in Hunwrap.
  destruct (JS.or_null (cp_pdfUrl params)) as [pdfUrl |].
  - destruct (Hunwrap pdfUrl eq_refl) as (u & Hu).
    destruct (attachPdfFromUrl_total new_URL R itemKey pdfUrl None
                (asked ++ [PostItems (NewItem (fill t params))])%list u Hu)
      as (att & Hatt).
    unfold outcome in Hatt. unfold bind, ret.
    destruct (attachPdfFromUrl new_URL R itemKey pdfUrl None _) as [o h'].
    cbn [fst] in Hatt. subst o. cbn.
    eexists. split; [reflexivity |]. cbn. repeat split; try discriminate.
  - destruct (JS.or_null (cp_snapshotUrl params)) as [snapshotUrl |].
    + destruct (Hunwrap snapshotUrl eq_refl) as (u & Hu).
      destruct (attachSnapshot_total new_URL R itemKey snapshotUrl None
                  (asked ++ [PostItems (NewItem (fill t params))])%list u Hu)
        as (att & Hatt).
      unfold outcome in Hatt. unfold bind, ret.
      destruct (attachSnapshot new_URL R itemKey snapshotUrl None _) as [o h'].
      cbn [fst] in Hatt. subst o. cbn.
      eexists. split; [reflexivity |]. cbn. repeat split; try discriminate.
    + eexists. split; [reflexivity |]. cbn. repeat split; discriminate.
Qed.

(** C3 — a created item can still be reported as a failure.  The store
    creates the item (key [NEWK0001]); the PDF URL is the proxy URL on
    which [unwrapUrl] throws, ahead of the [try] of [attachPdfFromUrl];
    the exception lands in the [catch] of [createItem], which answers
    [{success: false, error: "URI malformed"}] without the key. *)
Theorem createItem_fails_after_persist :
  exists t response,
    items_post upload_timeout_store [GetTemplate (Str "webpage")] (NewItem t)
    = inr response
    /\ entity0 response = inr (Some "NEWK0001")
    /\ createItem PlainURL.parse upload_timeout_store save_with_proxied_pdf []
       = (inr (create_failed "URI malformed"),
          [GetTemplate (Str "webpage"); PostItems (NewItem t)])
    /\ success (create_failed "URI malformed") = false
    /\ cr_item_key (create_failed "URI malformed") = None.
Proof.
  exists [("itemType", TString "webpage"); ("title", TString "Half price");
          ("creators", TCreators []); ("url", TString "https://site.com/post");
          ("tags", TTags ["x"]); ("collections", TCollections [])],
         {| entity0 := inr (Some "NEWK0001"); post_json := "{}" |}.
  repeat split.
Qed.

(* ------------------------------------------------------------------ *)
(** * Library stats aggregator *)
(* ------------------------------------------------------------------ *)

(** [listTags] never throws: a failed query comes back as [{error}]. *)
Lemma listTags_total (R : remote) (limit offset : option Z) (h : list request) :
  exists page, outcome (listTags R limit offset) h = inr page.
Proof.
  unfold listTags.
  apply (try_catch_total _ (fun err => Failed (message err))).
Qed.

(** A failed item query fails the whole aggregation. *)
Lemma stats_fail_with_items (R : remote) (h : list request) (e : exn) :
  top_items_get R h None Package.stats_query = inl e ->
  outcome (Package.getLibraryStats R) h = inr (Failed (message e)).
Proof.
  intros H. unfold outcome, Package.getLibraryStats, try_catch.
  unfold bind at 1, Package.settled at 1, call at 1. rewrite H.
  unfold bind at 1, Package.settled at 1.
  destruct (listCollections R _) as [r2 h2].
  unfold bind at 1, Package.settled at 1.
  destruct (listTags R _ _ h2) as [r3 h3].
  reflexivity.
Qed.

(** A failed collection query fails the whole aggregation. *)
Lemma stats_fail_with_collections (R : remote) (h : list request)
      (itemsResp : multiResp) (e : exn) :
  top_items_get R h None Package.stats_query = inr itemsResp ->
  collections_get R (h ++ [GetTopItems None Package.stats_query])%list = inl e ->
  outcome (Package.getLibraryStats R) h = inr (Failed (message e)).
Proof.
  intros Hi Hc. unfold outcome, Package.getLibraryStats, try_catch.
  unfold bind at 1, Package.settled at 1, call at 1. rewrite Hi.
  unfold bind at 1, Package.settled at 1.
  unfold listCollections at 1, bind at 1, call at 1. rewrite Hc.
  unfold bind at 1, Package.settled at 1.
  destruct (listTags R _ _ _) as [r3 h3].
  reflexivity.
Qed.

(** C5 — a failed tag query does not fail the aggregation.  The item and
    collection queries succeed and the tag query fails; [listTags] turns
    the failure into [{error}], [getLibraryStats] reads [tags] off that
    object, finds none, and returns statistics with an empty tag section
    and no error. *)
Theorem stats_hide_failed_tags :
  tags_get tags_down_store [GetTopItems None Package.stats_query; GetCollections] 25 0
  = inl fetch_failed
  /\ Package.getLibraryStats tags_down_store []
     = (inr (Got {| Package.total_items := Num 3;
                    Package.total_collections := 1;
                    Package.total_tags := 0;
                    Package.collections := [(Some "COLL0001", Some "Papers")];
                    Package.top_tags := [];
                    Package.last_modified_item := Some ("A paper", None) |}),
        [GetTopItems None Package.stats_query; GetCollections; GetTags 25 0]).
Proof. split; reflexivity. Qed.
(* ------------------------------------------------------------------ *)
(** * Type resolver, continued *)
(* ------------------------------------------------------------------ *)

Lemma resolve_known (s : string) :
  known s ->
  exists v,
    get_property (JS.toLowerCase s) = Some (Str v)
    /\ JS.truthy v = true
    /\ In v (map snd ITEM_TYPE_MAP)
    /\ resolveItemType v = Str v.
Proof.
  unfold known, friendly, getItemTypes. cbn [map fst ITEM_TYPE_MAP In].
  intros H.
  repeat (destruct H as [H | H];
          [rewrite <- H; eexists; split; [reflexivity |];
           split; [reflexivity |]; split; [cbn; tauto | reflexivity] |]).
  contradiction.
Qed.

(** X1 — on every name whose lower case is a key of [ITEM_TYPE_MAP],
    [resolveItemType] is case-insensitive and idempotent: it returns a
    canonical name of the table, the same for every spelling with that
    lower case, and maps that name to itself. *)
Theorem resolveItemType_canonical (s : string) :
  known s ->
  exists v,
    resolveItemType s = Str v
    /\ In v (map snd ITEM_TYPE_MAP)
    /\ resolveItemType v = Str v
    /\ forall t, JS.toLowerCase t = JS.toLowerCase s -> resolveItemType t = Str v.
Proof.
  intros H. destruct (resolve_known s H) as (v & Hget & Htruthy & Hin & Hidem).
  exists v.
  assert (Hall : forall t, JS.toLowerCase t = JS.toLowerCase s ->
                           resolveItemType t = Str v).
  { intros t Ht. unfold resolveItemType. rewrite Ht, Hget.
    cbn [propval_truthy]. now rewrite Htruthy. }
  split; [now apply Hall |]. split; [exact Hin |]. split; [exact Hidem | exact Hall].
Qed.

Lemma resolveItemType_canonical_witness :
  known "Journal"
  /\ resolveItemType "Journal" = Str "journalArticle"
  /\ resolveItemType "JOURNAL" = Str "journalArticle"
  /\ resolveItemType "journalArticle" = Str "journalArticle".
Proof.
  assert (H : known "Journal") by (unfold known, friendly, getItemTypes; cbn; tauto).
  split; [exact H |].
  destruct (resolveItemType_canonical "Journal" H) as (v & Hv & _ & Hidem & Hall).
  assert (E : v = "journalArticle") by (cbn in Hv; now inversion Hv).
  subst v. split; [exact Hv |]. split; [| exact Hidem].
  apply Hall. reflexivity.
Defined.

(** X2 — a name that is not known, and whose lower case is none of the
    names every object inherits, is passed through as it was given:
    canonical names of the store that the table lacks reach the store
    unchanged. *)
Theorem resolveItemType_passes_unknown_names (x : string) :
  ~ known x ->
  mem_string (JS.toLowerCase x) OBJECT_PROTOTYPE = false ->
  resolveItemType x = Str x
  /\ show_propval (resolveItemType x) = x.
Proof.
  intros Hk Hp. rewrite (resolve_unknown x Hk Hp). now split.
Qed.

Lemma resolveItemType_passes_unknown_names_witness :
  resolveItemType "encyclopediaArticle" = Str "encyclopediaArticle"
  /\ show_propval (resolveItemType "encyclopediaArticle") = "encyclopediaArticle".
Proof.
  apply resolveItemType_passes_unknown_names; [| reflexivity].
  unfold known, friendly, getItemTypes. cbn. intros H.
  repeat (destruct H as [H | H]; [discriminate H |]). exact H.
Defined.

(* ------------------------------------------------------------------ *)
(** * URL unwrapper, continued *)
(* ------------------------------------------------------------------ *)

Lemma unwrap_scan_result (raw : string) (parsed : URL) (isWrapper : bool)
      (params : list string) (r : string) :
  unwrap_scan raw parsed isWrapper params = inr r ->
  r = raw
  \/ (is_http r = true
      /\ exists param candidate,
          In param params
          /\ searchParams_get (searchParams parsed) param = Some candidate
          /\ candidate <> EmptyString
          /\ URI.decodeURIComponent candidate = inr r).
Proof.
  induction params as [| param rest IH]; cbn [unwrap_scan]; intros H.
  - left. now inversion H.
  - assert (Hrest : unwrap_scan raw parsed isWrapper rest = inr r ->
                    r = raw
                    \/ (is_http r = true
                        /\ exists p c,
                            In p (param :: rest)
                            /\ searchParams_get (searchParams parsed) p = Some c
                            /\ c <> EmptyString
                            /\ URI.decodeURIComponent c = inr r)).
    { intros H'. destruct (IH H') as [-> | (Hh & p & c & Hp & Hrest)];
        [now left | right; split; [exact Hh | exists p, c; split; [now right | exact Hrest]]]. }
    destruct (searchParams_get (searchParams parsed) param) as [c |] eqn:E;
      [| now apply Hrest].
    destruct c as [| a c]; [now apply Hrest |]. cbn [JS.truthy negb] in H.
    destruct (URI.decodeURIComponent (String a c)) as [e | d] eqn:Ed;
      [discriminate H |].
    destruct (is_http d) eqn:Eh; [| now apply Hrest].
    assert (Hhit : @inr exn string d = inr r ->
                   r = raw
                   \/ (is_http r = true
                       /\ exists p c0,
                           In p (param :: rest)
                           /\ searchParams_get (searchParams parsed) p = Some c0
                           /\ c0 <> EmptyString
                           /\ URI.decodeURIComponent c0 = inr r)).
    { intros Hd. inversion Hd; subst. right. split; [exact Eh |].
      exists param, (String a c). repeat split; try assumption; [now left | discriminate]. }
    destruct isWrapper; [now apply Hhit |].
    destruct (2 <=? _)%nat; [now apply Hhit | now apply Hrest].
Qed.

(** X3 — whatever [unwrapUrl] returns is the input itself or an absolute
    http(s) URL that one of the six candidate parameters, not empty,
    decodes to. *)
Theorem unwrapUrl_returns_input_or_candidate
        (new_URL : string -> option URL) (raw r : string) :
  unwrapUrl new_URL raw = inr r ->
  r = raw
  \/ (is_http r = true
      /\ exists parsed param candidate,
          new_URL raw = Some parsed
          /\ In param URL_PARAM_NAMES
          /\ searchParams_get (searchParams parsed) param = Some candidate
          /\ candidate <> EmptyString
          /\ URI.decodeURIComponent candidate = inr r).
Proof.
  unfold unwrapUrl. destruct (new_URL raw) as [parsed |] eqn:E.
  - intros H. apply unwrap_scan_result in H as [-> | (Hh & p & c & Hrest)];
      [now left |].
    right. split; [exact Hh |]. exists parsed, p, c. now split.
  - intros H. left. now inversion H.
Qed.

Lemma unwrapUrl_returns_input_or_candidate_witness :
  unwrapUrl PlainURL.parse
            "https://proxy.example.com/pdfrenderer?url=https%3A%2F%2Fsite.com%2Fa.pdf"
  = inr "https://site.com/a.pdf"
  /\ ("https://site.com/a.pdf"
      = "https://proxy.example.com/pdfrenderer?url=https%3A%2F%2Fsite.com%2Fa.pdf"
      \/ (is_http "https://site.com/a.pdf" = true
          /\ exists parsed param candidate,
              PlainURL.parse
                "https://proxy.example.com/pdfrenderer?url=https%3A%2F%2Fsite.com%2Fa.pdf"
              = Some parsed
              /\ In param URL_PARAM_NAMES
              /\ searchParams_get (searchParams parsed) param = Some candidate
              /\ candidate <> EmptyString
              /\ URI.decodeURIComponent candidate = inr "https://site.com/a.pdf")).
Proof.
  split; [reflexivity |].
  apply (unwrapUrl_returns_input_or_candidate
           PlainURL.parse
           "https://proxy.example.com/pdfrenderer?url=https%3A%2F%2Fsite.com%2Fa.pdf"
           "https://site.com/a.pdf").
  reflexivity.
Defined.

Lemma unwrap_scan_without_candidates (raw : string) (parsed : URL)
      (isWrapper : bool) (params : list string) :
  (forall param, In param params ->
                 JS.or_null (searchParams_get (searchParams parsed) param) = None) ->
  unwrap_scan raw parsed isWrapper params = inr raw.
Proof.
  induction params as [| param rest IH]; intros H; cbn [unwrap_scan];
    [reflexivity |].
  assert (Hrest : unwrap_scan raw parsed isWrapper rest = inr raw).
  { apply IH. intros p Hp. apply H. now right. }
  specialize (H param (or_introl eq_refl)). unfold JS.or_null in H.
  destruct (searchParams_get (searchParams parsed) param) as [c |]; [| exact Hrest].
  destruct (JS.truthy c); [discriminate H | exact Hrest].
Qed.

(** X4 — an address that does not parse, or that parses and carries none
    of the six candidate parameters (or carries them empty), comes back
    from [unwrapUrl] as it was given, and nothing is thrown. *)
Theorem unwrapUrl_keeps_plain_urls (new_URL : string -> option URL) (raw : string) :
  (forall parsed param,
      new_URL raw = Some parsed ->
      In param URL_PARAM_NAMES ->
      JS.or_null (searchParams_get (searchParams parsed) param) = None) ->
  unwrapUrl new_URL raw = inr raw.
Proof.
  intros H. unfold unwrapUrl.
  destruct (new_URL raw) as [parsed |] eqn:E; [| reflexivity].
  apply unwrap_scan_without_candidates. intros param Hp. now apply (H parsed).
Qed.

Lemma unwrapUrl_keeps_plain_urls_witness :
  unwrapUrl PlainURL.parse "https://site.com/files/paper.pdf?download=1&url="
  = inr "https://site.com/files/paper.pdf?download=1&url=".
Proof.
  apply unwrapUrl_keeps_plain_urls.
  intros parsed param Hparse Hin. inversion Hparse; subst. cbn in Hin.
  repeat (destruct Hin as [<- | Hin]; [reflexivity |]).
  contradiction.
Defined.

(* ------------------------------------------------------------------ *)
(** * Listings, continued *)
(* ------------------------------------------------------------------ *)

Lemma or_else_nonempty (a : option string) (b : string) :
  b <> EmptyString -> JS.or_else a b <> EmptyString.
Proof.
  intros Hb. unfold JS.or_else. destruct a as [[| c s] |]; cbn; try exact Hb.
  discriminate.
Qed.

Lemma or_null_nonempty (a : option string) : JS.or_null a <> Some EmptyString.
Proof. destruct a as [[| c s] |]; cbn; discriminate. Qed.

(** X5 — in an item summary the title is never empty (it falls back to
    [(untitled)]), and the creators, the date and the url are [null]
    rather than an empty string; the summary lists as many tags as the
    item has. *)
Theorem summary_falls_back (raw : rawItem) :
  s_title (formatItemSummary raw) <> EmptyString
  /\ s_creators (formatItemSummary raw) <> Some EmptyString
  /\ s_date (formatItemSummary raw) <> Some EmptyString
  /\ s_url (formatItemSummary raw) <> Some EmptyString
  /\ List.length (s_tags (formatItemSummary raw))
     = List.length (or_nil (d_tags (data_or_self raw))).
Proof.
  unfold formatItemSummary. cbn [s_title s_creators s_date s_url s_tags].
  repeat split; try apply or_null_nonempty.
  - apply or_else_nonempty. discriminate.
  - apply length_map.
Qed.

(** X6 — [searchItems], in both copies, sends one request and no more.  If
    the store fails it, the result is [{error}] with the store's message;
    otherwise the result holds no more items than the store sent, echoes
    [limit] and [offset] (25 and 0 when not given), and without a
    [Total-Results] header reports the number of items it returns. *)
Theorem searchItems_one_request (R : remote) (with_qmode : bool)
        (params : SearchParams) (h : list request) :
  exists query,
    let collection := JS.or_null (sp_collectionId params) in
    sent (searchItems_gen R with_qmode params) h
    = (h ++ [GetTopItems collection query])%list
    /\ match top_items_get R h collection query with
       | inl e => outcome (searchItems_gen R with_qmode params) h
                  = inr (Failed (message e))
       | inr resp =>
           exists l,
             outcome (searchItems_gen R with_qmode params) h = inr (Got l)
             /\ (List.length (items l) <= List.length (or_nil (m_raw resp)))%nat
             /\ l_limit l = default (sp_limit params) 25%Z
             /\ l_offset l = default (sp_offset params) 0%Z
             /\ (JS.or_null (m_total_results resp) = None ->
                 totalResults l = Num (Z.of_nat (List.length (items l))))
       end.
Proof.
  unfold sent, outcome, searchItems_gen, try_catch, bind, call, ret. cbv beta.
  eexists. cbv zeta. split.
  - destruct (top_items_get R h _ _); reflexivity.
  - destruct (top_items_get R h _ _) as [e | resp]; [reflexivity |].
    eexists. split; [reflexivity |]. cbn [items l_limit l_offset totalResults].
    split; [| split; [reflexivity | split; [reflexivity |]]].
    + unfold listed. rewrite length_map. apply filter_length_le.
    + intros Hnone. unfold total_of. now rewrite Hnone.
Qed.

(* ------------------------------------------------------------------ *)
(** * Attachment uploader, continued *)
(* ------------------------------------------------------------------ *)

Lemma attachPdfFromUrl_run (new_URL : string -> option URL) (R : remote)
      (parent url : string) (filename : option string) (h : list request) :
  attachPdfFromUrl new_URL R parent url filename h =
  match unwrapUrl new_URL url with
  | inl e => (inl e, h)
  | inr u =>
      let fetched := (h ++ [Fetch u])%list in
      let failed e := attach_failed ("Failed to attach PDF: " ++ message e) None in
      match fetch R h u with
      | inl e => (inr (failed e), fetched)
      | inr response =>
          if negb (http_ok (h_status response)) then
            (inr (attach_failed
                    ("Failed to download PDF: HTTP " ++ string_of_Z (h_status response)
                     ++ " " ++ h_statusText response) None), fetched)
          else
            match h_body response with
            | inl e => (inr (failed e), fetched)
            | inr buffer =>
                if (String.length buffer =? 0)%nat then
                  (inr (attach_failed "Downloaded PDF is empty (0 bytes)" None), fetched)
                else
                  let name :=
                    match JS.or_null filename with
                    | Some f => f
                    | None => derived_pdf_name (h_content_disposition response) u
                    end in
                  let run :=
                    register_and_upload R
                      {| at_parentItem := parent; at_title := name;
                         at_contentType := "application/pdf"; at_filename := name |}
                      buffer
                      (fun key =>
                         {| a_success := true; a_error := None;
                            a_attachment_key := Some key; a_filename := Some name;
                            a_title := None;
                            a_size_bytes := Some (String.length buffer) |})
                      fetched in
                  (inr (match fst run with
                        | inl e => failed e
                        | inr res => res
                        end), snd run)
            end
      end
  end.
Proof.
  unfold attachPdfFromUrl. unfold bind at 1, lift at 1.
  destruct (unwrapUrl new_URL url) as [e | u]; [reflexivity |].
  unfold try_catch, bind at 1, call at 1. cbv beta zeta.
  destruct (fetch R h u) as [e | response]; [reflexivity |].
  destruct (negb (http_ok (h_status response))); [reflexivity |].
  unfold bind at 1, lift at 1.
  destruct (h_body response) as [e | buffer]; [reflexivity |].
  destruct (String.length buffer =? 0)%nat; [reflexivity |].
  destruct (register_and_upload R _ buffer _ _) as [[e | res] t]; reflexivity.
Qed.

Lemma attachSnapshot_run (new_URL : string -> option URL) (R : remote)
      (parent url : string) (title : option string) (h : list request) :
  attachSnapshot new_URL R parent url title h =
  match unwrapUrl new_URL url with
  | inl e => (inl e, h)
  | inr u =>
      let fetched := (h ++ [Fetch u])%list in
      let failed e := attach_failed ("Failed to attach snapshot: " ++ message e) None in
      match fetch R h u with
      | inl e => (inr (failed e), fetched)
      | inr response =>
          if negb (http_ok (h_status response)) then
            (inr (attach_failed
                    ("Failed to fetch page: HTTP " ++ string_of_Z (h_status response)
                     ++ " " ++ h_statusText response) None), fetched)
          else
            match h_body response with
            | inl e => (inr (failed e), fetched)
            | inr html =>
                if negb (JS.truthy html) then
                  (inr (attach_failed "Fetched page is empty (0 bytes)" None), fetched)
                else
                  let name :=
                    match JS.or_null title with
                    | Some t => t
                    | None =>
                        match match_title html with
                        | Some t => JS.trim t
                        | None => u
                        end
                    end in
                  let run :=
                    register_and_upload R
                      {| at_parentItem := parent; at_title := name;
                         at_contentType := "text/html";
                         at_filename := safeName name ++ ".html" |}
                      html
                      (fun key =>
                         {| a_success := true; a_error := None;
                            a_attachment_key := Some key;
                            a_filename := Some (safeName name ++ ".html");
                            a_title := Some name;
                            a_size_bytes := Some (String.length html) |})
                      fetched in
                  (inr (match fst run with
                        | inl e => failed e
                        | inr res => res
                        end), snd run)
            end
      end
  end.
Proof.
  unfold attachSnapshot. unfold bind at 1, lift at 1.
  destruct (unwrapUrl new_URL url) as [e | u]; [reflexivity |].
  unfold try_catch, bind at 1, call at 1. cbv beta zeta.
  destruct (fetch R h u) as [e | response]; [reflexivity |].
  destruct (negb (http_ok (h_status response))); [reflexivity |].
  unfold bind at 1, lift at 1.
  destruct (h_body response) as [e | html]; [reflexivity |].
  destruct (negb (JS.truthy html)); [reflexivity |].
  destruct (register_and_upload R _ html _ _) as [[e | res] t]; reflexivity.
Qed.

(** X7 — when the download gives no file, both attachment operations fail
    without a key and send nothing to the store: the fetch is the only
    request. *)
Theorem failed_download_registers_nothing
        (new_URL : string -> option URL) (R : remote)
        (parent url u : string) (h : list request) :
  unwrapUrl new_URL url = inr u ->
  no_file (fetch R h u) ->
  (forall filename,
      exists res,
        attachPdfFromUrl new_URL R parent url filename h
        = (inr res, (h ++ [Fetch u])%list)
        /\ a_success res = false /\ a_attachment_key res = None)
  /\ (forall title,
         exists res,
           attachSnapshot new_URL R parent url title h
           = (inr res, (h ++ [Fetch u])%list)
           /\ a_success res = false /\ a_attachment_key res = None).
Proof.
  intros Hu Hno. unfold no_file in Hno. split.
  - intros filename. rewrite attachPdfFromUrl_run, Hu. cbv zeta.
    destruct (fetch R h u) as [e | response]; [eexists; repeat split |].
    destruct Hno as [Hok | Hbody].
    + rewrite Hok. cbn [negb]. eexists. repeat split.
    + destruct (negb (http_ok (h_status response))); [eexists; repeat split |].
      destruct (h_body response) as [e | body]; [eexists; repeat split |].
      subst body. cbn. eexists. repeat split.
  - intros title. rewrite attachSnapshot_run, Hu. cbv zeta.
    destruct (fetch R h u) as [e | response]; [eexists; repeat split |].
    destruct Hno as [Hok | Hbody].
    + rewrite Hok. cbn [negb]. eexists. repeat split.
    + destruct (negb (http_ok (h_status response))); [eexists; repeat split |].
      destruct (h_body response) as [e | body]; [eexists; repeat split |].
      subst body. cbn. eexists. repeat split.
Qed.

Lemma failed_download_registers_nothing_witness :
  unwrapUrl PlainURL.parse "https://site.com/files/paper.pdf"
  = inr "https://site.com/files/paper.pdf"
  /\ no_file (fetch missing_file_store [] "https://site.com/files/paper.pdf")
  /\ exists res,
      attachPdfFromUrl PlainURL.parse missing_file_store "AAAA1111"
                       "https://site.com/files/paper.pdf" None []
      = (inr res, [Fetch "https://site.com/files/paper.pdf"])
      /\ a_success res = false /\ a_attachment_key res = None.
Proof.
  split; [reflexivity |]. split; [left; reflexivity |].
  exact (proj1 (failed_download_registers_nothing
                  PlainURL.parse missing_file_store "AAAA1111"
                  "https://site.com/files/paper.pdf"
                  "https://site.com/files/paper.pdf" []
                  eq_refl (or_introl eq_refl))
               None).
Defined.

Lemma register_uploads_follow (R : remote) (a : attachmentTemplate)
      (buffer : string) (done : string -> attachResult) (h : list request) :
  exists added,
    snd (register_and_upload R a buffer done h) = (h ++ added)%list
    /\ uploads_follow_registration R (at_parentItem a) added.
Proof.
  rewrite register_and_upload_run. cbv zeta.
  assert (Hnone : uploads_follow_registration R (at_parentItem a)
                                               [PostItems (NewAttachment a)]).
  { intros key f c b [H | []]. discriminate H. }
  destruct (items_post R h (NewAttachment a)) as [e | createResp] eqn:E;
    [exists [PostItems (NewAttachment a)]; now split |].
  destruct (entity0 createResp) as [e | [key |]] eqn:E0;
    try (exists [PostItems (NewAttachment a)]; now split).
  exists [PostItems (NewAttachment a);
          UploadFile key (at_filename a) (at_contentType a) buffer].
  split.
  - destruct (file_post R _ key (at_filename a)); cbn [snd];
      now rewrite <- app_assoc.
  - intros key' f c b [H | [H | []]]; [discriminate H |].
    inversion H; subst. exists h, a, createResp.
    repeat split; try assumption. now left.
Qed.

Lemma uploads_follow_cons (R : remote) (parent : string) (rq : request)
      (added : list request) :
  (forall key f c b, rq <> UploadFile key f c b) ->
  uploads_follow_registration R parent added ->
  uploads_follow_registration R parent (rq :: added).
Proof.
  intros Hrq H key f c b [E | Hin]; [exfalso; exact (Hrq _ _ _ _ E) |].
  destruct (H key f c b Hin) as (before & a & resp & H1 & H2 & H3 & H4).
  exists before, a, resp. repeat split; try assumption; try apply H4. now right.
Qed.

(** X8 — neither attachment operation ever uploads a file for an
    attachment the store has not registered: every upload it sends goes
    under the key the store has just handed out for an attachment item of
    the same parent, file name and content type. *)
Theorem uploads_only_after_registration
        (new_URL : string -> option URL) (R : remote)
        (parent url : string) (given : option string) (h : list request) :
  (exists added,
      sent (attachPdfFromUrl new_URL R parent url given) h = (h ++ added)%list
      /\ uploads_follow_registration R parent added)
  /\ (exists added,
         sent (attachSnapshot new_URL R parent url given) h = (h ++ added)%list
         /\ uploads_follow_registration R parent added).
Proof.
  assert (Hnil : uploads_follow_registration R parent []) by (intros ? ? ? ? []).
  assert (Hfetch : forall u, uploads_follow_registration R parent [Fetch u]).
  { intros u. apply uploads_follow_cons; [discriminate | exact Hnil]. }
  unfold sent. split.
  - rewrite attachPdfFromUrl_run.
    destruct (unwrapUrl new_URL url) as [e | u];
      [exists []; split; [now rewrite app_nil_r | exact Hnil] |].
    cbv zeta.
    destruct (fetch R h u) as [e | response];
      [exists [Fetch u]; now split |].
    destruct (negb (http_ok (h_status response)));
      [exists [Fetch u]; now split |].
    destruct (h_body response) as [e | buffer];
      [exists [Fetch u]; now split |].
    destruct (String.length buffer =? 0)%nat;
      [exists [Fetch u]; now split |].
    cbn [snd].
    match goal with
    | |- context [register_and_upload R ?a ?b ?d ?h0] =>
        destruct (register_uploads_follow R a b d h0) as (added & -> & Hadded)
    end.
    exists (Fetch u :: added). split; [now rewrite <- app_assoc |].
    apply uploads_follow_cons; [discriminate | exact Hadded].
  - rewrite attachSnapshot_run.
    destruct (unwrapUrl new_URL url) as [e | u];
      [exists []; split; [now rewrite app_nil_r | exact Hnil] |].
    cbv zeta.
    destruct (fetch R h u) as [e | response];
      [exists [Fetch u]; now split |].
    destruct (negb (http_ok (h_status response)));
      [exists [Fetch u]; now split |].
    destruct (h_body response) as [e | html];
      [exists [Fetch u]; now split |].
    destruct (negb (JS.truthy html));
      [exists [Fetch u]; now split |].
    cbn [snd].
    match goal with
    | |- context [register_and_upload R ?a ?b ?d ?h0] =>
        destruct (register_uploads_follow R a b d h0) as (added & -> & Hadded)
    end.
    exists (Fetch u :: added). split; [now rewrite <- app_assoc |].
    apply uploads_follow_cons; [discriminate | exact Hadded].
Qed.

Lemma register_success (R : remote) (a : attachmentTemplate) (buffer : string)
      (done : string -> attachResult) (h : list request) (res : attachResult) :
  (forall key, a_success (done key) = true /\ a_attachment_key (done key) = Some key) ->
  fst (register_and_upload R a buffer done h) = inr res ->
  a_success res = true ->
  exists key,
    res = done key
    /\ snd (register_and_upload R a buffer done h)
       = (h ++ [PostItems (NewAttachment a);
                UploadFile key (at_filename a) (at_contentType a) buffer])%list.
Proof.
  intros Hdone. rewrite register_and_upload_run. cbv zeta.
  destruct (items_post R h (NewAttachment a)) as [e | createResp];
    [discriminate |].
  destruct (entity0 createResp) as [e | [key |]]; [discriminate | |].
  - destruct (file_post R _ key (at_filename a)) as [e | up]; [discriminate |].
    cbn [fst snd]. intros H Hs. inversion H; subst; clear H.
    exists key. rewrite <- app_assoc. split; [| reflexivity].
    destruct (uploadOk up) as [[|] |]; try reflexivity. discriminate Hs.
  - cbn [fst]. intros H Hs. inversion H; subst. discriminate Hs.
Qed.

(** X9 — a result with [success: true] means both phases took place: the
    operation fetched the file, registered the attachment item and sent
    the fetched content for upload under the key it reports, in that
    order and with nothing else sent; [size_bytes] is the size of what
    was uploaded. *)
Theorem attach_success_means_uploaded
        (new_URL : string -> option URL) (R : remote)
        (parent url : string) (given : option string) (h : list request)
        (res : attachResult) :
  a_success res = true ->
  outcome (attachPdfFromUrl new_URL R parent url given) h = inr res
  \/ outcome (attachSnapshot new_URL R parent url given) h = inr res ->
  exists u key a body,
    unwrapUrl new_URL url = inr u
    /\ (sent (attachPdfFromUrl new_URL R parent url given) h
        = (h ++ [Fetch u; PostItems (NewAttachment a);
                 UploadFile key (at_filename a) (at_contentType a) body])%list
        \/ sent (attachSnapshot new_URL R parent url given) h
           = (h ++ [Fetch u; PostItems (NewAttachment a);
                    UploadFile key (at_filename a) (at_contentType a) body])%list)
    /\ at_parentItem a = parent
    /\ a_attachment_key res = Some key
    /\ a_filename res = Some (at_filename a)
    /\ a_size_bytes res = Some (String.length body).
Proof.
  intros Hs [H | H]; revert H; unfold outcome, sent.
  - rewrite attachPdfFromUrl_run.
    destruct (unwrapUrl new_URL url) as [e | u]; [discriminate |]. cbv zeta.
    destruct (fetch R h u) as [e | response];
      [intros H; inversion H; subst; discriminate Hs |].
    destruct (negb (http_ok (h_status response)));
      [intros H; inversion H; subst; discriminate Hs |].
    destruct (h_body response) as [e | buffer];
      [intros H; inversion H; subst; discriminate Hs |].
    destruct (String.length buffer =? 0)%nat;
      [intros H; inversion H; subst; discriminate Hs |].
    cbn [fst snd].
    match goal with
    | |- context [register_and_upload R ?a ?b ?d ?h0] =>
        pose proof (register_success R a b d h0) as Hreg;
        destruct (register_and_upload R a b d h0) as [[e | r] t]
    end; cbn [fst snd] in *; intros H; inversion H; subst;
      [discriminate Hs |].
    destruct (Hreg res (fun key => conj eq_refl eq_refl) eq_refl Hs)
      as (key & -> & ->).
    do 4 eexists. split; [reflexivity |].
    split; [left; rewrite <- app_assoc; reflexivity |].
    repeat split.
  - rewrite attachSnapshot_run.
    destruct (unwrapUrl new_URL url) as [e | u]; [discriminate |]. cbv zeta.
    destruct (fetch R h u) as [e | response];
      [intros H; inversion H; subst; discriminate Hs |].
    destruct (negb (http_ok (h_status response)));
      [intros H; inversion H; subst; discriminate Hs |].
    destruct (h_body response) as [e | html];
      [intros H; inversion H; subst; discriminate Hs |].
    destruct (negb (JS.truthy html));
      [intros H; inversion H; subst; discriminate Hs |].
    cbn [fst snd].
    match goal with
    | |- context [register_and_upload R ?a ?b ?d ?h0] =>
        pose proof (register_success R a b d h0) as Hreg;
        destruct (register_and_upload R a b d h0) as [[e | r] t]
    end; cbn [fst snd] in *; intros H; inversion H; subst;
      [discriminate Hs |].
    destruct (Hreg res (fun key => conj eq_refl eq_refl) eq_refl Hs)
      as (key & -> & ->).
    do 4 eexists. split; [reflexivity |].
    split; [right; rewrite <- app_assoc; reflexivity |].
    repeat split.
Qed.

Lemma attach_success_means_uploaded_witness :
  let res := {| a_success := true; a_error := None;
                a_attachment_key := Some "NEWK0001";
                a_filename := Some "paper.pdf"; a_title := None;
                a_size_bytes := Some 14%nat |} in
  outcome (attachPdfFromUrl PlainURL.parse archive_store "AAAA1111"
                            "https://site.com/files/paper.pdf" None) []
  = inr res
  /\ exists u key a body,
      unwrapUrl PlainURL.parse "https://site.com/files/paper.pdf" = inr u
      /\ (sent (attachPdfFromUrl PlainURL.parse archive_store "AAAA1111"
                                 "https://site.com/files/paper.pdf" None) []
          = ([] ++ [Fetch u; PostItems (NewAttachment a);
                    UploadFile key (at_filename a) (at_contentType a) body])%list
          \/ sent (attachSnapshot PlainURL.parse archive_store "AAAA1111"
                                  "https://site.com/files/paper.pdf" None) []
             = ([] ++ [Fetch u; PostItems (NewAttachment a);
                       UploadFile key (at_filename a) (at_contentType a) body])%list)
      /\ at_parentItem a = "AAAA1111"
      /\ a_attachment_key res = Some key
      /\ a_filename res = Some (at_filename a)
      /\ a_size_bytes res = Some (String.length body).
Proof.
  intros res. split; [reflexivity |].
  exact (attach_success_means_uploaded
           PlainURL.parse archive_store "AAAA1111"
           "https://site.com/files/paper.pdf" None [] res eq_refl
           (or_introl eq_refl)).
Defined.

(* ------------------------------------------------------------------ *)
(** * File names *)
(* ------------------------------------------------------------------ *)

Lemma prefix_one (c a : ascii) (s : string) :
  String.prefix (String c EmptyString) (String a s) = Ascii.eqb c a.
Proof.
  cbn. destruct (ascii_dec c a) as [-> | ne].
  - rewrite Ascii.eqb_refl. now destruct s.
  - symmetry. now apply Ascii.eqb_neq.
Qed.

Lemma includes_one_cons (c a : ascii) (s : string) :
  JS.includes (String a s) (String c EmptyString) = Ascii.eqb c a || JS.includes s (String c EmptyString).
Proof. cbn [JS.includes]. now rewrite prefix_one. Qed.

Lemma includes_one_app (c a : ascii) (s : string) :
  JS.includes (s ++ String a EmptyString) (String c EmptyString) = JS.includes s (String c EmptyString) || Ascii.eqb c a.
Proof.
  induction s as [| b s IH].
  - cbn [append]. rewrite includes_one_cons. cbn. now rewrite orb_false_r.
  - cbn [append]. rewrite !includes_one_cons, IH. now rewrite orb_assoc.
Qed.

(** The pieces of a split on [sep] hold no [c] when the string holds
    none, or when [c] is the separator. *)
Lemma split_pieces_without (sep c : ascii) (s cur : string) :
  JS.includes cur (String c EmptyString) = false ->
  JS.includes s (String c EmptyString) = false \/ c = sep ->
  Forall (fun piece => JS.includes piece (String c EmptyString) = false)
         (JS.split_aux (String sep EmptyString) s 0 cur).
Proof.
  revert cur. induction s as [| a s IH]; intros cur Hcur Hs.
  - cbn. now constructor.
  - cbn [JS.split_aux]. rewrite prefix_one.
    assert (Htail : JS.includes s (String c EmptyString) = false \/ c = sep).
    { destruct Hs as [Hs | ->]; [left | now right].
      rewrite includes_one_cons in Hs. now apply orb_false_elim in Hs. }
    destruct (Ascii.eqb sep a) eqn:E.
    + cbn [String.length Nat.sub]. constructor; [exact Hcur |].
      apply IH; [reflexivity | exact Htail].
    + apply IH; [| exact Htail].
      rewrite includes_one_app, Hcur. cbn [orb].
      destruct Hs as [Hs | ->]; [| exact E].
      rewrite includes_one_cons in Hs. now apply orb_false_elim in Hs.
Qed.

Lemma split_without (sep c : ascii) (s : string) :
  JS.includes s (String c EmptyString) = false \/ c = sep ->
  Forall (fun piece => JS.includes piece (String c EmptyString) = false) (JS.split s (String sep EmptyString)).
Proof. apply split_pieces_without. reflexivity. Qed.

Lemma last_Forall {A} (P : A -> Prop) (l : list A) (d : A) :
  Forall P l -> P d -> P (last l d).
Proof.
  induction 1 as [| x l Hx Hl IH]; intros Hd; [exact Hd |].
  cbn [last]. destruct l; [exact Hx | now apply IH].
Qed.

Lemma hd_Forall {A} (P : A -> Prop) (l : list A) (d : A) :
  Forall P l -> P d -> P (hd d l).
Proof. intros [| x l' Hx _] Hd; [exact Hd | exact Hx]. Qed.

(** X10 — without a file name from the caller or from [Content-Disposition],
    the name a PDF is stored under ends in [.pdf] and holds neither a
    [/] nor a [?]. *)
Theorem derived_pdf_name_is_a_pdf_name (cd : option string) (pdfUrl : string) :
  JS.includes (JS.or_else cd "") "filename=" = false ->
  JS.endsWith (derived_pdf_name cd pdfUrl) ".pdf" = true
  /\ JS.includes (derived_pdf_name cd pdfUrl) "/" = false
  /\ JS.includes (derived_pdf_name cd pdfUrl) "?" = false.
Proof.
  intros Hcd. unfold derived_pdf_name. rewrite Hcd.
  set (segment := JS.pop (JS.split pdfUrl "/")).
  set (name := hd EmptyString (JS.split segment "?")).
  destruct (JS.endsWith name ".pdf") eqn:E; [| repeat split].
  assert (Hseg : JS.includes segment (String "/" EmptyString) = false).
  { unfold segment, JS.pop.
    apply (last_Forall (fun p => JS.includes p (String "/" EmptyString) = false));
      [apply (split_without "/" "/"); now right | reflexivity]. }
  split; [exact E | split].
  - unfold name.
    apply (hd_Forall (fun p => JS.includes p (String "/" EmptyString) = false));
      [apply (split_without "?" "/"); now left | reflexivity].
  - unfold name.
    apply (hd_Forall (fun p => JS.includes p (String "?" EmptyString) = false));
      [apply (split_without "?" "?"); now right | reflexivity].
Qed.

(** The name is cut from what follows the last [/] of the whole address,
    its query included. *)
Lemma derived_pdf_name_is_a_pdf_name_witness :
  JS.includes (JS.or_else None "") "filename=" = false
  /\ derived_pdf_name None "https://site.com/files/paper.pdf?download=1" = "paper.pdf"
  /\ derived_pdf_name None "https://x.com/files/a.pdf?next=/home/z.pdf" = "z.pdf"
  /\ derived_pdf_name None "https://x.com/files/a.pdf?next=/home" = "attachment.pdf"
  /\ JS.endsWith (derived_pdf_name None "https://x.com/files/a.pdf?next=/home/z.pdf")
                 ".pdf" = true.
Proof.
  split; [reflexivity |]. split; [reflexivity |]. split; [reflexivity |].
  split; [reflexivity |].
  exact (proj1 (derived_pdf_name_is_a_pdf_name
                  None "https://x.com/files/a.pdf?next=/home/z.pdf" eq_refl)).
Defined.

Lemma take_length (n : nat) (s : string) : (String.length (JS.take n s) <= n)%nat.
Proof.
  revert s. induction n as [| n IH]; intros [| c s]; cbn; try lia.
  specialize (IH s). lia.
Qed.

Lemma take_all_chars (p : ascii -> bool) (n : nat) (s : string) :
  PlainURL.all_chars p s = true -> PlainURL.all_chars p (JS.take n s) = true.
Proof.
  revert s. induction n as [| n IH]; intros [| c s]; cbn; try reflexivity.
  intros H. apply andb_prop in H as [Hc Hs]. now rewrite Hc, IH.
Qed.

Lemma trimStart_length (s : string) :
  (String.length (JS.trimStart s) <= String.length s)%nat.
Proof.
  induction s as [| c s IH]; cbn; [lia |].
  destruct (JS.is_space c); cbn; lia.
Qed.

Lemma trimStart_all_chars (p : ascii -> bool) (s : string) :
  PlainURL.all_chars p s = true -> PlainURL.all_chars p (JS.trimStart s) = true.
Proof.
  induction s as [| c s IH]; cbn [JS.trimStart]; [reflexivity |].
  intros H. destruct (JS.is_space c); [| exact H].
  cbn in H. apply andb_prop in H as [_ Hs]. now apply IH.
Qed.

Lemma trimEnd_length (s : string) :
  (String.length (JS.trimEnd s) <= String.length s)%nat.
Proof.
  induction s as [| c s IH]; cbn [JS.trimEnd]; [cbn; lia |].
  destruct (JS.trimEnd s) as [| a t]; [destruct (JS.is_space c) |]; cbn in *; lia.
Qed.

Lemma trimEnd_all_chars (p : ascii -> bool) (s : string) :
  PlainURL.all_chars p s = true -> PlainURL.all_chars p (JS.trimEnd s) = true.
Proof.
  induction s as [| c s IH]; cbn [JS.trimEnd]; [reflexivity |].
  intros H. cbn in H. apply andb_prop in H as [Hc Hs]. specialize (IH Hs).
  destruct (JS.trimEnd s) as [| a t].
  - destruct (JS.is_space c); cbn; [reflexivity | now rewrite Hc].
  - change (p c && PlainURL.all_chars p (String a t) = true). now rewrite Hc, IH.
Qed.

Lemma remove_chars_all (drop : ascii -> bool) (s : string) :
  PlainURL.all_chars (fun c => negb (drop c)) (JS.remove_chars drop s) = true.
Proof.
  induction s as [| c s IH]; cbn [JS.remove_chars]; [reflexivity |].
  destruct (drop c) eqn:E; [exact IH |].
  cbn [PlainURL.all_chars]. now rewrite E, IH.
Qed.

(** X11 — for a page title of ASCII characters, the file name of a
    snapshot is built from a name that is never empty, is at most 80
    characters long and holds nothing but letters, digits, [_], [-], [.]
    and white space. *)
Theorem safeName_is_safe (title : string) :
  ascii_only title = true ->
  safeName title <> EmptyString
  /\ (String.length (safeName title) <= 80)%nat
  /\ PlainURL.all_chars (fun c => negb (unsafe_char c)) (safeName title) = true.
Proof.
  intros _. unfold safeName.
  set (kept := JS.trim (JS.take 80 (JS.remove_chars unsafe_char title))).
  assert (Hlen : (String.length kept <= 80)%nat).
  { unfold kept, JS.trim.
    pose proof (trimEnd_length (JS.trimStart (JS.take 80 (JS.remove_chars unsafe_char title)))).
    pose proof (trimStart_length (JS.take 80 (JS.remove_chars unsafe_char title))).
    pose proof (take_length 80 (JS.remove_chars unsafe_char title)). lia. }
  assert (Hsafe : PlainURL.all_chars (fun c => negb (unsafe_char c)) kept = true).
  { unfold kept, JS.trim.
    apply trimEnd_all_chars, trimStart_all_chars, take_all_chars, remove_chars_all. }
  unfold JS.or_else. destruct kept as [| c k]; cbn [JS.truthy].
  - repeat split; [discriminate | cbn; lia].
  - repeat split; [discriminate | exact Hlen | exact Hsafe].
Qed.

Lemma safeName_is_safe_witness :
  safeName "Attention: Is All/You Need? " = "Attention Is AllYou Need"
  /\ safeName "???" = "snapshot"
  /\ (String.length (safeName "Attention: Is All/You Need? ") <= 80)%nat.
Proof.
  split; [reflexivity |]. split; [reflexivity |].
  exact (proj1 (proj2 (safeName_is_safe "Attention: Is All/You Need? " eq_refl))).
Defined.

(* ------------------------------------------------------------------ *)
(** * Item writer, continued *)
(* ------------------------------------------------------------------ *)

(** X12 — when the store has no template for the resolved type,
    [createItem] fails with [Invalid item type], the canonical name and
    the store's message, and sends nothing after the template request: no
    item is created. *)
Theorem createItem_invalid_type
        (new_URL : string -> option URL) (R : remote)
        (params : CreateItemParams) (h : list request) (e : exn) :
  let zoteroType := resolveItemType (default (cp_itemType params) "webpage") in
  template_get R h zoteroType = inl e ->
  createItem new_URL R params h
  = (inr (create_failed ("Invalid item type '" ++ show_propval zoteroType
                         ++ "': " ++ message e)),
     (h ++ [GetTemplate zoteroType])%list).
Proof.
  intros zoteroType He. unfold createItem, getItemTemplate. fold zoteroType.
  unfold try_catch at 1, bind at 1 2, call at 1. cbv beta. now rewrite He.
Qed.

Lemma createItem_invalid_type_witness :
  template_get offline [] (Str "totallyBogusType") = inl fetch_failed
  /\ createItem PlainURL.parse offline save_bogus []
     = (inr (create_failed "Invalid item type 'totallyBogusType': fetch failed"),
        [GetTemplate (Str "totallyBogusType")]).
Proof.
  split; [reflexivity |].
  exact (createItem_invalid_type PlainURL.parse offline save_bogus [] fetch_failed
                                 eq_refl).
Defined.

Lemma createItem_pdf_run
      (new_URL : string -> option URL) (R : remote)
      (params : CreateItemParams) (h : list request)
      (t : template) (response : postResp) (itemKey pdfUrl : string) :
  let zoteroType := resolveItemType (default (cp_itemType params) "webpage") in
  let created :=
    ((h ++ [GetTemplate zoteroType]) ++ [PostItems (NewItem (fill t params))])%list in
  JS.or_null (cp_pdfUrl params) = Some pdfUrl ->
  template_get R h zoteroType = inr t ->
  items_post R (h ++ [GetTemplate zoteroType])%list (NewItem (fill t params))
  = inr response ->
  entity0 response = inr (Some itemKey) ->
  createItem new_URL R params h
  = (match fst (attachPdfFromUrl new_URL R itemKey pdfUrl None created) with
     | inl e => inr (create_failed (message e))
     | inr att =>
         inr {| success := true; cr_item_key := Some itemKey;
                cr_message := Some ("Created " ++ show_propval zoteroType ++ ": "
                                    ++ cp_title params);
                cr_error := None; pdf_attachment := Some att;
                snapshot_attachment := None |}
     end,
     snd (attachPdfFromUrl new_URL R itemKey pdfUrl None created)).
Proof.
  intros zoteroType created Hpdf Ht Hpost Hentity.
  unfold createItem, getItemTemplate. fold zoteroType.
  unfold try_catch at 1, bind at 1 2, call at 1, ret at 1. cbv beta.
  rewrite Ht. cbv beta iota.
  unfold try_catch, bind at 1 2, call at 1, lift at 1. cbv beta.
  rewrite Hpost, Hentity, Hpdf. cbv beta iota. fold created.
  unfold bind, ret.
  destruct (attachPdfFromUrl new_URL R itemKey pdfUrl None created) as [[e | att] h'];
    reflexivity.
Qed.

(** X13 — when both a PDF and a snapshot are asked for, [createItem] runs
    the PDF operation and nothing else after creating the item; the
    result has no [snapshot_attachment], and a [pdf_attachment] whenever
    it is a success. *)
Theorem pdf_wins_over_snapshot
        (new_URL : string -> option URL) (R : remote)
        (params : CreateItemParams) (h : list request)
        (t : template) (response : postResp) (itemKey pdfUrl : string) :
  let zoteroType := resolveItemType (default (cp_itemType params) "webpage") in
  let created :=
    ((h ++ [GetTemplate zoteroType]) ++ [PostItems (NewItem (fill t params))])%list in
  JS.or_null (cp_pdfUrl params) = Some pdfUrl ->
  template_get R h zoteroType = inr t ->
  items_post R (h ++ [GetTemplate zoteroType])%list (NewItem (fill t params))
  = inr response ->
  entity0 response = inr (Some itemKey) ->
  sent (createItem new_URL R params) h
  = sent (attachPdfFromUrl new_URL R itemKey pdfUrl None) created
  /\ forall res,
      outcome (createItem new_URL R params) h = inr res ->
      snapshot_attachment res = None
      /\ (success res = true -> pdf_attachment res <> None).
Proof.
  intros zoteroType created Hpdf Ht Hpost Hentity.
  unfold sent, outcome.
  rewrite (createItem_pdf_run new_URL R params h t response itemKey pdfUrl
             Hpdf Ht Hpost Hentity).
  fold zoteroType created. cbn [fst snd].
  split; [reflexivity |].
  intros res H.
  destruct (fst (attachPdfFromUrl new_URL R itemKey pdfUrl None created)) as [e | att];
    inversion H; subst; cbn; split; try reflexivity; discriminate.
Qed.

Lemma pdf_wins_over_snapshot_witness :
  JS.or_null (cp_pdfUrl save_paper) = Some "https://site.com/files/paper.pdf"
  /\ JS.or_null (cp_snapshotUrl save_paper) = Some "https://site.com/post"
  /\ sent (createItem PlainURL.parse archive_store save_paper) []
     = sent (attachPdfFromUrl PlainURL.parse archive_store "NEWK0001"
                              "https://site.com/files/paper.pdf" None)
            [GetTemplate (Str "webpage");
             PostItems (NewItem (fill webpage_template save_paper))].
Proof.
  split; [reflexivity |]. split; [reflexivity |].
  exact (proj1 (pdf_wins_over_snapshot
                  PlainURL.parse archive_store save_paper [] webpage_template
                  {| entity0 := inr (Some "NEWK0001"); post_json := "{}" |}
                  "NEWK0001" "https://site.com/files/paper.pdf"
                  eq_refl eq_refl eq_refl eq_refl)).
Defined.


(* ------------------------------------------------------------------ *)
(** * Field mapper *)
(* ------------------------------------------------------------------ *)

Lemma has_In (t : template) (k : string) : has t k = true <-> In k (keys t).
Proof.
  unfold has, keys. rewrite existsb_exists, in_map_iff. split.
  - intros (kv & Hin & E). apply String.eqb_eq in E. now exists kv.
  - intros (kv & E & Hin). exists kv. split; [exact Hin |].
    now apply String.eqb_eq.
Qed.

Lemma keys_set (t : template) (k : string) (v : tval) :
  keys (set t k v) = if has t k then keys t else (keys t ++ [k])%list.
Proof.
  induction t as [| [k' v'] t IH]; [reflexivity |].
  cbn [set]. unfold has in *. cbn [existsb fst].
  destruct (String.eqb_spec k' k) as [-> | ne]; cbn [orb keys map fst].
  - reflexivity.
  - unfold keys in IH. rewrite IH.
    destruct (existsb _ t); reflexivity.
Qed.

Lemma field_set_same (t : template) (k : string) (v : tval) :
  field (set t k v) k = Some v.
Proof.
  induction t as [| [k' v'] t IH]; cbn [set field].
  - now rewrite String.eqb_refl.
  - destruct (String.eqb_spec k' k) as [-> | ne]; cbn [field].
    + now rewrite String.eqb_refl.
    + apply String.eqb_neq in ne. now rewrite ne.
Qed.

Lemma field_set_other (t : template) (k k' : string) (v : tval) :
  k' <> k -> field (set t k' v) k = field t k.
Proof.
  intros ne. induction t as [| [k0 v0] t IH]; cbn [set field].
  - apply String.eqb_neq in ne. now rewrite ne.
  - destruct (String.eqb_spec k0 k') as [-> | ne0]; cbn [field].
    + apply String.eqb_neq in ne. now rewrite ne.
    + now rewrite IH.
Qed.

Lemma extends_refl (allowed : list string) (t : template) : extends_by allowed t t.
Proof. split; intros k H; [exact H | now left]. Qed.

Lemma extends_trans (allowed : list string) (a b c : template) :
  extends_by allowed a b -> extends_by allowed b c -> extends_by allowed a c.
Proof.
  intros [H1 H2] [H3 H4]. split; intros k H.
  - now apply H3, H1.
  - destruct (H4 k H) as [Hb | Ha]; [now apply H2 | now right].
Qed.

Lemma extends_set (allowed : list string) (t : template) (k : string) (v : tval) :
  has t k = true \/ In k allowed -> extends_by allowed t (set t k v).
Proof.
  intros H. unfold extends_by. rewrite keys_set.
  destruct (has t k); [apply (extends_refl allowed) |].
  destruct H as [H | H]; [discriminate H |].
  split; intros k0 H0.
  - apply in_or_app. now left.
  - apply in_app_or in H0 as [H0 | [<- | []]]; [now left | now right].
Qed.

(** Whatever holds once the title is set, and is kept by writing any
    other field of [FILLED] that the template declares or that is set
    regardless, holds of the filled template. *)
Lemma fill_ind (P : template -> Prop) (t : template) (p : CreateItemParams) :
  P (set t "title" (TString (cp_title p))) ->
  (forall x k v,
      In k FILLED -> k <> "title" ->
      has x k = true \/ In k ALWAYS_SET ->
      P x -> P (set x k v)) ->
  P (fill t p).
Proof.
  intros Hbase Hstep. cbv beta delta [fill].
  repeat
    lazymatch goal with
    | |- P (let x := ?e in @?body x) =>
        first
          [ let y := fresh "x" in
            let Hy := fresh "Hx" in
            assert (Hy : P e);
            [ | generalize e Hy; clear Hy; intros y Hy;
                change (P (body y)); cbv beta ]
          | let y := fresh "l" in
            set (y := e); change (P (body y)); cbv beta ]
    | |- P (set _ "title" _) => exact Hbase
    | |- P (set_if_declared _ _ _) => unfold set_if_declared
    | |- P (match ?c with _ => _ end) => destruct c eqn:?
    | |- P (set _ _ _) =>
        apply Hstep;
        [ cbn; tauto
        | discriminate
        | first [ left; assumption
                | left;
                  match goal with
                  | H : _ && _ = true |- _ => exact (proj2 (andb_prop _ _ H))
                  end
                | right; cbn; tauto ]
        | assumption ]
    | |- P _ => first [exact Hbase | assumption]
    end.
Qed.

(** X15 — the template [createItem] posts has every field of the template
    it fetched, and beyond them only [title], [date], [tags] and
    [collections]: a field the item type does not declare ([DOI] on a
    web page, say) is never sent. *)
Theorem fill_adds_declared_fields_only (t : template) (p : CreateItemParams) :
  extends_by ALWAYS_SET t (fill t p).
Proof.
  apply fill_ind.
  - apply extends_set. right. cbn. tauto.
  - intros x k v _ _ Hk Hx. eapply extends_trans; [exact Hx |].
    now apply extends_set.
Qed.

(** X16 — the posted template always carries the title given, and every
    field the fill block does not write, [itemType] among them, keeps the
    value the fetched template gave it. *)
Theorem fill_sets_title_and_keeps_the_rest (t : template) (p : CreateItemParams) :
  field (fill t p) "title" = Some (TString (cp_title p))
  /\ forall k, ~ In k FILLED -> field (fill t p) k = field t k.
Proof.
  split.
  - apply fill_ind; [apply field_set_same |].
    intros x k v _ Hk _ Hx. now rewrite field_set_other.
  - intros k0 Hk0. apply fill_ind.
    + apply field_set_other. intros <-. apply Hk0. cbn. tauto.
    + intros x k v Hk _ _ Hx. rewrite field_set_other; [exact Hx |].
      intros <-. contradiction.
Qed.

Lemma fill_sets_title_and_keeps_the_rest_witness :
  ~ In "itemType" FILLED
  /\ field (fill webpage_template save_paper) "itemType" = Some (TString "webpage")
  /\ field (fill webpage_template save_paper) "DOI" = None.
Proof.
  assert (H : ~ In "itemType" FILLED).
  { cbn. intros H. repeat (destruct H as [H | H]; [discriminate H |]). exact H. }
  split; [exact H |]. split; [| reflexivity].
  exact (proj2 (fill_sets_title_and_keeps_the_rest webpage_template save_paper)
               "itemType" H).
Defined.

(* ------------------------------------------------------------------ *)
(** * Collection writer *)
(* ------------------------------------------------------------------ *)

Lemma all_space_trimStart (s : string) (skip : nat) :
  Space.all_space_aux s skip = true -> Space.trimStart_aux s skip = EmptyString.
Proof.
  revert skip. induction s as [| c s IH]; intros skip; [reflexivity |].
  cbn [Space.all_space_aux Space.trimStart_aux].
  destruct skip as [| k]; [| apply IH].
  destruct (Space.ws_len (String c s)); [discriminate | apply IH].
Qed.

Lemma some_text_trimStart (s : string) (skip : nat) :
  Space.all_space_aux s skip = false ->
  exists c r, Space.trimStart_aux s skip = String c r
              /\ Space.ws_len (String c r) = 0
              /\ Space.all_space (String c r) = false.
Proof.
  revert skip. induction s as [| c s IH]; intros skip; [discriminate |].
  cbn [Space.all_space_aux Space.trimStart_aux].
  destruct skip as [| k]; [| apply IH].
  destruct (Space.ws_len (String c s)) eqn:E; [| apply IH].
  intros _. exists c, s. split; [reflexivity |]. split; [exact E |].
  unfold Space.all_space. cbn [Space.all_space_aux]. now rewrite E.
Qed.

Lemma blank_trim (s : string) :
  Space.all_space s = true -> Space.trim s = EmptyString.
Proof.
  intros H. unfold Space.trim, Space.trimStart.
  now rewrite (all_space_trimStart s 0 H).
Qed.

Lemma text_trim (s : string) :
  Space.all_space s = false ->
  exists c r, Space.trim s = String c r /\ Space.ws_len (Space.trim s) = 0.
Proof.
  intros H. unfold Space.trim, Space.trimStart.
  destruct (some_text_trimStart s 0 H) as (c & r & -> & Hws & Hall).
  cbn [Space.trimEnd]. rewrite Hall.
  exists c, (Space.trimEnd r). split; [reflexivity |].
  (* the first code point is kept whole *)
  revert Hws. unfold Space.ws_len.
  destruct (JS.is_space c); [discriminate |].
  destruct r as [| c2 r2]; [reflexivity |].
  cbn [Space.trimEnd].
  destruct (Space.all_space (String c2 r2)) eqn:E2; [reflexivity |].
  destruct (nat_of_ascii c =? 194)%nat; [now intros H' |].
  destruct r2 as [| c3 r3]; [reflexivity |].
  cbn [Space.trimEnd].
  destruct (Space.all_space (String c3 r3)) eqn:E3; [reflexivity |].
  now intros H'.
Qed.

(** X17 — a name that is empty or white space from end to end (the white
    space of [trim], beyond ASCII too) is refused by [createCollection]
    before anything is sent. *)
Theorem blank_collection_name_sends_nothing
        (post : list collectionRequest -> newCollection -> exn + postResp)
        (name : string) (parentCollectionId : option string)
        (h : list collectionRequest) :
  Space.all_space name = true ->
  createCollection post name parentCollectionId h
  = (collection_failed "Collection name is required", h).
Proof.
  intros H. unfold createCollection.
  rewrite (blank_trim name H). cbn [JS.truthy negb].
  now rewrite Bool.orb_true_r.
Qed.

Lemma blank_collection_name_sends_nothing_witness :
  createCollection (fun _ _ => inl fetch_failed)
                   (String (ascii_of_nat 32)
                      (String (ascii_of_nat 194)
                         (String (ascii_of_nat 160)
                            (String (ascii_of_nat 9) EmptyString))))
                   None []
  = (collection_failed "Collection name is required", []).
Proof.
  apply blank_collection_name_sends_nothing. reflexivity.
Defined.

(** X18 — for any other name [createCollection] sends one request, for a
    collection named by the trimmed name, which is not empty and starts
    with no white space; it reports success exactly when the store
    answers with the key of a created collection, and then under that
    key and the trimmed name. *)
Theorem collection_is_named_as_trimmed
        (post : list collectionRequest -> newCollection -> exn + postResp)
        (name : string) (parentCollectionId : option string)
        (h : list collectionRequest) :
  Space.all_space name = false ->
  let data := {| nc_name := Space.trim name;
                 nc_parentCollection := JS.or_null parentCollectionId |} in
  let res := fst (createCollection post name parentCollectionId h) in
  snd (createCollection post name parentCollectionId h)
  = (h ++ [PostCollections data])%list
  /\ Space.trim name <> EmptyString
  /\ Space.ws_len (Space.trim name) = 0
  /\ (cc_success res = true <->
      exists response key,
        post h data = inr response /\ entity0 response = inr (Some key))
  /\ (cc_success res = true ->
      cc_name res = Some (Space.trim name)
      /\ exists response,
          post h data = inr response
          /\ entity0 response = inr (cc_collection_key res)).
Proof.
  intros H data res.
  destruct (text_trim name H) as (c & r & Htrim & Hws).
  assert (Hname : JS.truthy name = true).
  { destruct name; [discriminate H | reflexivity]. }
  subst res. unfold createCollection. rewrite Hname, Htrim. cbn [JS.truthy negb orb].
  rewrite <- Htrim. fold data.
  split.
  { destruct (post h data) as [e | response]; [reflexivity |].
    destruct (entity0 response) as [e | [key |]]; reflexivity. }
  split; [rewrite Htrim; discriminate |].
  split; [exact Hws |].
  destruct (post h data) as [e | response].
  { cbn. split; [split; [discriminate | intros (? & ? & ? & _); discriminate]
                | discriminate]. }
  destruct (entity0 response) as [e | [key |]] eqn:E; cbn.
  - split; [split; [discriminate | intros (r0 & k & Hr & Hk)] | discriminate].
    inversion Hr; subst. rewrite E in Hk. discriminate.
  - split; [split; [intros _; now exists response, key | reflexivity] |].
    intros _. split; [reflexivity | now exists response].
  - split; [split; [discriminate | intros (r0 & k & Hr & Hk)] | discriminate].
    inversion Hr; subst. rewrite E in Hk. discriminate.
Qed.

Lemma collection_is_named_as_trimmed_witness :
  snd (createCollection
         (fun _ _ => inr {| entity0 := inr (Some "COLL0001"); post_json := "{}" |})
         "  Reading list " (Some "PARENT01") [])
  = [PostCollections {| nc_name := "Reading list";
                        nc_parentCollection := Some "PARENT01" |}].
Proof.
  exact (proj1 (collection_is_named_as_trimmed
                  (fun _ _ => inr {| entity0 := inr (Some "COLL0001");
                                     post_json := "{}" |})
                  "  Reading list " (Some "PARENT01") [] eq_refl)).
Defined.

(* ------------------------------------------------------------------ *)
(** * Library stats aggregator, continued *)
(* ------------------------------------------------------------------ *)

Lemma insert_tag_perm (x : option string * Z) (l : list (option string * Z)) :
  Permutation (x :: l) (Package.insert_tag x l).
Proof.
  induction l as [| y l IH]; cbn [Package.insert_tag]; [apply Permutation_refl |].
  destruct (snd y <=? snd x)%Z; [apply Permutation_refl |].
  eapply perm_trans; [apply perm_swap | now apply perm_skip].
Qed.

Lemma sort_tags_perm (l : list (option string * Z)) :
  Permutation l (Package.sort_tags l).
Proof.
  induction l as [| x l IH]; [apply perm_nil |].
  cbn [Package.sort_tags fold_right]. fold (Package.sort_tags l).
  eapply perm_trans; [apply perm_skip, IH | apply insert_tag_perm].
Qed.

Lemma insert_tag_sorted (x : option string * Z) (l : list (option string * Z)) :
  StronglySorted most_used_first l ->
  StronglySorted most_used_first (Package.insert_tag x l).
Proof.
  induction l as [| y l IH]; intros Hs; cbn [Package.insert_tag].
  - constructor; [constructor | constructor].
  - inversion Hs as [| ? ? Hl Hy]; subst.
    destruct (snd y <=? snd x)%Z eqn:E.
    + apply Z.leb_le in E. constructor; [exact Hs |].
      constructor; [exact E |].
      eapply Forall_impl; [| exact Hy]. unfold most_used_first. intros z Hz. lia.
    + apply Z.leb_gt in E. constructor; [now apply IH |].
      eapply Permutation_Forall; [apply insert_tag_perm |].
      constructor; [unfold most_used_first; lia | exact Hy].
Qed.

Lemma sort_tags_sorted (l : list (option string * Z)) :
  StronglySorted most_used_first (Package.sort_tags l).
Proof.
  induction l as [| x l IH]; [constructor |].
  cbn [Package.sort_tags fold_right]. now apply insert_tag_sorted.
Qed.

Lemma firstn_sorted {A} (R : A -> A -> Prop) (n : nat) (l : list A) :
  StronglySorted R l -> StronglySorted R (firstn n l).
Proof.
  revert l. induction n as [| n IH]; intros l Hs; [constructor |].
  destruct l as [| x l]; [constructor |]. cbn [firstn].
  inversion Hs as [| ? ? Hl Hx]; subst. constructor; [now apply IH |].
  rewrite Forall_forall in *. intros y Hy. apply Hx.
  rewrite <- (firstn_skipn n l). apply in_or_app. now left.
Qed.

Lemma In_firstn_sorted_top (n : nat) (l : list (option string * Z)) :
  StronglySorted most_used_first l ->
  forall x y, In x (firstn n l) -> In y (skipn n l) -> (snd y <= snd x)%Z.
Proof.
  revert l. induction n as [| n IH]; intros l Hs x y Hx Hy; [contradiction |].
  destruct l as [| z l]; [contradiction |].
  inversion Hs as [| ? ? Hl Hz]; subst.
  cbn [firstn skipn] in Hx, Hy. destruct Hx as [<- | Hx].
  - rewrite Forall_forall in Hz. apply Hz.
    rewrite <- (firstn_skipn n l). apply in_or_app. now right.
  - now apply (IH l Hl).
Qed.

Lemma listCollections_sent (R : remote) (h : list request) :
  sent (listCollections R) h = (h ++ [GetCollections])%list.
Proof.
  unfold sent, listCollections, bind, call.
  destruct (collections_get R h) as [e | [raw |]]; try reflexivity.
Qed.

Lemma listTags_sent (R : remote) (limit offset : option Z) (h : list request) :
  sent (listTags R limit offset) h
  = (h ++ [GetTags (default limit 100%Z) (default offset 0%Z)])%list.
Proof.
  unfold sent, listTags, try_catch, bind, call, ret.
  now destruct (tags_get R h _ _).
Qed.

Lemma traverse_length {A B} (f : A -> exn + B) (l : list A) (r : list B) :
  traverse f l = inr r -> List.length r = List.length l.
Proof.
  revert r. induction l as [| a l IH]; intros r H; cbn [traverse] in H.
  - now inversion H.
  - destruct (f a); [discriminate |].
    destruct (traverse f l); [discriminate |].
    inversion H; subst. cbn. f_equal. now apply IH.
Qed.

Lemma getLibraryStats_run (R : remote) (h : list request) :
  let h1 := (h ++ [GetTopItems None Package.stats_query])%list in
  let h2 := (h1 ++ [GetCollections])%list in
  let h3 := (h2 ++ [GetTags 25 0])%list in
  sent (Package.getLibraryStats R) h = h3
  /\ forall s,
      outcome (Package.getLibraryStats R) h = inr (Got s) ->
      exists itemsResp collectionsResult tagsResult,
        top_items_get R h None Package.stats_query = inr itemsResp
        /\ outcome (listCollections R) h1 = inr collectionsResult
        /\ outcome (listTags R (Some 25%Z) (Some 0%Z)) h2 = inr tagsResult
        /\ Package.total_items s
           = parseInt (JS.or_else (m_total_results itemsResp) "0")
        /\ Package.total_collections s = List.length collectionsResult
        /\ Package.collections s
           = map (fun c => (col_key c, col_name c)) collectionsResult
        /\ Package.top_tags s
           = firstn 15 (Package.sort_tags (match tagsResult with
                                           | Got page => tags page
                                           | Failed _ => []
                                           end))
        /\ Package.total_tags s = List.length (Package.top_tags s).
Proof.
  intros h1 h2 h3.
  assert (Hrun :
    Package.getLibraryStats R h
    = (match top_items_get R h None Package.stats_query,
             fst (listCollections R h1),
             fst (listTags R (Some 25%Z) (Some 0%Z) h2) with
       | inl e, _, _ => inr (Failed (message e))
       | inr _, inl e, _ => inr (Failed (message e))
       | inr _, inr _, inl e => inr (Failed (message e))
       | inr itemsResp, inr collectionsResult, inr tagsResult =>
           let topTags :=
             firstn 15 (Package.sort_tags (match tagsResult with
                                           | Got page => tags page
                                           | Failed _ => []
                                           end)) in
           inr (Got {| Package.total_items :=
                         parseInt (JS.or_else (m_total_results itemsResp) "0");
                       Package.total_collections := List.length collectionsResult;
                       Package.total_tags := List.length topTags;
                       Package.collections :=
                         map (fun c => (col_key c, col_name c)) collectionsResult;
                       Package.top_tags := topTags;
                       Package.last_modified_item :=
                         match or_nil (m_raw itemsResp) with
                         | recentItem :: _ =>
                             Some (JS.or_else (data_field d_title recentItem)
                                              "(untitled)",
                                   JS.or_null (data_field d_dateModified recentItem))
                         | [] => None
                         end |})
       end, h3)).
  { unfold Package.getLibraryStats, try_catch.
    unfold bind at 1, Package.settled at 1, call at 1.
    fold h1.
    destruct (top_items_get R h None Package.stats_query) as [e1 | itemsResp].
    - unfold bind at 1, Package.settled at 1.
      pose proof (listCollections_sent R h1) as Hc. unfold sent in Hc. fold h2 in Hc.
      destruct (listCollections R h1) as [r2 hc]. cbn [snd] in Hc. subst hc.
      unfold bind at 1, Package.settled at 1.
      pose proof (listTags_sent R (Some 25%Z) (Some 0%Z) h2) as Ht.
      unfold sent in Ht. cbn [default] in Ht. fold h3 in Ht.
      destruct (listTags R (Some 25%Z) (Some 0%Z) h2) as [r3 ht].
      cbn [snd] in Ht. subst ht. reflexivity.
    - unfold bind at 1, Package.settled at 1.
      pose proof (listCollections_sent R h1) as Hc. unfold sent in Hc. fold h2 in Hc.
      destruct (listCollections R h1) as [r2 hc]. cbn [snd] in Hc. subst hc.
      unfold bind at 1, Package.settled at 1.
      pose proof (listTags_sent R (Some 25%Z) (Some 0%Z) h2) as Ht.
      unfold sent in Ht. cbn [default] in Ht. fold h3 in Ht.
      destruct (listTags R (Some 25%Z) (Some 0%Z) h2) as [r3 ht].
      cbn [snd] in Ht. subst ht.
      cbn [fst]. destruct r2 as [e2 | collectionsResult]; [reflexivity |].
      destruct r3 as [e3 | tagsResult]; reflexivity. }
  unfold sent, outcome. rewrite Hrun. cbn [fst snd]. split; [reflexivity |].
  intros s Hs.
  destruct (top_items_get R h None Package.stats_query) as [e1 | itemsResp];
    [discriminate Hs |].
  unfold outcome.
  destruct (fst (listCollections R h1)) as [e2 | collectionsResult];
    [discriminate Hs |].
  destruct (fst (listTags R (Some 25%Z) (Some 0%Z) h2)) as [e3 | tagsResult];
    [discriminate Hs |].
  inversion Hs; subst. cbn.
  exists itemsResp, collectionsResult, tagsResult. repeat split; reflexivity.
Qed.

(** X19 — [getLibraryStats] sends its three read requests whatever they
    answer, and nothing else. *)
Theorem stats_send_three_requests (R : remote) (h : list request) :
  sent (Package.getLibraryStats R) h
  = (h ++ [GetTopItems None Package.stats_query; GetCollections; GetTags 25 0])%list.
Proof.
  rewrite (proj1 (getLibraryStats_run R h)).
  now rewrite <- !app_assoc.
Qed.

(** X20 — statistics are returned only when the item query and the
    collection listing both succeeded: [total_items] is read off the
    answer of the first and [total_collections] counts the second.  There
    are no partial statistics for these two. *)
Theorem stats_need_items_and_collections (R : remote) (h : list request)
        (s : Package.stats) :
  outcome (Package.getLibraryStats R) h = inr (Got s) ->
  exists itemsResp raw collectionsResult,
    top_items_get R h None Package.stats_query = inr itemsResp
    /\ collections_get R (h ++ [GetTopItems None Package.stats_query])%list
       = inr (Some raw)
    /\ traverse collection_of raw = inr collectionsResult
    /\ Package.total_items s = parseInt (JS.or_else (m_total_results itemsResp) "0")
    /\ Package.total_collections s = List.length raw
    /\ Package.collections s = map (fun c => (col_key c, col_name c)) collectionsResult.
Proof.
  intros Hs.
  destruct (proj2 (getLibraryStats_run R h) s Hs)
    as (itemsResp & collectionsResult & tagsResult & Hi & Hc & _ & Hti & Htc & Hcs & _).
  unfold outcome, listCollections, bind, call in Hc.
  destruct (collections_get R _) as [e | [raw |]] eqn:E; try discriminate Hc.
  unfold lift in Hc. cbn [fst] in Hc.
  exists itemsResp, raw, collectionsResult.
  repeat split; try assumption; try reflexivity.
  rewrite Htc. now apply (traverse_length collection_of).
Qed.

(** X21 — [top_tags] holds at most fifteen tags, most used first, all
    from the one page of 25 that was asked for, and none of the tags of
    that page left out is used more than one that is listed;
    [total_tags] counts [top_tags], so it never exceeds fifteen. *)
Theorem stats_top_tags (R : remote) (h : list request) (s : Package.stats) :
  outcome (Package.getLibraryStats R) h = inr (Got s) ->
  Package.total_tags s = List.length (Package.top_tags s)
  /\ (Package.total_tags s <= 15)%nat
  /\ StronglySorted most_used_first (Package.top_tags s)
  /\ exists page rest,
      Permutation page (Package.top_tags s ++ rest)
      /\ (forall x y, In x (Package.top_tags s) -> In y rest -> (snd y <= snd x)%Z)
      /\ match outcome (listTags R (Some 25%Z) (Some 0%Z))
                       (h ++ [GetTopItems None Package.stats_query; GetCollections])%list
         with
         | inr (Got p) => page = tags p
         | _ => page = []
         end.
Proof.
  intros Hs.
  destruct (proj2 (getLibraryStats_run R h) s Hs)
    as (itemsResp & collectionsResult & tagsResult & _ & _ & Ht & _ & _ & _ & Htop & Htot).
  rewrite <- app_assoc in Ht. cbn [app] in Ht.
  set (page := match tagsResult with Got p => tags p | Failed _ => [] end) in *.
  split; [exact Htot |].
  split; [rewrite Htot, Htop; apply firstn_le_length |].
  split; [rewrite Htop; apply firstn_sorted, sort_tags_sorted |].
  exists page, (skipn 15 (Package.sort_tags page)).
  split; [| split].
  - rewrite Htop, firstn_skipn. apply sort_tags_perm.
  - rewrite Htop. apply In_firstn_sorted_top, sort_tags_sorted.
  - rewrite Ht. subst page. now destruct tagsResult.
Qed.

Lemma stats_top_tags_witness :
  exists s, outcome (Package.getLibraryStats tagged_store) [] = inr (Got s)
            /\ Package.top_tags s = [(Some "b", 5%Z); (Some "c", 3%Z); (Some "a", 1%Z)]
            /\ StronglySorted most_used_first (Package.top_tags s).
Proof.
  eexists. split; [reflexivity |]. split; [reflexivity |].
  refine (proj1 (proj2 (proj2 (stats_top_tags tagged_store [] _ eq_refl)))).
Defined.

Lemma stats_need_items_and_collections_witness :
  exists s, outcome (Package.getLibraryStats tagged_store) [] = inr (Got s)
            /\ Package.total_items s = Num 3
            /\ Package.total_collections s = 1%nat.
Proof.
  eexists. split; [reflexivity |].
  destruct (stats_need_items_and_collections tagged_store [] _ eq_refl)
    as (itemsResp & raw & cs & Hi & Hc & _ & Hti & Htc & _).
  split; reflexivity.
Defined.

(* ------------------------------------------------------------------ *)
(** * Item updater, continued *)
(* ------------------------------------------------------------------ *)

Lemma among_In (names : list string) (t : string) :
  among names t = true <-> In t names.
Proof.
  unfold among. destruct (in_dec string_dec t names); split; try tauto; discriminate.
Qed.

Lemma among_mem_string (names : list string) (t : string) :
  mem_string t names = among names t.
Proof.
  destruct (among names t) eqn:E.
  - apply mem_string_In. now apply among_In.
  - destruct (mem_string t names) eqn:E'; [| reflexivity].
    apply mem_string_In, among_In in E'. congruence.
Qed.

Lemma filter_swap {A} (f g : A -> bool) (l : list A) :
  filter f (filter g l) = filter g (filter f l).
Proof.
  induction l as [| x l IH]; [reflexivity |]. cbn [filter].
  destruct (f x) eqn:Ef, (g x) eqn:Eg; cbn [filter]; rewrite ?Ef, ?Eg, IH;
    reflexivity.
Qed.

Lemma filter_twice {A} (f : A -> bool) (l : list A) :
  filter f (filter f l) = filter f l.
Proof.
  induction l as [| x l IH]; [reflexivity |]. cbn [filter].
  destruct (f x) eqn:Ef; cbn [filter]; rewrite ?Ef, IH; reflexivity.
Qed.

Lemma first_seen_without (a : string) (l : list string) :
  first_seen (filter (fun u => negb (String.eqb u a)) l)
  = filter (fun u => negb (String.eqb u a)) (first_seen l).
Proof.
  induction l as [| x l IH]; [reflexivity |]. cbn [filter first_seen].
  destruct (String.eqb x a) eqn:E; cbn [negb filter first_seen].
  - apply String.eqb_eq in E. subst x. now rewrite IH, filter_twice.
  - now rewrite IH, filter_swap.
Qed.

Lemma not_among_snoc (names : list string) (a : string) (l : list string) :
  filter (fun t => negb (among (names ++ [a]) t)) l
  = filter (fun u => negb (String.eqb u a)) (filter (fun t => negb (among names t)) l).
Proof.
  induction l as [| x l IH]; [reflexivity |]. cbn [filter].
  assert (E : among (names ++ [a]) x = among names x || String.eqb x a).
  { apply Bool.eq_true_iff_eq.
    rewrite Bool.orb_true_iff, !among_In, in_app_iff, String.eqb_eq. cbn [In].
    split; [intros [H | [H | []]]; [now left | now right] |].
    intros [H | H]; [now left | right; now left]. }
  rewrite E. destruct (among names x); cbn [orb negb filter]; [exact IH |].
  destruct (String.eqb x a); cbn [negb]; now rewrite IH.
Qed.

(** The loop [for (c of add) if (!updated.includes(c)) updated.push(c)]
    appends the names not yet there, each once and in the order [add]
    first gives them. *)
Lemma add_each_key_first_seen (add updated : list string) :
  add_each_key updated add
  = (updated ++ first_seen (filter (fun t => negb (among updated t)) add))%list.
Proof.
  revert updated. induction add as [| a add IH]; intros updated; cbn [add_each_key].
  - cbn. now rewrite app_nil_r.
  - cbn [filter]. rewrite among_mem_string.
    destruct (among updated a) eqn:E; cbn [negb]; [apply IH |].
    rewrite IH, <- app_assoc. cbn [app first_seen]. f_equal. f_equal.
    now rewrite not_among_snoc, first_seen_without.
Qed.

Lemma add_each_first_seen (add updated : list string) :
  add_each (map TVName updated) add
  = map TVName
        (updated ++ first_seen (filter (fun t => negb (among updated t)) add)).
Proof.
  revert updated. induction add as [| a add IH]; intros updated; cbn [add_each].
  - cbn. now rewrite app_nil_r.
  - cbn [filter].
    assert (E : includes_name (map TVName updated) a = among updated a).
    { destruct (among updated a) eqn:E.
      - apply includes_name_In, in_map, among_In, E.
      - destruct (includes_name (map TVName updated) a) eqn:E'; [| reflexivity].
        apply includes_name_In, in_map_iff in E' as (t & Ht & Hin).
        inversion Ht; subst. apply among_In in Hin. congruence. }
    rewrite E. destruct (among updated a); cbn [negb]; [apply IH |].
    change [TVName a] with (map TVName [a]). rewrite <- map_app, IH, <- app_assoc.
    cbn [app first_seen]. f_equal. f_equal. f_equal.
    now rewrite not_among_snoc, first_seen_without.
Qed.

Lemma remove_each_names (l remove : list string) :
  remove_each (map TVName l) remove
  = map TVName (filter (fun t => negb (among remove t)) l).
Proof.
  unfold remove_each. induction l as [| x l IH]; [reflexivity |].
  cbn [map filter]. rewrite among_mem_string.
  destruct (among remove x); cbn [negb map]; now rewrite IH.
Qed.

Lemma filter_none_among (l : list string) :
  filter (fun t => negb (among [] t)) l = l.
Proof.
  induction l as [| x l IH]; [reflexivity |]. cbn [filter].
  change (among [] x) with false. cbn [negb]. now rewrite IH.
Qed.

Lemma reconcile_keys_reconciled (current : list string)
      (add remove : option (list string)) :
  reconcile_keys current add remove
  = reconciled current (or_nil add) (or_nil remove).
Proof.
  unfold reconcile_keys, reconciled.
  assert (Hadd : match add with
                 | Some a => add_each_key current a
                 | None => current
                 end
                 = (current
                      ++ first_seen (filter (fun t => negb (among current t))
                                            (or_nil add)))%list).
  { destruct add as [a |]; cbn [or_nil]; [apply add_each_key_first_seen |].
    cbn. now rewrite app_nil_r. }
  rewrite Hadd. destruct remove as [r |]; cbn [or_nil].
  - apply filter_ext. intros c. now rewrite among_mem_string.
  - now rewrite filter_none_among.
Qed.

Lemma reconcile_tags_reconciled (names : list string)
      (add remove : option (list string)) :
  reconcile_tags (map TVName names) add remove
  = map TVName (reconciled names (or_nil add) (or_nil remove)).
Proof.
  unfold reconcile_tags, reconciled.
  assert (Hadd : match add with
                 | Some a => add_each (map TVName names) a
                 | None => map TVName names
                 end
                 = map TVName
                       (names
                          ++ first_seen (filter (fun t => negb (among names t))
                                                (or_nil add)))).
  { destruct add as [a |]; cbn [or_nil]; [apply add_each_first_seen |].
    cbn. now rewrite app_nil_r. }
  rewrite Hadd. destruct remove as [r |]; cbn [or_nil].
  - apply remove_each_names.
  - now rewrite filter_none_among.
Qed.

Lemma existingTags_named (stored_tags : option (list storeTag)) (names : list string) :
  Forall2 tag_named (or_nil stored_tags) names ->
  existingTags stored_tags = map TVName names.
Proof.
  unfold existingTags. generalize (or_nil stored_tags). intros l H.
  induction H as [| t n l names Ht _ IH]; [reflexivity |].
  cbn [map]. rewrite IH. f_equal.
  destruct Ht as [-> | (Hn & type & ->)]; [reflexivity |].
  cbn [tag_or_self]. destruct n; [contradiction Hn; reflexivity | reflexivity].
Qed.

Lemma first_seen_In (l : list string) (t : string) : In t (first_seen l) <-> In t l.
Proof.
  induction l as [| x l IH]; [reflexivity |]. cbn [first_seen In].
  rewrite filter_In, IH, Bool.negb_true_iff, String.eqb_neq.
  destruct (string_dec x t) as [-> | ne]; [tauto |].
  split; [tauto |]. intros [H | H]; [contradiction |]. right. split; [exact H |].
  congruence.
Qed.

Lemma first_seen_NoDup (l : list string) : NoDup (first_seen l).
Proof.
  induction l as [| x l IH]; [constructor |]. cbn [first_seen]. constructor.
  - rewrite filter_In, Bool.negb_true_iff, String.eqb_neq. tauto.
  - now apply NoDup_filter.
Qed.

(** What [reconciled] means as a set, and that it brings in no
    repetition. *)
Lemma reconciled_set (current add remove : list string) :
  (forall t, In t (reconciled current add remove) <->
             (In t current \/ In t add) /\ ~ In t remove)
  /\ (NoDup current -> NoDup (reconciled current add remove)).
Proof.
  unfold reconciled. split.
  - intros t. rewrite filter_In, in_app_iff, first_seen_In, filter_In.
    rewrite !Bool.negb_true_iff, <- !Bool.not_true_iff_false, !among_In.
    destruct (in_dec string_dec t current); tauto.
  - intros Hcur. apply NoDup_filter.
    induction current as [| c current IH] in Hcur |- *.
    + cbn [app]. apply first_seen_NoDup.
    + assert (Hgen : forall fresh : list string,
                 NoDup fresh -> (forall t, In t fresh -> ~ In t (c :: current)) ->
                 NoDup ((c :: current) ++ fresh)).
      { clear IH. intros fresh Hf Hd.
        induction (c :: current) as [| a l IHl] in Hcur, Hd |- *; [exact Hf |].
        cbn [app]. inversion Hcur; subst. constructor.
        - rewrite in_app_iff. intros [H | H]; [contradiction |].
          apply (Hd a H). now left.
        - apply IHl; [assumption |]. intros t Ht Hin. apply (Hd t Ht). now right. }
      apply Hgen; [apply first_seen_NoDup |].
      intros t Ht. apply first_seen_In, filter_In in Ht as [_ Ht].
      apply Bool.negb_true_iff in Ht. rewrite <- Bool.not_true_iff_false in Ht.
      now rewrite among_In in Ht.
Qed.

Lemma build_patch_of_data (data : itemData) (changes : UpdateChanges) :
  Package.build_patch (Some data) changes
  = inr {| p_title := ch_title changes;
           p_abstractNote := ch_abstract changes;
           p_date := ch_date changes;
           p_extra := ch_extra changes;
           p_tags :=
             match ch_tags changes with
             | Some ts => Some (map TVName ts)
             | None =>
                 if either_given (ch_add_tags changes) (ch_remove_tags changes)
                 then Some (reconcile_tags (existingTags (d_tags data))
                                           (ch_add_tags changes)
                                           (ch_remove_tags changes))
                 else None
             end;
           p_collections :=
             match ch_collections changes with
             | Some cs => Some cs
             | None =>
                 if either_given (ch_add_collections changes)
                                 (ch_remove_collections changes)
                 then Some (reconcile_keys (or_nil (d_collections data))
                                           (ch_add_collections changes)
                                           (ch_remove_collections changes))
                 else None
             end |}.
Proof.
  unfold Package.build_patch, Package.current.
  destruct (ch_tags changes);
    [| destruct (either_given (ch_add_tags changes) (ch_remove_tags changes))];
    (destruct (ch_collections changes);
     [| destruct (either_given (ch_add_collections changes)
                               (ch_remove_collections changes))]);
    reflexivity.
Qed.

Lemma Package_updateItem_sent (R : remote) (version_missing : exn) (key : string)
      (changes : UpdateChanges) (h : list request) (raw : rawItem)
      (data : itemData) (version : Z) (p : patchData) :
  item_get R h key = inr (Some raw) ->
  r_data raw = Some data ->
  r_version raw = Some version ->
  Package.build_patch (Some data) changes = inr p ->
  sent (Package.updateItem R version_missing key changes) h
  = (h ++ [GetItem key; PatchItem key (Some version) (Partial p)])%list.
Proof.
  intros Hget Hdata Hversion Hp. unfold sent.
  rewrite Package_updateItem_run, Hget, Hdata, Hp, Hversion. cbn [snd].
  now rewrite <- app_assoc.
Qed.

(** X22 — the collections of the packaged [updateItem], on an item read
    with its data and version.  A replacement list is sent as given; with
    no collection change the patch does not mention collections;
    otherwise the list sent is the current collections in their order,
    followed by the added ones the item was not in, each once and in the
    order [add_collections] first names them, with those of
    [remove_collections] struck out.  As a set that is (current ∪ add)
    minus remove, and no repetition is brought in. *)
Theorem collection_reconciliation (R : remote) (version_missing : exn)
        (key : string) (changes : UpdateChanges) (h : list request)
        (raw : rawItem) (data : itemData) (version : Z) :
  item_get R h key = inr (Some raw) ->
  r_data raw = Some data ->
  r_version raw = Some version ->
  let current := or_nil (d_collections data) in
  let add := or_nil (ch_add_collections changes) in
  let remove := or_nil (ch_remove_collections changes) in
  exists p,
    sent (Package.updateItem R version_missing key changes) h
    = (h ++ [GetItem key; PatchItem key (Some version) (Partial p)])%list
    /\ p_collections p
       = match ch_collections changes with
         | Some replacement => Some replacement
         | None =>
             match ch_add_collections changes, ch_remove_collections changes with
             | None, None => None
             | _, _ => Some (reconciled current add remove)
             end
         end
    /\ (forall c, In c (reconciled current add remove) <->
                  (In c current \/ In c add) /\ ~ In c remove)
    /\ (NoDup current -> NoDup (reconciled current add remove)).
Proof.
  intros Hget Hdata Hversion current add remove.
  eexists. split.
  { apply (Package_updateItem_sent R version_missing key changes h raw data version);
      try assumption. apply build_patch_of_data. }
  cbn [p_collections]. split; [| apply reconciled_set].
  destruct (ch_collections changes) as [cs |]; [reflexivity |].
  subst current add remove. rewrite <- reconcile_keys_reconciled.
  destruct (ch_add_collections changes), (ch_remove_collections changes);
    reflexivity.
Qed.

Lemma collection_reconciliation_witness :
  exists p,
    sent (Package.updateItem (holding_store (inr tt)) fetch_failed
                             "AAAA1111" file_twice) []
    = [GetItem "AAAA1111"; PatchItem "AAAA1111" (Some 7%Z) (Partial p)]
    /\ p_collections p = Some ["COLL0002"; "COLL0001"].
Proof.
  destruct (collection_reconciliation
              (holding_store (inr tt)) fetch_failed "AAAA1111" file_twice []
              (stored "AAAA1111" "journalArticle" "A paper" None ["x"])
              {| d_key := Some "AAAA1111"; d_itemType := Some "journalArticle";
                 d_title := Some "A paper"; d_creators := Some [];
                 d_date := None; d_tags := Some [TagObj "x" None];
                 d_url := None; d_contentType := None; d_filename := None;
                 d_collections := Some []; d_dateModified := None |}
              7%Z eq_refl eq_refl eq_refl)
    as (p & Hsent & Hp & _).
  exists p. split; [exact Hsent | exact Hp].
Defined.

(** X23 — the tags of the packaged [updateItem], on an item read with
    its data and version, whose tag entries carry the names [names].  A
    replacement list is sent as given, whatever [add_tags] and
    [remove_tags] say; with no tag change the patch does not mention
    tags; otherwise the list sent is the current names in their order,
    followed by the added names the item did not carry, each once and in
    the order [add_tags] first gives them, with those of [remove_tags]
    struck out.  As a set that is (current ∪ add) minus remove, and no
    repetition is brought in. *)
Theorem tag_update_keeps_order (R : remote) (version_missing : exn)
        (key : string) (changes : UpdateChanges) (h : list request)
        (raw : rawItem) (data : itemData) (version : Z) (names : list string) :
  item_get R h key = inr (Some raw) ->
  r_data raw = Some data ->
  r_version raw = Some version ->
  Forall2 tag_named (or_nil (d_tags data)) names ->
  let add := or_nil (ch_add_tags changes) in
  let remove := or_nil (ch_remove_tags changes) in
  exists p,
    sent (Package.updateItem R version_missing key changes) h
    = (h ++ [GetItem key; PatchItem key (Some version) (Partial p)])%list
    /\ p_tags p
       = match ch_tags changes with
         | Some replacement => Some (map TVName replacement)
         | None =>
             match ch_add_tags changes, ch_remove_tags changes with
             | None, None => None
             | _, _ => Some (map TVName (reconciled names add remove))
             end
         end
    /\ (forall t, In t (reconciled names add remove) <->
                  (In t names \/ In t add) /\ ~ In t remove)
    /\ (NoDup names -> NoDup (reconciled names add remove)).
Proof.
  intros Hget Hdata Hversion Hnames add remove.
  eexists. split.
  { apply (Package_updateItem_sent R version_missing key changes h raw data version);
      try assumption. apply build_patch_of_data. }
  cbn [p_tags]. split; [| apply reconciled_set].
  destruct (ch_tags changes) as [ts |]; [reflexivity |].
  subst add remove.
  rewrite (existingTags_named _ names Hnames), reconcile_tags_reconciled.
  destruct (ch_add_tags changes), (ch_remove_tags changes); reflexivity.
Qed.

Lemma tag_update_keeps_order_witness :
  exists p,
    sent (Package.updateItem (holding_store (inr tt)) fetch_failed
                             "AAAA1111" add_z_y_z) []
    = [GetItem "AAAA1111"; PatchItem "AAAA1111" (Some 7%Z) (Partial p)]
    /\ p_tags p = Some [TVName "x"; TVName "z"; TVName "y"].
Proof.
  assert (Hnames : Forall2 tag_named [TagObj "x" None] ["x"]).
  { constructor; [| constructor]. right. split; [discriminate | now exists None]. }
  destruct (tag_update_keeps_order
              (holding_store (inr tt)) fetch_failed "AAAA1111" add_z_y_z []
              (stored "AAAA1111" "journalArticle" "A paper" None ["x"])
              {| d_key := Some "AAAA1111"; d_itemType := Some "journalArticle";
                 d_title := Some "A paper"; d_creators := Some [];
                 d_date := None; d_tags := Some [TagObj "x" None];
                 d_url := None; d_contentType := None; d_filename := None;
                 d_collections := Some []; d_dateModified := None |}
              7%Z ["x"] eq_refl eq_refl eq_refl Hnames)
    as (p & Hsent & Hp & _).
  exists p. split; [exact Hsent | exact Hp].
Defined.

(* ------------------------------------------------------------------ *)
(** * Fulltext resolution, continued *)
(* ------------------------------------------------------------------ *)

(** One probe of the packaged copy: one request, and the text found is
    the text the store holds. *)
Lemma fetchFulltext_text (R : remote) (key : option string) (h : list request) :
  exists d,
    Package.fetchFulltext R key h = (inr d, (h ++ [FetchFulltext key])%list)
    /\ option_map snd (found d) = text_held R h key.
Proof.
  unfold Package.fetchFulltext, text_held, try_catch, bind, call, lift, ret, http_ok.
  destruct (fulltext_fetch R h key) as [e | resp]; [now exists None |].
  destruct (ft_status resp =? 404)%Z eqn:E404.
  { apply Z.eqb_eq in E404. rewrite E404. now exists None. }
  destruct ((200 <=? ft_status resp) && (ft_status resp <=? 299))%Z;
    cbn [negb]; [| now exists None].
  destruct (ft_json resp) as [e | d]; [now exists None |].
  exists (Some d). split; [reflexivity |].
  cbn [found]. unfold JS.or_null.
  destruct (content d) as [[| c text] |]; reflexivity.
Qed.

Lemma none_held_cons (R : remote) (h : list request) (a : rawItem)
      (probed : list rawItem) :
  text_held R h (r_key a) = None ->
  none_held R (h ++ [probe_of a])%list probed ->
  none_held R h (a :: probed).
Proof.
  intros Ha Hrest before b after Hsplit.
  destruct before as [| x before]; cbn [app] in Hsplit; inversion Hsplit; subst.
  - cbn [map]. now rewrite app_nil_r.
  - cbn [map]. specialize (Hrest before b after eq_refl).
    now rewrite <- app_assoc in Hrest.
Qed.

(** The probing loop of the packaged copy stops at the first attachment
    for which the store holds text, and yields that text; it runs to its
    end when the store holds none. *)
Lemma Package_probe_first_text (R : remote) (itemKey : string)
      (ordered : list rawItem) (h : list request) :
  (exists before att after text res,
      ordered = (before ++ att :: after)%list
      /\ none_held R h before
      /\ text_held R (h ++ map probe_of before)%list (r_key att) = Some text
      /\ Package.probe R itemKey ordered h
         = (inr (Some res), (h ++ map probe_of (before ++ [att]))%list)
      /\ ft_content res = Some text
      /\ attachment_key res = r_key att
      /\ ft_message res = None)
  \/ (none_held R h ordered
      /\ Package.probe R itemKey ordered h = (inr None, (h ++ map probe_of ordered)%list)).
Proof.
  revert h. induction ordered as [| att ordered IH]; intros h.
  - right. split.
    + intros [| x before] a after Hsplit; discriminate Hsplit.
    + cbn. now rewrite app_nil_r.
  - cbn [Package.probe]. unfold bind.
    destruct (fetchFulltext_text R (r_key att) h) as (d & -> & Hheld).
    destruct (found d) as [dc |]; cbn [option_map] in Hheld.
    + left. exists [], att, ordered, (snd dc). eexists.
      split; [reflexivity |].
      split; [intros [| x before] a after Hsplit; discriminate Hsplit |].
      cbn [map]. rewrite app_nil_r.
      split; [now symmetry |]. split; [reflexivity |].
      cbn. repeat split.
    + symmetry in Hheld.
      destruct (IH (h ++ [FetchFulltext (r_key att)])%list)
        as [(before & a & after & text & res & -> & Hnone & Htext & Hrun & Hres)
           | (Hnone & Hrun)].
      * left. exists (att :: before), a, after, text, res.
        split; [reflexivity |].
        split; [now apply none_held_cons |].
        cbn [map app]. rewrite <- !app_assoc in *. cbn [app] in *.
        split; [exact Htext |]. split; [exact Hrun | exact Hres].
      * right. split; [now apply none_held_cons |].
        cbn [map]. rewrite <- app_assoc in Hrun. exact Hrun.
Qed.

(** X24 — for an item that is not an attachment the packaged
    [getItemFulltext] probes the attachments among the children, PDFs
    first and each group in the store's order, one request each.  It
    stops at the first for which the store holds text and returns that
    text under that attachment's key.  When the store holds text for
    none, every one has been probed, the content is [null] with a
    message, and [attachments_checked] lists the attachments in the
    store's order. *)
Theorem Package_fulltext_prefers_pdfs (R : remote) (itemKey : string)
        (h : list request) (raw : rawItem) (children : multiResp) :
  item_get R h itemKey = inr (Some raw) ->
  d_itemType (data_or_self raw) <> Some "attachment" ->
  children_get R (h ++ [GetItem itemKey])%list itemKey = inr children ->
  let ordered := pdfs_first (or_nil (m_raw children)) in
  let asked := (h ++ [GetItem itemKey; GetChildren itemKey])%list in
  exists res,
    outcome (Package.getItemFulltext R itemKey) h = inr (Got res)
    /\ ((exists before att after text,
            ordered = (before ++ att :: after)%list
            /\ none_held R asked before
            /\ text_held R (asked ++ map probe_of before)%list (r_key att) = Some text
            /\ sent (Package.getItemFulltext R itemKey) h
               = (asked ++ map probe_of (before ++ [att]))%list
            /\ ft_content res = Some text
            /\ attachment_key res = r_key att)
        \/ (none_held R asked ordered
            /\ sent (Package.getItemFulltext R itemKey) h
               = (asked ++ map probe_of ordered)%list
            /\ ft_content res = None
            /\ ft_message res <> None
            /\ (ordered <> [] ->
                option_map (map ck_key) (attachments_checked res)
                = Some (map r_key (filter is_attachment (or_nil (m_raw children))))))).
Proof.
  intros Hitem Htype Hchildren ordered asked.
  pose proof (Package_fulltext_parent_run R itemKey h raw children
                Hitem Htype Hchildren) as Hrun.
  cbv zeta in Hrun.
  assert (Hasked : ((h ++ [GetItem itemKey]) ++ [GetChildren itemKey])%list = asked).
  { subst asked. now rewrite <- app_assoc. }
  rewrite Hasked in Hrun.
  change (Package.orderedAttachments (filter is_attachment (or_nil (m_raw children))))
    with ordered in Hrun.
  unfold sent, outcome. rewrite Hrun. clear Hrun.
  destruct (Package_probe_first_text R itemKey ordered asked)
    as [(before & att & after & text & res & Hsplit & Hnone & Htext & Hprobe
         & Hcontent & Hkey & _)
       | (Hnone & Hprobe)].
  - assert (Hne : filter is_attachment (or_nil (m_raw children)) <> []).
    { intros E. subst ordered. unfold pdfs_first in Hsplit. rewrite E in Hsplit.
      destruct before; discriminate Hsplit. }
    destruct (filter is_attachment (or_nil (m_raw children))) as [| a0 atts];
      [contradiction Hne; reflexivity |].
    rewrite Hprobe. cbn [fst snd]. exists res. split; [reflexivity |].
    left. exists before, att, after, text. repeat split; assumption.
  - destruct (filter is_attachment (or_nil (m_raw children))) as [| a0 atts] eqn:Ea.
    + assert (Hempty : ordered = []).
      { subst ordered. unfold pdfs_first. now rewrite Ea. }
      cbn [fst snd]. eexists. split; [reflexivity |]. right.
      rewrite Hempty in *. cbn [map]. rewrite app_nil_r.
      split; [exact Hnone |]. split; [reflexivity |].
      cbn. split; [reflexivity |]. split; [discriminate |].
      intros H. contradiction H. reflexivity.
    + rewrite Hprobe. cbn [fst snd]. eexists. split; [reflexivity |]. right.
      split; [exact Hnone |]. split; [reflexivity |].
      cbn [Package.none_indexed ft_content ft_message attachments_checked option_map].
      split; [reflexivity |]. split; [discriminate |].
      intros _. now rewrite map_map.
Qed.

Lemma Package_fulltext_prefers_pdfs_witness :
  pdfs_first children_of_article
  = [stored "PDFF0001" "attachment" "paper.pdf" (Some "application/pdf") [];
     stored "HTML0001" "attachment" "Snapshot" (Some "text/html") []]
  /\ exists res,
      outcome (Package.getItemFulltext fulltext_store "AAAA1111") [] = inr (Got res)
      /\ ft_content res = Some "paper text"
      /\ attachment_key res = Some "PDFF0001"
      /\ sent (Package.getItemFulltext fulltext_store "AAAA1111") []
         = [GetItem "AAAA1111"; GetChildren "AAAA1111";
            FetchFulltext (Some "PDFF0001")].
Proof.
  split; [reflexivity |].
  destruct (Package_fulltext_prefers_pdfs
              fulltext_store "AAAA1111" []
              (stored "AAAA1111" "journalArticle" "A paper" None ["x"])
              {| m_raw := Some children_of_article; m_total_results := Some "3" |}
              eq_refl ltac:(discriminate) eq_refl)
    as (res & Hout & _).
  exists res. split; [exact Hout |].
  cbn in Hout. inversion Hout. repeat split.
Defined.




Lemma Worker_probe_finds_nothing (itemKey : string)
      (attachments : list rawItem) (h : list request) :
  Worker.probe itemKey attachments h = (inr None, h).
Proof.
  induction attachments as [| att attachments IH]; [reflexivity |].
  cbn [Worker.probe].
  unfold bind at 1, try_catch, Worker.fulltext_of, bind at 1, throw, ret.
  exact IH.
Qed.

(** X26 — the worker's [getItemFulltext] never returns text and never
    probes: the client has no [fulltext] method, so the attempt on the
    item and the attempt on each attachment throw before a request is
    made and are swallowed.  It sends the children request and nothing
    else, and answers [content: null] with the message that no text is
    available; the only failure it reports is that of reading the
    children. *)
Theorem Worker_fulltext_never_probes (R : remote) (itemKey : string)
        (h : list request) :
  sent (Worker.getItemFulltext R itemKey) h = (h ++ [GetChildren itemKey])%list
  /\ outcome (Worker.getItemFulltext R itemKey) h
     = inr match children_get R h itemKey with
           | inl e => Failed (message e)
           | inr _ =>
               Got {| item_key := itemKey;
                      attachment_key := None;
                      attachment_filename := None;
                      ft_content := None;
                      ft_pages := (None, None);
                      ft_chars := (None, None);
                      ft_source := None;
                      ft_contentType := None;
                      ft_filename := None;
                      attachments_checked := None;
                      ft_message :=
                        Some "No full-text content available for this item." |}
           end.
Proof.
  assert (Hrun :
    Worker.getItemFulltext R itemKey h
    = (inr match children_get R h itemKey with
           | inl e => Failed (message e)
           | inr _ =>
               Got {| item_key := itemKey;
                      attachment_key := None;
                      attachment_filename := None;
                      ft_content := None;
                      ft_pages := (None, None);
                      ft_chars := (None, None);
                      ft_source := None;
                      ft_contentType := None;
                      ft_filename := None;
                      attachments_checked := None;
                      ft_message :=
                        Some "No full-text content available for this item." |}
           end, (h ++ [GetChildren itemKey])%list)).
  { unfold Worker.getItemFulltext.
    unfold try_catch at 1, bind at 1, try_catch at 1, Worker.fulltext_of,
      bind at 1, throw, ret at 1. cbv beta iota.
    unfold bind at 1, call at 1.
    destruct (children_get R h itemKey) as [e | children]; [reflexivity |].
    unfold bind. rewrite Worker_probe_finds_nothing. reflexivity. }
  unfold sent, outcome. rewrite Hrun. split; reflexivity.
Qed.

(* ------------------------------------------------------------------ *)
(** * Notes *)
(* ------------------------------------------------------------------ *)

(** X27 — [createNote] posts nothing when the note template cannot be
    fetched.  Otherwise it posts one item: the template with
    [parentItem] set to the parent's key, [note] to the content and, when
    tags are given, [tags] to them, every other field as fetched; and it
    reports success exactly when the store answers with the key of the
    created note. *)
Theorem createNote_posts_child_note (R : remote) (parentItemKey content : string)
        (tags : list string) (h : list request) :
  let asked := (h ++ [GetTemplate (Str "note")])%list in
  (forall e, template_get R h (Str "note") = inl e ->
             createNote R parentItemKey content tags h
             = (inr (write_failed (message e)), asked))
  /\ (forall t, template_get R h (Str "note") = inr t ->
      exists posted res,
        createNote R parentItemKey content tags h
        = (inr res, (asked ++ [PostItems (NewItem posted)])%list)
        /\ field posted "parentItem" = Some (TString parentItemKey)
        /\ field posted "note" = Some (TString content)
        /\ field posted "tags"
           = match tags with [] => field t "tags" | _ => Some (TTags tags) end
        /\ (forall k, k <> "parentItem" -> k <> "note" -> k <> "tags" ->
                      field posted k = field t k)
        /\ (w_success res = true <->
            exists response key,
              items_post R asked (NewItem posted) = inr response
              /\ entity0 response = inr (Some key)
              /\ w_item_key res = Some key)).
Proof.
  intros asked. split.
  - intros e He. unfold createNote, try_catch, getItemTemplate, bind, call.
    now rewrite He.
  - intros t Ht.
    set (posted := if (0 <? List.length tags)%nat
                   then set (set (set t "parentItem" (TString parentItemKey))
                                 "note" (TString content)) "tags" (TTags tags)
                   else set (set t "parentItem" (TString parentItemKey))
                            "note" (TString content)).
    assert (Hrun :
      createNote R parentItemKey content tags h
      = (inr match items_post R asked (NewItem posted) with
             | inl e => write_failed (message e)
             | inr response =>
                 match entity0 response with
                 | inl e => write_failed (message e)
                 | inr None => write_failed "Failed to create note"
                 | inr (Some key) =>
                     {| w_success := true; w_item_key := Some key;
                        w_message := Some ("Note created on item " ++ parentItemKey);
                        w_error := None |}
                 end
             end, (asked ++ [PostItems (NewItem posted)])%list)).
    { unfold createNote, try_catch, getItemTemplate, bind, call, lift, ret.
      rewrite Ht. fold asked. cbv zeta. fold posted.
      destruct (items_post R asked (NewItem posted)) as [e | response];
        [reflexivity |].
      destruct (entity0 response) as [e | [key |]]; reflexivity. }
    exists posted. eexists. split; [exact Hrun |].
    split; [| split; [| split; [| split]]].
    + subst posted. destruct (0 <? List.length tags)%nat.
      * rewrite !field_set_other by discriminate. apply field_set_same.
      * rewrite field_set_other by discriminate. apply field_set_same.
    + subst posted. destruct (0 <? List.length tags)%nat.
      * rewrite field_set_other by discriminate. apply field_set_same.
      * apply field_set_same.
    + subst posted. destruct tags as [| a tags]; cbn [List.length Nat.ltb Nat.leb].
      * now rewrite !field_set_other by discriminate.
      * apply field_set_same.
    + intros k H1 H2 H3. subst posted. destruct (0 <? List.length tags)%nat.
      * rewrite !field_set_other; auto.
      * rewrite !field_set_other; auto.
    + destruct (items_post R asked (NewItem posted)) as [e | response].
      { cbn. split; [discriminate | intros (? & ? & ? & _); discriminate]. }
      destruct (entity0 response) as [e | [key |]] eqn:E; cbn.
      * split; [discriminate | intros (r0 & k & Hr & Hk & _)].
        inversion Hr; subst. rewrite E in Hk. discriminate.
      * split; [intros _; now exists response, key | reflexivity].
      * split; [discriminate | intros (r0 & k & Hr & Hk & _)].
        inversion Hr; subst. rewrite E in Hk. discriminate.
Qed.

Lemma createNote_posts_child_note_witness :
  exists posted res,
    createNote archive_store "AAAA1111" "<p>Summary</p>" ["to-read"] []
    = (inr res, [GetTemplate (Str "note"); PostItems (NewItem posted)])
    /\ field posted "parentItem" = Some (TString "AAAA1111")
    /\ field posted "note" = Some (TString "<p>Summary</p>")
    /\ field posted "tags" = Some (TTags ["to-read"]).
Proof.
  destruct (proj2 (createNote_posts_child_note
                     archive_store "AAAA1111" "<p>Summary</p>" ["to-read"] [])
                  webpage_template eq_refl)
    as (posted & res & Hrun & Hp & Hn & Ht & _).
  exists posted, res. split; [exact Hrun |]. split; [exact Hp |].
  split; [exact Hn | exact Ht].
Defined.

(* ------------------------------------------------------------------ *)
(** * Attachment content *)
(* ------------------------------------------------------------------ *)

(** X28 — [getAttachmentContent] never throws.  It downloads nothing
    unless the store says the item is an attachment, and then only that
    item's file; it returns content only for a download that succeeded
    and a content type that names html, text, xml or json, and a binary
    file comes back as [content: null] with a message. *)
Theorem getAttachmentContent_guards (R : remote) (group : bool)
        (libraryId itemKey : string) (h : list request) :
  let asked := (h ++ [GetItem itemKey])%list in
  let url := file_url group libraryId itemKey in
  exists res,
    outcome (getAttachmentContent R group libraryId itemKey) h = inr res
    /\ (sent (getAttachmentContent R group libraryId itemKey) h = asked
        \/ (sent (getAttachmentContent R group libraryId itemKey) h
            = (asked ++ [Fetch url])%list
            /\ exists raw,
                item_get R h itemKey = inr (Some raw)
                /\ d_itemType (data_or_self raw) = Some "attachment"))
    /\ (ac_error res = None ->
        exists raw fileResp body,
          item_get R h itemKey = inr (Some raw)
          /\ fetch R asked url = inr fileResp
          /\ http_ok (h_status fileResp) = true
          /\ h_body fileResp = inr body
          /\ ac_item_key res = Some itemKey
          /\ ac_contentType res
             = Some (JS.or_else (d_contentType (data_or_self raw)) "")
          /\ if is_textual (JS.or_else (d_contentType (data_or_self raw)) "")
             then ac_content res = Some body /\ ac_message res = None
             else ac_content res = None /\ ac_message res <> None)
    /\ (ac_error res <> None -> ac_content res = None).
Proof.
  intros asked url.
  unfold outcome, sent, getAttachmentContent, try_catch, bind, call, lift, ret, throw.
  cbv beta. fold asked url.
  destruct (item_get R h itemKey) as [e | [raw |]] eqn:Eitem; cbn [option_map].
  - eexists. split; [reflexivity |]. cbn.
    split; [now left |]. split; [discriminate | reflexivity].
  - destruct (opt_string_neqb (d_itemType (data_or_self raw)) "attachment") eqn:Eatt.
    + eexists. split; [reflexivity |]. cbn.
      split; [now left |]. split; [discriminate | reflexivity].
    + assert (Htype : d_itemType (data_or_self raw) = Some "attachment").
      { unfold opt_string_neqb in Eatt.
        destruct (d_itemType (data_or_self raw)) as [t |]; [| discriminate].
        apply Bool.negb_false_iff, String.eqb_eq in Eatt. now subst. }
      assert (Hfetched : exists raw0,
                 @inr exn (option rawItem) (Some raw) = inr (Some raw0)
                 /\ d_itemType (data_or_self raw0) = Some "attachment")
        by now exists raw.
      destruct (fetch R asked url) as [e | fileResp] eqn:Efetch.
      { eexists. split; [reflexivity |]. cbn.
        split; [right; now split |]. split; [discriminate | reflexivity]. }
      destruct (http_ok (h_status fileResp)) eqn:Eok; cbn [negb].
      2:{ eexists. split; [reflexivity |]. cbn.
          split; [right; now split |]. split; [discriminate | reflexivity]. }
      destruct (h_body fileResp) as [e | body] eqn:Ebody.
      { eexists. split; [reflexivity |]. cbn.
        split; [right; now split |]. split; [discriminate | reflexivity]. }
      destruct (is_textual (JS.or_else (d_contentType (data_or_self raw)) ""))
        eqn:Etext.
      * eexists. split; [reflexivity |]. cbn.
        split; [right; now split |].
        split; [| intros H; contradiction H; reflexivity].
        intros _. exists raw, fileResp, body. rewrite Etext.
        repeat split; assumption.
      * eexists. split; [reflexivity |]. cbn.
        split; [right; now split |].
        split; [| intros H; contradiction H; reflexivity].
        intros _. exists raw, fileResp, body. rewrite Etext.
        repeat split; try assumption. discriminate.
  - eexists. split; [reflexivity |]. cbn.
    split; [now left |]. split; [discriminate | reflexivity].
Qed.

(* ------------------------------------------------------------------ *)
(** * The worker's request handler *)
(* ------------------------------------------------------------------ *)

Lemma prefix_drop (a s : string) :
  String.prefix a s = true -> s = a ++ Wrapper.drop (String.length a) s.
Proof.
  revert s. induction a as [| c a IH]; intros s H; [reflexivity |].
  destruct s as [| d s]; [discriminate H |].
  cbn [String.prefix] in H.
  destruct (Ascii.ascii_dec c d) as [-> | ne]; [| discriminate H].
  cbn [String.length Wrapper.drop append]. f_equal. now apply IH.
Qed.

Lemma span_splits (stop : ascii -> bool) (s a b : string) :
  PlainURL.span stop s = (a, b) ->
  s = a ++ b
  /\ PlainURL.all_chars (fun c => negb (stop c)) a = true
  /\ (b = EmptyString \/ exists c r, b = String c r /\ stop c = true).
Proof.
  revert a b. induction s as [| c s IH]; intros a b H; cbn [PlainURL.span] in H.
  - inversion H; subst. repeat split. now left.
  - destruct (stop c) eqn:E.
    + inversion H; subst. repeat split. right. now exists c, s.
    + destruct (PlainURL.span stop s) as [a' b'] eqn:Es. inversion H; subst.
      destruct (IH a' b eq_refl) as (-> & Hall & Hb).
      cbn [append PlainURL.all_chars]. rewrite E, Hall. now repeat split.
Qed.

Lemma span_of_app (stop : ascii -> bool) (a b : string) :
  PlainURL.all_chars (fun c => negb (stop c)) a = true ->
  (b = EmptyString \/ exists c r, b = String c r /\ stop c = true) ->
  PlainURL.span stop (a ++ b) = (a, b).
Proof.
  intros Ha Hb. induction a as [| c a IH]; cbn [append PlainURL.span].
  - destruct Hb as [-> | (c & r & -> & Hc)]; [reflexivity |].
    cbn [PlainURL.span]. now rewrite Hc.
  - cbn [PlainURL.all_chars] in Ha. apply andb_prop in Ha as [Hc Ha].
    apply Bool.negb_true_iff in Hc. rewrite Hc, (IH Ha). reflexivity.
Qed.

Lemma token_match_shape (path token : string) (rest : option string) :
  Deploy.token_match path = Some (token, rest) ->
  path = "/mcp/t/" ++ token ++ JS.or_else rest ""
  /\ token <> EmptyString
  /\ JS.includes token "/" = false
  /\ match rest with
     | Some r => String.prefix "/" r = true
     | None => True
     end.
Proof.
  unfold Deploy.token_match.
  destruct (String.prefix "/mcp/t/" path) eqn:Ep; [| discriminate].
  apply prefix_drop in Ep. cbn [String.length] in Ep.
  destruct (PlainURL.span _ (Wrapper.drop 7 path)) as [tk tail] eqn:Es.
  apply span_splits in Es as (Hsplit & Hall & Htail).
  destruct tk as [| c tk]; [discriminate |]. cbn [JS.truthy negb].
  assert (Hno : JS.includes (String c tk) "/" = false).
  { clear - Hall. induction (String c tk) as [| d s IH]; [reflexivity |].
    cbn [PlainURL.all_chars] in Hall. apply andb_prop in Hall as [Hd Hs].
    cbn [JS.includes String.prefix]. rewrite (IH Hs), Bool.orb_false_r.
    destruct (Ascii.ascii_dec "/" d) as [<- | ne]; [discriminate Hd |].
    reflexivity. }
  destruct tail as [| d after].
  - intros H. inversion H; subst. cbn [JS.or_else].
    split; [rewrite Ep at 1; now rewrite Hsplit |].
    split; [discriminate |]. split; [exact Hno | exact I].
  - destruct (String.eqb (Wrapper.dot_run after) after); [| discriminate].
    intros H. inversion H; subst. cbn [JS.or_else JS.truthy].
    destruct Htail as [Hn | (c0 & r & Hc & Hstop)]; [discriminate Hn |].
    inversion Hc; subst. apply Ascii.eqb_eq in Hstop. subst c0.
    split; [rewrite Ep at 1; now rewrite Hsplit |].
    split; [discriminate |]. split; [exact Hno |].
    cbn [String.prefix]. destruct (Ascii.ascii_dec "/" "/") as [_ | ne];
      [now destruct r | contradiction ne; reflexivity].
Qed.

(** X29 — whatever the handler serves under [/mcp] was asked for by a
    holder of the configured token: a token is configured, it is not
    empty, and the request carries it, either as [Authorization: Bearer]
    (the request is then served as it is) or as the path segment after
    [/mcp/t/] (the request is then served at [/mcp] followed by what
    comes after the token).  With no token configured nothing under
    [/mcp] is served. *)
Theorem mcp_is_served_to_token_holders_only
        (BEARER_TOKEN : option string) (request : Deploy.incoming)
        (path search : string) :
  Deploy.handle BEARER_TOKEN request = Deploy.Served path search ->
  JS.startsWith (Deploy.in_pathname request) "/mcp" = true ->
  search = Deploy.in_search request
  /\ exists token,
      BEARER_TOKEN = Some token
      /\ token <> EmptyString
      /\ ((Deploy.in_authorization request = Some ("Bearer " ++ token)
           /\ path = Deploy.in_pathname request)
          \/ exists rest,
              Deploy.in_pathname request = "/mcp/t/" ++ token ++ rest
              /\ path = "/mcp" ++ rest
              /\ (rest = EmptyString \/ String.prefix "/" rest = true)).
Proof.
  unfold Deploy.handle. intros H Hmcp.
  destruct (String.eqb (Deploy.in_pathname request) "/"); [discriminate H |].
  assert (Hconfigured : forall given expected,
             Deploy.refused BEARER_TOKEN given expected = false ->
             exists token, BEARER_TOKEN = Some token /\ token <> EmptyString
                           /\ given = expected token).
  { intros given expected Hr. unfold Deploy.refused in Hr.
    destruct BEARER_TOKEN as [[| c tk] |]; cbn [JS.or_null JS.truthy] in Hr;
      try discriminate Hr.
    apply Bool.negb_false_iff, String.eqb_eq in Hr.
    exists (String c tk). repeat split; [discriminate | exact Hr]. }
  destruct (Deploy.token_match (Deploy.in_pathname request)) as [[urlToken rest] |]
    eqn:Em.
  - destruct (Deploy.refused BEARER_TOKEN urlToken _) eqn:Er; [discriminate H |].
    inversion H; subst. split; [reflexivity |].
    destruct (Hconfigured _ _ Er) as (token & Htok & Hne & ->).
    exists token. split; [exact Htok |]. split; [exact Hne |].
    right. apply token_match_shape in Em as (Hpath & _ & _ & Hrest).
    exists (JS.or_else rest ""). split; [exact Hpath |]. split; [reflexivity |].
    destruct rest as [[| c r] |]; cbn [JS.or_else JS.truthy];
      [now left | now right | now left].
  - rewrite Hmcp in H.
    destruct (JS.or_null (Deploy.in_authorization request)) as [auth |] eqn:Ea;
      [| discriminate H].
    destruct (Deploy.refused BEARER_TOKEN auth _) eqn:Er; [discriminate H |].
    inversion H; subst. split; [reflexivity |].
    destruct (Hconfigured _ _ Er) as (token & Htok & Hne & ->).
    exists token. split; [exact Htok |]. split; [exact Hne |].
    left. split; [| reflexivity].
    unfold JS.or_null in Ea.
    destruct (Deploy.in_authorization request) as [a |]; [| discriminate Ea].
    destruct (JS.truthy a); [now inversion Ea | discriminate Ea].
Qed.

Lemma mcp_is_served_to_token_holders_only_witness :
  Deploy.handle (Some "s3cret")
                {| Deploy.in_pathname := "/mcp/t/s3cret/sse";
                   Deploy.in_search := "?sessionId=1";
                   Deploy.in_authorization := None |}
  = Deploy.Served "/mcp/sse" "?sessionId=1"
  /\ exists token,
      Some "s3cret" = Some token
      /\ token <> EmptyString.
Proof.
  split; [reflexivity |].
  destruct (mcp_is_served_to_token_holders_only
              (Some "s3cret")
              {| Deploy.in_pathname := "/mcp/t/s3cret/sse";
                 Deploy.in_search := "?sessionId=1";
                 Deploy.in_authorization := None |}
              "/mcp/sse" "?sessionId=1" eq_refl eq_refl)
    as (_ & token & Htok & Hne & _).
  exists token. split; [exact Htok | exact Hne].
Defined.

(** X30 — a request for [/mcp/t/], the configured token and then nothing
    or a [/] and a rest without line breaks is served at [/mcp] followed
    by that rest, with its query and whatever its [Authorization]
    header; with any other token in that place it is refused. *)
Theorem url_token_is_stripped
        (token given rest search : string) (authorization : option string) :
  given <> EmptyString ->
  token <> EmptyString ->
  JS.includes given "/" = false ->
  (rest = EmptyString
   \/ exists after, rest = "/" ++ after /\ Wrapper.dot_run after = after) ->
  Deploy.handle (Some token)
                {| Deploy.in_pathname := "/mcp/t/" ++ given ++ rest;
                   Deploy.in_search := search;
                   Deploy.in_authorization := authorization |}
  = if String.eqb given token
    then Deploy.Served ("/mcp" ++ rest) search
    else Deploy.Unauthorized false.
Proof.
  intros Hgiven Htoken Hslash Hrest.
  assert (Hall : PlainURL.all_chars (fun c => negb (Ascii.eqb c "/")) given = true).
  { clear - Hslash. induction given as [| c s IH]; [reflexivity |].
    cbn [JS.includes String.prefix] in Hslash.
    apply Bool.orb_false_iff in Hslash as [Hc Hs].
    cbn [PlainURL.all_chars]. rewrite (IH Hs), Bool.andb_true_r.
    destruct (Ascii.eqb_spec c "/") as [-> | ne]; [| reflexivity].
    cbn in Hc. destruct s; discriminate Hc. }
  assert (Hmatch : Deploy.token_match ("/mcp/t/" ++ given ++ rest)
                   = Some (given, match rest with
                                  | EmptyString => None
                                  | _ => Some rest
                                  end)).
  { unfold Deploy.token_match.
    cbn [append String.prefix Wrapper.drop].
    repeat (destruct (Ascii.ascii_dec _ _) as [_ | ne];
            [| contradiction ne; reflexivity]).
    rewrite (span_of_app (fun c => Ascii.eqb c "/") given rest Hall).
    2:{ destruct Hrest as [-> | (after & -> & _)]; [now left |].
        right. now exists "/"%char, after. }
    destruct given as [| c g]; [contradiction Hgiven; reflexivity |].
    cbn [JS.truthy negb].
    destruct Hrest as [-> | (after & -> & Hdot)]; [reflexivity |].
    cbn [append]. now rewrite Hdot, String.eqb_refl. }
  unfold Deploy.handle. cbn [Deploy.in_pathname Deploy.in_search].
  cbn [append String.eqb Ascii.eqb Bool.eqb]. cbn [append] in Hmatch.
  rewrite Hmatch. unfold Deploy.refused.
  destruct token as [| c tk]; [contradiction Htoken; reflexivity |].
  cbn [JS.or_null JS.truthy].
  destruct (String.eqb given (String c tk)); cbn [negb]; [| reflexivity].
  destruct rest as [| d r]; cbn [JS.or_else JS.truthy]; [| reflexivity].
  reflexivity.
Qed.

Lemma url_token_is_stripped_witness :
  Deploy.handle (Some "s3cret")
                {| Deploy.in_pathname := "/mcp/t/" ++ "guess" ++ "/sse";
                   Deploy.in_search := "";
                   Deploy.in_authorization := Some "Bearer s3cret" |}
  = Deploy.Unauthorized false.
Proof.
  apply (url_token_is_stripped "s3cret" "guess" "/sse" "" (Some "Bearer s3cret")).
  - discriminate.
  - discriminate.
  - reflexivity.
  - right. exists "sse". split; reflexivity.
Defined.
